(** * Social Content AI: the generation service, its serverless proxy and
      the media preparation of the input form

    A shallow embedding of
      - [constants.ts], [services/geminiService.ts] (direct-call mode),
      - [api/generate.ts] (proxied mode),
      - [components/InputSection.tsx] and its earlier variant without
        image compression,
      - [services/apiService.ts] (the client of the proxy) and the
        generation handler of [App.tsx],
    followed by the properties of the specification that concern them.

    JavaScript values are kept dynamically typed where the code relies on
    it (the decoded provider response, the [idea] of a request body);
    strings are sequences of UTF-16 code units; numbers are binary64
    floats.  The provider, the JSON decoder and the browser's file, image
    and canvas services are oracles: every statement below holds for all
    of them. *)

From Stdlib Require Import List ZArith NArith QArith Qround Bool String Ascii Lia Floats
  DecimalString.
Import ListNotations.
#[local] Close Scope Q_scope.

Set Implicit Arguments.
#[local] Set Warnings "-inexact-float".

(** ** JavaScript strings *)

Module JS.

(** A string is its sequence of UTF-16 code units. *)
Definition jsstring := list N.

(** The code units of an ASCII literal of the source. *)
Fixpoint lit (s : string) : jsstring :=
  match s with
  | EmptyString => []
  | String a r => N_of_ascii a :: lit r
  end.

(** Line feed and the double quote, written by code unit. *)
Definition nl : jsstring := [10%N].
Definition dq : jsstring := [34%N].

Fixpoint str_eqb (a b : jsstring) : bool :=
  match a, b with
  | [], [] => true
  | x :: a', y :: b' => N.eqb x y && str_eqb a' b'
  | _, _ => false
  end.

(** [s.startsWith(p)] *)
Fixpoint startsWith (s p : jsstring) : bool :=
  match p, s with
  | [], _ => true
  | c :: p', d :: s' => N.eqb c d && startsWith s' p'
  | _ :: _, [] => false
  end.

(** [xs.includes(s)] on an array of strings. *)
Definition includes (xs : list jsstring) (s : jsstring) : bool :=
  existsb (str_eqb s) xs.

(** ECMAScript WhiteSpace and LineTerminator code points: the characters
    [String.prototype.trim] strips (all of them are single code units). *)
Definition is_white_space (c : N) : bool :=
  (N.eqb c 9 || N.eqb c 10 || N.eqb c 11 || N.eqb c 12 || N.eqb c 13
   || N.eqb c 32 || N.eqb c 160 || N.eqb c 5760
   || (N.leb 8192 c && N.leb c 8202)
   || N.eqb c 8232 || N.eqb c 8233 || N.eqb c 8239 || N.eqb c 8287
   || N.eqb c 12288 || N.eqb c 65279)%bool.

Fixpoint trimStart (s : jsstring) : jsstring :=
  match s with
  | [] => []
  | c :: r => if is_white_space c then trimStart r else s
  end.

Definition trimEnd (s : jsstring) : jsstring := rev (trimStart (rev s)).

(** [s.trim()] *)
Definition trim (s : jsstring) : jsstring := trimEnd (trimStart s).

(** ** JavaScript values *)

#[local] Unset Elimination Schemes.
Inductive JSValue : Type :=
| JUndefined
| JNull
| JBool (b : bool)
| JNum (x : float)
| JStr (s : jsstring)
| JArr (items : list JSValue)
| JObj (props : list (jsstring * JSValue)).
#[local] Set Elimination Schemes.

(** ToBoolean: [undefined], [null], [false], [0], [-0], [NaN] and the empty
    string are falsy. *)
Definition truthy (v : JSValue) : bool :=
  match v with
  | JUndefined | JNull => false
  | JBool b => b
  | JNum x => negb (PrimFloat.eqb x 0%float) && PrimFloat.eqb x x
  | JStr s => match s with [] => false | _ => true end
  | JArr _ | JObj _ => true
  end.

(** [typeof v === 'string'] *)
Definition is_string (v : JSValue) : bool :=
  match v with JStr _ => true | _ => false end.

(** [a || b] *)
Definition or_else (a b : JSValue) : JSValue := if truthy a then a else b.

(** What a [throw] carries: an [Error] instance (of any subclass) with its
    [message], or some other value. *)
Inductive Thrown : Type :=
| ErrorObj (message : jsstring)
| NonError (v : JSValue).

(** The completion of an expression: a value or a throw. *)
Inductive Exc (A : Type) : Type :=
| Ok (a : A)
| Throw (e : Thrown).
Arguments Ok {A} a.
Arguments Throw {A} e.

(** The members the code reads from the decoded response.  None of these
    names is an own or inherited property of a string, number, boolean or
    array, so reading one from such a value gives [undefined]. *)
Inductive Field : Type :=
| f_linkedin | f_facebook | f_twitter | f_instagram | f_caption | f_hashtags
| f_image_prompt.

Definition field_name (f : Field) : jsstring :=
  match f with
  | f_linkedin => lit "linkedin"
  | f_facebook => lit "facebook"
  | f_twitter => lit "twitter"
  | f_instagram => lit "instagram"
  | f_caption => lit "caption"
  | f_hashtags => lit "hashtags"
  | f_image_prompt => lit "image_prompt"
  end.

(** Own property of an object given by its list of properties. *)
Fixpoint lookup (k : jsstring) (props : list (jsstring * JSValue)) : JSValue :=
  match props with
  | [] => JUndefined
  | (k', v) :: r => if str_eqb k k' then v else lookup k r
  end.

(** The language engine: the JSON decoder and the text of the [TypeError]
    raised when a property is read from [null] or [undefined] (the text
    differs between engines). *)
Record Engine : Type := {
  JSON_parse : jsstring -> Exc JSValue;
  type_error_message : JSValue -> Field -> jsstring;
  destructure_error_message : jsstring
}.

(** [v.f] *)
Definition get (E : Engine) (v : JSValue) (f : Field) : Exc JSValue :=
  match v with
  | JUndefined | JNull => Throw (ErrorObj (type_error_message E v f))
  | JObj props => Ok (lookup (field_name f) props)
  | _ => Ok JUndefined
  end.

End JS.
Import JS.

(** ** Data model ([types.ts]) *)

Inductive Platform : Type := LinkedIn | Facebook | Twitter | Instagram.

(** The two media kinds, ['image'] and ['video']. *)
Inductive MediaKind : Type := image | video.

Definition kind_name (k : MediaKind) : jsstring :=
  match k with image => lit "image" | video => lit "video" end.

Record UploadedMedia : Type := {
  base64 : jsstring;
  mimeType : jsstring
}.

Record Media : Type := {
  url : jsstring;
  type : MediaKind
}.

(** A post as the object literal builds it: [hashtags] is [None] when the
    literal has no such key; [media] is [None] when the array element read
    for it is [undefined]. *)
Record SocialPost : Type := {
  platform : Platform;
  text : JSValue;
  hashtags : option JSValue;
  media : option Media
}.

Record BrandVoice : Type := {
  keywords : jsstring;
  phrasesToUse : jsstring;
  phrasesToAvoid : jsstring;
  description : jsstring;
  websiteUrl : jsstring
}.

(** The declared shape of the decoded text response. *)
Module GeminiTextResponse.

Record InstagramContent : Type := {
  caption : jsstring;
  hashtags : list jsstring;
  image_prompt : jsstring
}.

Record t : Type := {
  linkedin : jsstring;
  facebook : jsstring;
  twitter : jsstring;
  instagram : InstagramContent
}.

End GeminiTextResponse.

(** ** The provider's interface *)

#[local] Unset Elimination Schemes.
Inductive Schema : Type :=
| SString (descr : jsstring)
| SArray (items : Schema) (descr : jsstring)
| SObject (properties : list (jsstring * Schema)) (required : list jsstring).
#[local] Set Elimination Schemes.

Inductive Part : Type :=
| TextPart (t : jsstring)
| InlineData (mime data : jsstring).

Record GenerateContentParameters : Type := {
  gc_model : jsstring;
  gc_parts : list Part;
  gc_responseMimeType : jsstring;
  gc_responseSchema : Schema
}.

Record GenerateContentResponse : Type := { response_text : jsstring }.

Record GenerateImagesParameters : Type := {
  gi_model : jsstring;
  gi_prompt : JSValue;
  gi_numberOfImages : Z;
  gi_outputMimeType : jsstring;
  gi_aspectRatio : jsstring
}.

(** A generated image, by the [image.imageBytes] the code reads from it. *)
Record GeneratedImage : Type := { imageBytes : jsstring }.

(** [generatedImages] may be absent from a response. *)
Record GenerateImagesResponse : Type := {
  generatedImages : option (list GeneratedImage)
}.

(** One generation cycle seen from the program: the environment variables,
    the outcome of the text call and the outcome of the i-th image call
    (in the order the calls are issued).  Outcomes are indexed by call
    rather than computed from the request, so that two identical requests
    may be answered differently. *)
Record World : Type := {
  env : jsstring -> option jsstring;
  textResult : Exc GenerateContentResponse;
  imageResult : nat -> Exc GenerateImagesResponse
}.

Record GoogleGenAI : Type := { apiKey : jsstring }.

(** What a cycle does that can be observed from outside. *)
Inductive Event : Type :=
| ReadEnv (name : jsstring)
| CallGenerateContent (key : jsstring) (req : GenerateContentParameters)
| CallGenerateImages (key : jsstring) (req : GenerateImagesParameters).

(** The state a cycle runs in: the module-level client of the direct
    service and the events so far. *)
Record Run : Type := {
  ai : option GoogleGenAI;
  trace : list Event
}.

(** ** A monad for code that throws and has effects

    A throw keeps the state reached so far. *)

Definition M (A : Type) : Type := Run -> Exc A * Run.

Definition ret {A} (a : A) : M A := fun r => (Ok a, r).

Definition throw {A} (e : Thrown) : M A := fun r => (Throw e, r).

Definition bind {A B} (m : M A) (k : A -> M B) : M B :=
  fun r => match m r with
           | (Ok a, r') => k a r'
           | (Throw e, r') => (Throw e, r')
           end.

Notation "x <- m ;; k" := (bind m (fun x => k))
  (at level 61, m at next level, right associativity).
Notation "m ;;; k" := (bind m (fun _ => k))
  (at level 61, right associativity).

(** [try { m } catch (e) { h e }] *)
Definition try_catch {A} (m : M A) (h : Thrown -> M A) : M A :=
  fun r => match m r with
           | (Ok a, r') => (Ok a, r')
           | (Throw e, r') => h e r'
           end.

Definition lift {A} (x : Exc A) : M A := fun r => (x, r).

Definition emit (ev : Event) : M unit :=
  fun r => (Ok tt, {| ai := ai r; trace := trace r ++ [ev] |}).

Definition get_ai : M (option GoogleGenAI) := fun r => (Ok (ai r), r).

Definition set_ai (c : GoogleGenAI) : M unit :=
  fun r => (Ok tt, {| ai := Some c; trace := trace r |}).

Fixpoint mapM {A B} (f : A -> M B) (l : list A) : M (list B) :=
  match l with
  | [] => ret []
  | a :: l' => b <- f a ;; bs <- mapM f l' ;; ret (b :: bs)
  end.

(** [xs.map(f)] where [f] may throw: the first throw ends the map. *)
Fixpoint mapE {A B} (f : A -> Exc B) (l : list A) : Exc (list B) :=
  match l with
  | [] => Ok []
  | a :: l' =>
      match f a with
      | Throw e => Throw e
      | Ok b => match mapE f l' with
                | Throw e => Throw e
                | Ok bs => Ok (b :: bs)
                end
      end
  end.

(** [await Promise.all(ps)] on promises that are already running, given
    by their outcomes: the list of results, or a rejection.  When several
    promises reject, the one that settles first wins; here it is the first
    in list order, and no statement below depends on which one it is. *)
Definition Promise_all {A} (ps : list (Exc A)) : Exc (list A) :=
  mapE (fun p => p) ps.

(** [process.env[name]], falsy when unset or empty. *)
Definition read_env (W : World) (name : jsstring) : M (option jsstring) :=
  emit (ReadEnv name) ;;;
  ret (match env W name with
       | Some [] => None
       | x => x
       end).

(** [xs.map((x, i) => ...)] support: the elements with their indices. *)
Definition indexed {A} (l : list A) : list (nat * A) :=
  combine (seq 0 (List.length l)) l.

(** ** [constants.ts] *)

Module Constants.

(** The value of [PLATFORMS.X]. *)
Definition platform_name (p : Platform) : jsstring :=
  match p with
  | LinkedIn => lit "LinkedIn"
  | Facebook => lit "Facebook"
  | Twitter => lit "Twitter"
  | Instagram => lit "Instagram"
  end.

(** [Object.values(PLATFORMS)], in insertion order. *)
Definition PLATFORMS : list Platform := [LinkedIn; Facebook; Twitter; Instagram].

Definition PLATFORM_ASPECT_RATIOS (p : Platform) : jsstring :=
  match p with
  | LinkedIn => lit "4:3"
  | Facebook => lit "1:1"
  | Twitter => lit "16:9"
  | Instagram => lit "1:1"
  end.

End Constants.

(** ** Text shared verbatim by [geminiService.ts] and [api/generate.ts]

    The brand voice record, the response schema and the sentences of the
    prompt are the same text in both files; they are written once here and
    each module assembles its prompt from them as its source does. *)

Module Wording.

Definition PNP_PIZZA_BRAND_VOICE : BrandVoice := {|
  websiteUrl := lit "https://pnpizza.com/";
  description := lit "A family-owned neighborhood pizzeria in Natick, MA, serving authentic Italian food like pizza, subs, and pasta for over 40 years. The tone is friendly, welcoming, and focuses on fresh, quality ingredients and community.";
  keywords := lit "P&P Pizza, Natick MA, pizza, subs, pasta, authentic Italian, family-owned, fresh ingredients, homemade";
  phrasesToUse := lit "Come on in!, Family-owned and operated, Authentic Italian recipes, Made with fresh, quality ingredients, Your neighborhood pizzeria, Daily specials";
  phrasesToAvoid := lit "gourmet, artisanal, cheap, fast food, corporate jargon"
|}.

Definition responseSchema : Schema :=
  SObject
    [ (lit "linkedin", SString (lit "A professional, long-form post for LinkedIn, including relevant hashtags."));
      (lit "facebook", SString (lit "An engaging post for Facebook, including relevant hashtags."));
      (lit "twitter", SString (lit "A short, punchy post for Twitter/X, under 280 characters, with hashtags."));
      (lit "instagram",
        SObject
          [ (lit "caption", SString (lit "A visually-focused caption for an Instagram post."));
            (lit "hashtags", SArray (SString []) (lit "An array of 3-5 relevant hashtags for Instagram, without the # symbol."));
            (lit "image_prompt", SString (lit "A detailed, creative prompt for an AI image generator to create a visually appealing image for this post.")) ]
          [lit "caption"; lit "hashtags"; lit "image_prompt"]) ]
    [lit "linkedin"; lit "facebook"; lit "twitter"; lit "instagram"].

Definition opening : jsstring :=
  lit "You are the social media manager for P&P Pizza, a beloved family-owned pizzeria. Based on the following idea, generate social media posts for LinkedIn, Facebook, Twitter/X, and Instagram.".

Definition media_included (mediaType : jsstring) : jsstring :=
  nl ++ nl ++ lit "A user-provided " ++ mediaType
  ++ lit " is included. Analyze it carefully. The generated text content (captions, posts) MUST be directly related to and complementary to THIS specific "
  ++ mediaType
  ++ lit ". The goal is to create text that would be posted alongside this "
  ++ mediaType ++ lit ".".

Definition brand_voice_block (brandVoice : BrandVoice) : jsstring :=
  nl ++ nl ++ lit "Adhere to the P&P Pizza brand voice guidelines strictly:"
  ++ nl ++ lit "- **Primary Source for Brand Voice**: Analyze their website: " ++ dq ++ websiteUrl brandVoice ++ dq
  ++ nl ++ lit "- **Brand Description**: " ++ description brandVoice
  ++ nl ++ lit "- **Keywords to Include**: " ++ keywords brandVoice
  ++ nl ++ lit "- **Phrases to Use**: " ++ phrasesToUse brandVoice
  ++ nl ++ lit "- **Phrases to Avoid**: " ++ phrasesToAvoid brandVoice.

Definition describe_media (mediaType : jsstring) : jsstring :=
  nl ++ nl ++ lit "For the 'image_prompt' field for Instagram, just return a brief, one-sentence description of the provided "
  ++ mediaType ++ lit ". Do not generate a new image prompt.".

Definition invent_image : jsstring :=
  nl ++ nl ++ lit "For Instagram, create a compelling image generation prompt based on the core idea and brand voice. The image should look like authentic, delicious food from a classic neighborhood pizzeria.".

Definition closing : jsstring :=
  nl ++ nl ++ lit "Provide the output in the requested JSON format.".

Definition textGenerationModel : jsstring := lit "gemini-2.5-pro".
Definition imageGenerationModel : jsstring := lit "imagen-4.0-generate-001".

(** [`A visually stunning image representing: ${idea}.`] *)
Definition fallback_image_prompt (idea : jsstring) : jsstring :=
  lit "A visually stunning image representing: " ++ idea ++ lit ".".

(** [`data:${mimeType};base64,${base64}`] *)
Definition data_url (mimeType base64 : jsstring) : jsstring :=
  lit "data:" ++ mimeType ++ lit ";base64," ++ base64.

Definition no_image_message : jsstring :=
  lit "Image generation failed to return an image.".

Definition failed_prefix : jsstring := lit "Failed to generate content: ".

End Wording.

(** The media kind the code derives from an upload:
    [uploadedMedia ? (mimeType.startsWith('video') ? 'video' : 'image') : null] *)
Definition mediaType_of (uploadedMedia : option UploadedMedia) : option MediaKind :=
  match uploadedMedia with
  | Some m => Some (if startsWith (mimeType m) (lit "video") then video else image)
  | None => None
  end.

(** The callback of [imageResults.map]: the data URL of the first image,
    or the throw when there is none. *)
Definition image_url (res : GenerateImagesResponse) : Exc jsstring :=
  match generatedImages res with
  | None | Some [] => Throw (ErrorObj Wording.no_image_message)
  | Some (first :: _) => Ok (lit "data:image/jpeg;base64," ++ imageBytes first)
  end.

(** ** [services/geminiService.ts]: direct-call mode *)

Module GeminiService.

Section WithEngine.

Variable E : Engine.
Variable W : World.

(** The client is created on first use and kept in the module. *)
Definition getAIClient : M GoogleGenAI :=
  cached <- get_ai ;;
  match cached with
  | Some client => ret client
  | None =>
      key <- read_env W (lit "API_KEY") ;;
      match key with
      | None => throw (ErrorObj (lit "API key is not configured. Please set GEMINI_API_KEY in your environment."))
      | Some k =>
          let client := {| apiKey := k |} in
          set_ai client ;;; ret client
      end
  end.

Definition buildPrompt (idea : jsstring) (mediaType : option MediaKind) : jsstring :=
  let brandVoice := Wording.PNP_PIZZA_BRAND_VOICE in
  let prompt := Wording.opening in
  let prompt :=
    match mediaType with
    | Some k => prompt ++ Wording.media_included (kind_name k)
    | None => prompt
    end in
  let prompt :=
    prompt ++ nl ++ lit "    " ++ nl ++ lit "    Idea: " ++ dq ++ idea ++ dq ++ nl ++ lit "    " in
  let prompt := prompt ++ Wording.brand_voice_block brandVoice in
  let prompt :=
    match mediaType with
    | Some k => prompt ++ Wording.describe_media (kind_name k)
    | None => prompt ++ Wording.invent_image
    end in
  prompt ++ Wording.closing.

(** [client.models.generateContent(req)], awaited. *)
Definition generateContent (client : GoogleGenAI) (req : GenerateContentParameters)
  : M GenerateContentResponse :=
  emit (CallGenerateContent (apiKey client) req) ;;; lift (textResult W).

(** [client.models.generateImages(req)], the i-th image call of the cycle:
    the request goes out and the promise is returned with its outcome. *)
Definition generateImages (i : nat) (client : GoogleGenAI) (req : GenerateImagesParameters)
  : M (Exc GenerateImagesResponse) :=
  emit (CallGenerateImages (apiKey client) req) ;;; ret (imageResult W i).

Definition image_request (imagePrompt : JSValue) (platform : Platform)
  : GenerateImagesParameters :=
  {| gi_model := Wording.imageGenerationModel;
     gi_prompt := imagePrompt;
     gi_numberOfImages := 1;
     gi_outputMimeType := lit "image/jpeg";
     gi_aspectRatio := Constants.PLATFORM_ASPECT_RATIOS platform |}.

Definition generateSocialPosts (idea : jsstring) (uploadedMedia : option UploadedMedia)
  : M (list SocialPost) :=
  try_catch
    (let mediaType := mediaType_of uploadedMedia in
     let textPrompt := buildPrompt idea mediaType in
     let parts :=
       match uploadedMedia with
       | Some m => [InlineData (mimeType m) (base64 m); TextPart textPrompt]
       | None => [TextPart textPrompt]
       end in
     client <- getAIClient ;;
     textResult <- generateContent client
       {| gc_model := Wording.textGenerationModel;
          gc_parts := parts;
          gc_responseMimeType := lit "application/json";
          gc_responseSchema := Wording.responseSchema |} ;;
     textData <- lift (JSON_parse E (response_text textResult)) ;;
     mediaData <-
       match uploadedMedia, mediaType with
       | Some m, Some type => (* [mediaType] is set exactly when the upload is *)
           let mediaUrl := Wording.data_url (mimeType m) (base64 m) in
           ret (repeat {| url := mediaUrl; type := type |} 4)
       | _, _ =>
           insta <- lift (get E textData f_instagram) ;;
           image_prompt <- lift (get E insta f_image_prompt) ;;
           let imagePrompt :=
             or_else image_prompt (JStr (Wording.fallback_image_prompt idea)) in
           imagePromises <-
             mapM (fun '(i, platform) =>
                     client <- getAIClient ;;
                     generateImages i client (image_request imagePrompt platform))
                  (indexed Constants.PLATFORMS) ;;
           imageResults <- lift (Promise_all imagePromises) ;;
           imageUrls <- lift (mapE image_url imageResults) ;;
           ret (map (fun url => {| url := url; type := image |}) imageUrls)
       end ;;
     t_linkedin <- lift (get E textData f_linkedin) ;;
     t_facebook <- lift (get E textData f_facebook) ;;
     t_twitter <- lift (get E textData f_twitter) ;;
     insta <- lift (get E textData f_instagram) ;;
     t_caption <- lift (get E insta f_caption) ;;
     insta' <- lift (get E textData f_instagram) ;;
     t_hashtags <- lift (get E insta' f_hashtags) ;;
     ret [ {| platform := LinkedIn; text := t_linkedin; hashtags := None;
              media := nth_error mediaData 0 |};
           {| platform := Facebook; text := t_facebook; hashtags := None;
              media := nth_error mediaData 1 |};
           {| platform := Twitter; text := t_twitter; hashtags := None;
              media := nth_error mediaData 2 |};
           {| platform := Instagram; text := t_caption; hashtags := Some t_hashtags;
              media := nth_error mediaData 3 |} ])
    (fun error =>
       match error with
       | ErrorObj message => throw (ErrorObj (Wording.failed_prefix ++ message))
       | NonError _ =>
           throw (ErrorObj (lit "An unknown error occurred during content generation."))
       end).

End WithEngine.

End GeminiService.

(** ** [api/generate.ts]: proxied mode *)

(** The body of a request after the platform's JSON decoding.  [idea] is
    whatever value the body carries under that key ([undefined] when it has
    none); [uploadedMedia] is taken at its declared type, absent or [null]
    being [None]. *)
Record Body : Type := {
  idea : JSValue;
  uploadedMedia : option UploadedMedia
}.

(** [req.body] is [None] when the request has no body or the body is
    [null]. *)
Record Request : Type := {
  method : jsstring;
  body : option Body
}.

Inductive Payload : Type :=
| NoBody
| JsonError (error : jsstring)
| JsonPosts (posts : list SocialPost).

Record Response : Type := {
  status : Z;
  headers : list (jsstring * jsstring);
  content : Payload
}.

Module ApiGenerate.

Definition PLATFORMS : list Platform := [LinkedIn; Facebook; Twitter; Instagram].

Definition PLATFORM_ASPECT_RATIOS (p : Platform) : jsstring :=
  match p with
  | LinkedIn => lit "1:1"
  | Facebook => lit "1:1"
  | Twitter => lit "16:9"
  | Instagram => lit "1:1"
  end.

Definition cors_headers : list (jsstring * jsstring) :=
  [ (lit "Access-Control-Allow-Credentials", lit "true");
    (lit "Access-Control-Allow-Origin", lit "*");
    (lit "Access-Control-Allow-Methods", lit "GET,OPTIONS,PATCH,DELETE,POST,PUT");
    (lit "Access-Control-Allow-Headers", lit "X-CSRF-Token, X-Requested-With, Accept, Accept-Version, Content-Length, Content-MD5, Content-Type, Date, X-Api-Version") ].

(** [res.status(s).json(p)] (or [.end()]) after the four [setHeader]s. *)
Definition respond (s : Z) (p : Payload) : Response :=
  {| status := s; headers := cors_headers; content := p |}.

Section WithEngine.

Variable E : Engine.
Variable W : World.

Definition buildPrompt (idea : jsstring) (mediaType : option MediaKind) : jsstring :=
  let brandVoice := Wording.PNP_PIZZA_BRAND_VOICE in
  let prompt := Wording.opening in
  let prompt :=
    match mediaType with
    | Some k => prompt ++ Wording.media_included (kind_name k)
    | None => prompt
    end in
  let prompt :=
    prompt ++ nl ++ nl ++ lit "    Idea: " ++ dq ++ idea ++ dq ++ nl ++ lit "    " in
  let prompt := prompt ++ Wording.brand_voice_block brandVoice in
  let prompt :=
    match mediaType with
    | Some k => prompt ++ Wording.describe_media (kind_name k)
    | None => prompt ++ Wording.invent_image
    end in
  prompt ++ Wording.closing.

Definition generateContent (client : GoogleGenAI) (req : GenerateContentParameters)
  : M GenerateContentResponse :=
  emit (CallGenerateContent (apiKey client) req) ;;; lift (textResult W).

Definition generateImages (i : nat) (client : GoogleGenAI) (req : GenerateImagesParameters)
  : M (Exc GenerateImagesResponse) :=
  emit (CallGenerateImages (apiKey client) req) ;;; ret (imageResult W i).

Definition image_request (imagePrompt : JSValue) (platform : Platform)
  : GenerateImagesParameters :=
  {| gi_model := Wording.imageGenerationModel;
     gi_prompt := imagePrompt;
     gi_numberOfImages := 1;
     gi_outputMimeType := lit "image/jpeg";
     gi_aspectRatio := PLATFORM_ASPECT_RATIOS platform |}.

(** [!idea || typeof idea !== 'string' || !idea.trim()]; when it is false
    the idea is a string, returned on the right. *)
Definition check_idea (idea : JSValue) : option jsstring :=
  if negb (truthy idea) then None
  else match idea with
       | JStr s => match trim s with [] => None | _ => Some s end
       | _ => None
       end.

Definition handler (req : Request) : M Response :=
  if str_eqb (method req) (lit "OPTIONS") then ret (respond 200 NoBody)
  else if negb (str_eqb (method req) (lit "POST")) then
    ret (respond 405 (JsonError (lit "Method not allowed")))
  else
  try_catch
    (b <- match body req with
          | Some b => ret b
          | None => throw (ErrorObj (destructure_error_message E))
          end ;;
     let uploadedMedia := uploadedMedia b in
     match check_idea (idea b) with
     | None => ret (respond 400 (JsonError (lit "Idea is required")))
     | Some idea =>
     apiKey <- read_env W (lit "GEMINI_API_KEY") ;;
     match apiKey with
     | None => ret (respond 500 (JsonError (lit "API key not configured on server")))
     | Some apiKey =>
     let ai := {| apiKey := apiKey |} in
     let mediaType := mediaType_of uploadedMedia in
     let textPrompt := buildPrompt idea mediaType in
     let parts :=
       match uploadedMedia with
       | Some m => [InlineData (mimeType m) (base64 m); TextPart textPrompt]
       | None => [TextPart textPrompt]
       end in
     textResult <- generateContent ai
       {| gc_model := Wording.textGenerationModel;
          gc_parts := parts;
          gc_responseMimeType := lit "application/json";
          gc_responseSchema := Wording.responseSchema |} ;;
     textData <- lift (JSON_parse E (response_text textResult)) ;;
     mediaData <-
       match uploadedMedia, mediaType with
       | Some m, Some type => (* [mediaType] is set exactly when the upload is *)
           let mediaUrl := Wording.data_url (mimeType m) (base64 m) in
           ret (repeat {| url := mediaUrl; type := type |} 4)
       | _, _ =>
           insta <- lift (get E textData f_instagram) ;;
           image_prompt <- lift (get E insta f_image_prompt) ;;
           let imagePrompt :=
             or_else image_prompt (JStr (Wording.fallback_image_prompt idea)) in
           imagePromises <-
             mapM (fun '(i, platform) =>
                     generateImages i ai (image_request imagePrompt platform))
                  (indexed PLATFORMS) ;;
           imageResults <- lift (Promise_all imagePromises) ;;
           imageUrls <- lift (mapE image_url imageResults) ;;
           ret (map (fun url => {| url := url; type := image |}) imageUrls)
       end ;;
     t_linkedin <- lift (get E textData f_linkedin) ;;
     t_facebook <- lift (get E textData f_facebook) ;;
     t_twitter <- lift (get E textData f_twitter) ;;
     insta <- lift (get E textData f_instagram) ;;
     t_caption <- lift (get E insta f_caption) ;;
     insta' <- lift (get E textData f_instagram) ;;
     t_hashtags <- lift (get E insta' f_hashtags) ;;
     let finalPosts :=
       [ {| platform := LinkedIn; text := t_linkedin; hashtags := None;
            media := nth_error mediaData 0 |};
         {| platform := Facebook; text := t_facebook; hashtags := None;
            media := nth_error mediaData 1 |};
         {| platform := Twitter; text := t_twitter; hashtags := None;
            media := nth_error mediaData 2 |};
         {| platform := Instagram; text := t_caption; hashtags := Some t_hashtags;
            media := nth_error mediaData 3 |} ] in
     ret (respond 200 (JsonPosts finalPosts))
     end end)
    (fun error =>
       let errorMessage :=
         match error with
         | ErrorObj message => message
         | NonError _ => lit "An unknown error occurred"
         end in
       ret (respond 500 (JsonError (Wording.failed_prefix ++ errorMessage)))).

End WithEngine.

End ApiGenerate.

(** ** The browser as the input form sees it *)

Record File : Type := {
  size : Z;
  file_type : jsstring
}.

(** A [data:] URL, [data:<mediatype>;base64,<payload>], as [FileReader]
    and the canvas produce them.  Its only comma is the one before the
    payload, so [url.split(',')[1]] is the payload. *)
Record DataURL : Type := {
  mediatype : jsstring;
  payload : jsstring
}.

Record DataTransferItem : Type := {
  kind : jsstring;
  item_type : jsstring;
  getAsFile : option File
}.

(** What is drawn and how large the canvas is when it is encoded. *)
Record Canvas : Type := {
  source : DataURL;
  drawn_width : Q;
  drawn_height : Q;
  canvas_width : Z;
  canvas_height : Z
}.

(** The services of the browser: reading a file ([None]: the read fails),
    decoding an image to its width and height ([None]: it does not load),
    whether a 2d context can be had, and JPEG encoding at a quality. *)
Record Browser : Type := {
  readAsDataURL : File -> option DataURL;
  loadImage : DataURL -> option (N * N);
  has_2d_context : bool;
  toDataURL : Canvas -> float -> DataURL
}.

(** How a promise ends, if it does. *)
Inductive Settlement (A : Type) : Type :=
| Resolved (a : A)
| Rejected (e : Thrown)
| Pending.
Arguments Resolved {A} a.
Arguments Rejected {A} e.
Arguments Pending {A}.

(** The state the form acts on: the media held by the application, the
    alerts shown, and, for counting, the files [processFile] was called
    with and the calls of [setUploadedMedia]. *)
Record Form : Type := {
  uploadedMedia_state : option UploadedMedia;
  alerts : list jsstring;
  processed : list File;
  updates : list (option UploadedMedia)
}.

Definition alert (msg : jsstring) (st : Form) : Form :=
  {| uploadedMedia_state := uploadedMedia_state st;
     alerts := alerts st ++ [msg];
     processed := processed st;
     updates := updates st |}.

Definition setUploadedMedia (m : option UploadedMedia) (st : Form) : Form :=
  {| uploadedMedia_state := m;
     alerts := alerts st;
     processed := processed st;
     updates := updates st ++ [m] |}.

Definition enter_processFile (f : File) (st : Form) : Form :=
  {| uploadedMedia_state := uploadedMedia_state st;
     alerts := alerts st;
     processed := processed st ++ [f];
     updates := updates st |}.

(** The paste listener, identical in both variants of the form, over the
    variant's [processFile].  The result says whether the default action
    was prevented. *)
Section Paste.

Variable processFile : option File -> Form -> Form.

Fixpoint paste_loop (items : list DataTransferItem) (st : Form) : Form * bool :=
  match items with
  | [] => (st, false)
  | item :: rest =>
      if str_eqb (kind item) (lit "file") && startsWith (item_type item) (lit "image/")
      then match getAsFile item with
           | Some file => (processFile (Some file) st, true)
           | None => paste_loop rest st
           end
      else paste_loop rest st
  end.

Definition handlePaste (isLoading : bool) (clipboardData : option (list DataTransferItem))
  (st : Form) : Form * bool :=
  if isLoading then (st, false)
  else match clipboardData with
       | None => (st, false)
       | Some items => paste_loop items st
       end.

End Paste.

(** ** [components/InputSection.tsx]: the form with image compression *)

Module InputSection.

Definition MAX_DIMENSION : Z := 2048.
Definition TARGET_SIZE_MB : float := 10%float.

(** The width and height the image is drawn at.  The source computes them
    in binary64; they are kept exact here: one division of two integers
    and a scaling by a power of two. *)
Definition scaled_size (w h : N) : Q * Q :=
  let width := inject_Z (Z.of_N w) in
  let height := inject_Z (Z.of_N h) in
  if ((MAX_DIMENSION <? Z.of_N w) || (MAX_DIMENSION <? Z.of_N h))%Z then
    if (Z.of_N h <? Z.of_N w)%Z
    then (inject_Z MAX_DIMENSION, ((height / width) * inject_Z MAX_DIMENSION)%Q)
    else (((width / height) * inject_Z MAX_DIMENSION)%Q, inject_Z MAX_DIMENSION)
  else (width, height).

(** [canvas.width = width]: the attribute is an unsigned integer, the
    fraction is dropped. *)
Definition canvas_size (w h : N) : Z * Z :=
  let '(width, height) := scaled_size w h in (Qfloor width, Qfloor height).

(** [base64.length > TARGET_SIZE_MB * 1024 * 1024 * 1.37] *)
Definition too_large (base64 : jsstring) : bool :=
  PrimFloat.ltb (TARGET_SIZE_MB * 1024 * 1024 * 1.37)%float
    (PrimFloat.of_uint63 (Uint63.of_Z (Z.of_nat (List.length base64)))).

(** The loop that lowers the quality.  [encode q] is
    [canvas.toDataURL('image/jpeg', q).split(',')[1]].  The result is the
    quality and encoding the loop ends with and the qualities it asked an
    encoding for; [None] when [fuel] iterations were not enough. *)
Fixpoint reduce_quality (fuel : nat) (encode : float -> jsstring)
  (quality : float) (base64 : jsstring) (asked : list float)
  : option (float * jsstring * list float) :=
  if too_large base64 && PrimFloat.ltb 0.5 quality then
    match fuel with
    | O => None
    | S fuel' =>
        let quality := (quality - 0.1)%float in
        reduce_quality fuel' encode quality (encode quality) (asked ++ [quality])
    end
  else Some (quality, base64, asked).

(** All of the loop, from [let quality = 0.9]. *)
Definition compression_loop (fuel : nat) (encode : float -> jsstring)
  : option (float * jsstring * list float) :=
  let quality := 0.9%float in
  reduce_quality fuel encode quality (encode quality) [quality].

(** Iterations that always suffice (see [compression_loop_terminates]). *)
Definition enough_fuel : nat := 5.

Section WithBrowser.

Variable B : Browser.

Definition compressImage (file : File) : Settlement UploadedMedia :=
  match readAsDataURL B file with
  | None => Rejected (ErrorObj (lit "Failed to read file"))
  | Some src =>
      match loadImage B src with
      | None => Rejected (ErrorObj (lit "Failed to load image"))
      | Some (w, h) =>
          if negb (has_2d_context B)
          then Rejected (ErrorObj (lit "Could not get canvas context"))
          else
            let '(width, height) := scaled_size w h in
            let canvas :=
              {| source := src; drawn_width := width; drawn_height := height;
                 canvas_width := fst (canvas_size w h);
                 canvas_height := snd (canvas_size w h) |} in
            match compression_loop enough_fuel
                    (fun q => payload (toDataURL B canvas q)) with
            | Some (_, base64, _) =>
                Resolved {| base64 := base64; mimeType := lit "image/jpeg" |}
            | None => Pending
            end
      end
  end.

Definition acceptedTypes : list jsstring :=
  [lit "image/png"; lit "image/jpeg"; lit "image/webp"; lit "image/heic";
   lit "image/heif"; lit "video/mp4"; lit "video/webm"].

Definition processFile (file : option File) (st : Form) : Form :=
  match file with
  | None => st
  | Some file =>
      let st := enter_processFile file st in
      if (100 * 1024 * 1024 <? size file)%Z then
        alert (lit "File is too large. Please select a file under 100MB.") st
      else if negb (includes acceptedTypes (file_type file)) then
        alert (lit "Unsupported file type: " ++ file_type file
               ++ lit ". Please use PNG, JPG, WEBP, HEIC, MP4, or WEBM.") st
      else if startsWith (file_type file) (lit "image/") then
        match compressImage file with
        | Resolved compressed => setUploadedMedia (Some compressed) st
        | Rejected _ => alert (lit "Failed to process image. Please try a different file.") st
        | Pending => st
        end
      else
        match readAsDataURL B file with
        | Some base64String =>
            setUploadedMedia
              (Some {| base64 := payload base64String; mimeType := file_type file |}) st
        | None => st
        end
  end.

Definition handleMediaUpload (files : list File) (st : Form) : Form :=
  processFile (nth_error files 0) st.

Definition removeMedia (st : Form) : Form := setUploadedMedia None st.

Definition handlePaste := handlePaste processFile.

End WithBrowser.

End InputSection.

(** ** The earlier variant of the form, without compression *)

Module InputSectionPlain.

Section WithBrowser.

Variable B : Browser.

Definition acceptedTypes : list jsstring :=
  [lit "image/png"; lit "image/jpeg"; lit "image/webp"; lit "video/mp4";
   lit "video/webm"].

Definition processFile (file : option File) (st : Form) : Form :=
  match file with
  | None => st
  | Some file =>
      let st := enter_processFile file st in
      if (20 * 1024 * 1024 <? size file)%Z then
        alert (lit "File is too large. Please select a file under 20MB.") st
      else if negb (includes acceptedTypes (file_type file)) then
        alert (lit "Unsupported file type: " ++ file_type file
               ++ lit ". Please use PNG, JPG, WEBP, MP4, or WEBM.") st
      else
        match readAsDataURL B file with
        | Some base64String =>
            setUploadedMedia
              (Some {| base64 := payload base64String; mimeType := file_type file |}) st
        | None => st
        end
  end.

Definition handleMediaUpload (files : list File) (st : Form) : Form :=
  processFile (nth_error files 0) st.

Definition removeMedia (st : Form) : Form := setUploadedMedia None st.

Definition handlePaste := handlePaste processFile.

End WithBrowser.

End InputSectionPlain.

(** ** [components/InputSection.tsx]: drag and drop, voice capture

    The handlers of the drop zone and of the microphone button are the
    same in both variants of the form. *)

Section Drop.

Variable processFile : option File -> Form -> Form.

(** The result is the form and the value [isDragging] is set to. *)
Definition handleDrop (isLoading : bool) (files : option (list File)) (st : Form)
  : Form * bool :=
  if isLoading then (st, false)
  else match files with
       | Some (file :: _) => (processFile (Some file) st, false)
       | _ => (st, false)
       end.

End Drop.

(** [isDragging] after each of the other drag events. *)
Definition handleDragEnter (isLoading isDragging : bool) : bool :=
  if negb isLoading then true else isDragging.

Definition handleDragLeave (isDragging : bool) : bool := false.

Definition handleDragOver (isDragging : bool) : bool := isDragging.

Module Voice.

(** What the page finds when the button is pressed: [navigator.onLine],
    whether [window.SpeechRecognition || window.webkitSpeechRecognition]
    is there, and whether the constructor and [start()] return rather
    than throw. *)
Record Navigator : Type := {
  onLine : bool;
  SpeechRecognitionImpl : bool;
  constructs : bool;
  starts : bool
}.

(** A call on a recognition object; the objects are numbered in the order
    of their creation. *)
Inductive RecognitionCall : Type :=
| call_start (recognition : nat)
| call_stop (recognition : nat).

(** The state of the microphone button: the component's [isRecording]
    and [speechError], [recognitionRef.current], and, for counting, the
    number of recognition objects created and the calls made on them. *)
Record Recorder : Type := {
  isRecording : bool;
  speechError : option jsstring;
  recognitionRef : option nat;
  created : nat;
  calls : list RecognitionCall
}.

Definition setIsRecording (b : bool) (st : Recorder) : Recorder :=
  {| isRecording := b; speechError := speechError st;
     recognitionRef := recognitionRef st; created := created st; calls := calls st |}.

Definition setSpeechError (e : option jsstring) (st : Recorder) : Recorder :=
  {| isRecording := isRecording st; speechError := e;
     recognitionRef := recognitionRef st; created := created st; calls := calls st |}.

Definition call (c : RecognitionCall) (st : Recorder) : Recorder :=
  {| isRecording := isRecording st; speechError := speechError st;
     recognitionRef := recognitionRef st; created := created st;
     calls := calls st ++ [c] |}.

(** [recognitionRef.current = new SpeechRecognitionImpl()] *)
Definition create (st : Recorder) : Recorder :=
  {| isRecording := isRecording st; speechError := speechError st;
     recognitionRef := Some (created st); created := S (created st);
     calls := calls st |}.

Definition could_not_start (st : Recorder) : Recorder :=
  setIsRecording false
    (setSpeechError
       (Some (lit "Could not start microphone. It may be in use by another app.")) st).

Definition handleToggleRecording (nav : Navigator) (st : Recorder) : Recorder :=
  if isRecording st then
    match recognitionRef st with
    | Some current => call (call_stop current) st
    | None => st
    end
  else
    let st := setSpeechError None st in
    if negb (onLine nav) then
      setSpeechError
        (Some (lit "You appear to be offline. Please check your internet connection.")) st
    else if negb (SpeechRecognitionImpl nav) then
      setSpeechError (Some (lit "Speech recognition is not supported in your browser.")) st
    else if negb (constructs nav) then could_not_start st
    else
      let recognition := created st in
      let st := create st in
      if starts nav then call (call_start recognition) st
      else could_not_start st.

(** The handlers installed on a recognition object. *)

Definition onstart (st : Recorder) : Recorder := setIsRecording true st.

(** The updater passed to [setIdea] by [onresult]:
    [prevIdea ? `${prevIdea.trim()} ${transcript}`.trim() : transcript] *)
Definition append_transcript (transcript prevIdea : jsstring) : jsstring :=
  match prevIdea with
  | [] => transcript
  | _ => trim (trim prevIdea ++ lit " " ++ transcript)
  end.

(** The result is the recorder and the new text of the idea. *)
Definition onresult (transcript : jsstring) (st : Recorder) (idea : jsstring)
  : Recorder * jsstring :=
  (setSpeechError None st, append_transcript transcript idea).

Definition onerror (error : jsstring) (st : Recorder) : Recorder :=
  let message :=
    if str_eqb error (lit "network") then
      lit "Network error. Please check your connection and try again."
    else if str_eqb error (lit "no-speech") then
      lit "No speech was detected. Please try again."
    else if str_eqb error (lit "not-allowed") || str_eqb error (lit "service-not-allowed")
    then lit "Microphone access denied. Please allow access in your browser settings."
    else lit "An error occurred during speech recognition. Please try again." in
  setSpeechError (Some message) st.

Definition onend (st : Recorder) : Recorder :=
  {| isRecording := false; speechError := speechError st;
     recognitionRef := None; created := created st; calls := calls st |}.

(** [handleIdeaChange]: the recorder and the new text of the idea. *)
Definition handleIdeaChange (value : jsstring) (st : Recorder) : Recorder * jsstring :=
  (setSpeechError None st, value).

End Voice.

(** ** [services/apiService.ts]: the client of the proxy *)

Module ApiService.

(** The second argument of [fetch]; the body is given by the value that
    [JSON.stringify] is applied to, [{ idea, uploadedMedia }]. *)
Record RequestInit : Type := {
  init_method : jsstring;
  init_headers : list (jsstring * jsstring);
  init_body : Body
}.

(** A response of [fetch], by what the code reads from it: [status] and
    the outcome of [json()]. *)
Record FetchResponse : Type := {
  response_status : Z;
  response_json : Exc JSValue
}.

(** [response.ok]: the status is in the range 200-299. *)
Definition response_ok (response : FetchResponse) : bool :=
  ((200 <=? response_status response) && (response_status response <=? 299))%Z.

(** The page the client runs in: the network behind [fetch] (a throw is a
    rejected promise), the text of the [TypeError] raised when [error] is
    read from [null] or [undefined], and the conversion to a string that
    [new Error(v)] applies to a [v] that is not a string. *)
Record Page : Type := {
  fetch : jsstring -> RequestInit -> Exc FetchResponse;
  read_error_message : JSValue -> jsstring;
  ToString : JSValue -> jsstring
}.

(** [`${n}`] for an integer [n]. *)
Definition decimal (n : Z) : jsstring := lit (NilZero.string_of_int (Z.to_int n)).

Section WithPage.

Variable P : Page.
Variable W : World.

(** [process.env.API_ENDPOINT || '/api/generate'] *)
Definition API_ENDPOINT : jsstring :=
  match env W (lit "API_ENDPOINT") with
  | Some (c :: s) => c :: s
  | _ => lit "/api/generate"
  end.

(** [v.error]; [error] is no property of a string, number, boolean or
    array. *)
Definition get_error (v : JSValue) : Exc JSValue :=
  match v with
  | JUndefined | JNull => Throw (ErrorObj (read_error_message P v))
  | JObj props => Ok (lookup (lit "error") props)
  | _ => Ok JUndefined
  end.

(** The [message] of [new Error(v)], for a [v] other than [undefined]. *)
Definition message_of (v : JSValue) : jsstring :=
  match v with
  | JStr s => s
  | _ => ToString P v
  end.

Definition request (idea : jsstring) (uploadedMedia : option UploadedMedia) : RequestInit :=
  {| init_method := lit "POST";
     init_headers := [(lit "Content-Type", lit "application/json")];
     init_body := {| idea := JStr idea; uploadedMedia := uploadedMedia |} |}.

Definition generateSocialPostsViaAPI (idea : jsstring) (uploadedMedia : option UploadedMedia)
  : Exc JSValue :=
  let attempt :=
    match fetch P API_ENDPOINT (request idea uploadedMedia) with
    | Throw e => Throw e
    | Ok response =>
        if negb (response_ok response) then
          let errorData :=
            match response_json response with
            | Ok v => v
            | Throw _ => JObj [(lit "error", JStr (lit "Unknown error"))]
            end in
          match get_error errorData with
          | Throw e => Throw e
          | Ok error =>
              Throw (ErrorObj
                       (message_of
                          (or_else error
                             (JStr (lit "Server error: "
                                    ++ decimal (response_status response))))))
          end
        else response_json response
    end in
  match attempt with
  | Ok data => Ok data
  | Throw (ErrorObj message) => Throw (ErrorObj (Wording.failed_prefix ++ message))
  | Throw (NonError _) =>
      Throw (ErrorObj (lit "An unknown error occurred during content generation."))
  end.

End WithPage.

End ApiService.

(** ** [App.tsx]: the generation handler *)

Module App.

(** What [setPosts] is given: the list the direct service returns, or
    the decoded body the client of the proxy returns. *)
Inductive Posts : Type :=
| FromService (posts : list SocialPost)
| FromProxy (data : JSValue).

(** The state of the application. *)
Record State : Type := {
  idea : jsstring;
  uploadedMedia : option UploadedMedia;
  posts : option Posts;
  isLoading : bool;
  error : option jsstring
}.

Definition setPosts (p : option Posts) (st : State) : State :=
  {| idea := idea st; uploadedMedia := uploadedMedia st; posts := p;
     isLoading := isLoading st; error := error st |}.

Definition setIsLoading (b : bool) (st : State) : State :=
  {| idea := idea st; uploadedMedia := uploadedMedia st; posts := posts st;
     isLoading := b; error := error st |}.

Definition setError (e : option jsstring) (st : State) : State :=
  {| idea := idea st; uploadedMedia := uploadedMedia st; posts := posts st;
     isLoading := isLoading st; error := e |}.

Section WithPage.

Variable P : ApiService.Page.
Variable E : Engine.
Variable W : World.

(** The state after the handler has settled. *)
Definition handleGenerate (st : State) : M State :=
  match trim (idea st) with
  | [] => ret (setError (Some (lit "Please enter an idea to generate content.")) st)
  | _ =>
      let st := setPosts None (setError None (setIsLoading true st)) in
      st <- try_catch
              (API_KEY <- read_env W (lit "API_KEY") ;;
               result <-
                 match API_KEY with
                 | None =>
                     data <- lift (ApiService.generateSocialPostsViaAPI P W
                                     (idea st) (uploadedMedia st)) ;;
                     ret (FromProxy data)
                 | Some _ =>
                     posts <- GeminiService.generateSocialPosts E W
                                (idea st) (uploadedMedia st) ;;
                     ret (FromService posts)
                 end ;;
               ret (setPosts (Some result) st))
              (fun err =>
                 let errorMessage :=
                   match err with
                   | ErrorObj message => message
                   | NonError _ => lit "An unknown error occurred."
                   end in
                 ret (setError (Some errorMessage) st)) ;;
      ret (setIsLoading false st)
  end.

End WithPage.

End App.

(** * Vocabulary of the statements *)

(** A cycle starts from the module's client, if one was created before,
    and with no event yet. *)
Definition start (client : option GoogleGenAI) : Run :=
  {| ai := client; trace := [] |}.

(** The direct service can get a client: one is cached, or [API_KEY] is
    set and not empty. *)
Definition configured (W : World) (client : option GoogleGenAI) : bool :=
  match client with
  | Some _ => true
  | None => match env W (lit "API_KEY") with
            | Some (_ :: _) => true
            | _ => false
            end
  end.

(** A decoded value conforms to the response schema: it is an object
    whose required members have the declared types (other members are
    allowed). *)
Definition conforms (v : JSValue) (d : GeminiTextResponse.t) : Prop :=
  exists props iprops,
    v = JObj props
    /\ lookup (lit "linkedin") props = JStr (GeminiTextResponse.linkedin d)
    /\ lookup (lit "facebook") props = JStr (GeminiTextResponse.facebook d)
    /\ lookup (lit "twitter") props = JStr (GeminiTextResponse.twitter d)
    /\ lookup (lit "instagram") props = JObj iprops
    /\ lookup (lit "caption") iprops
       = JStr (GeminiTextResponse.caption (GeminiTextResponse.instagram d))
    /\ lookup (lit "hashtags") iprops
       = JArr (map JStr (GeminiTextResponse.hashtags (GeminiTextResponse.instagram d)))
    /\ lookup (lit "image_prompt") iprops
       = JStr (GeminiTextResponse.image_prompt (GeminiTextResponse.instagram d)).

(** A generated image as a post carries it. *)
Definition generated_media (g : GeneratedImage) : option Media :=
  Some {| url := lit "data:image/jpeg;base64," ++ imageBytes g; type := image |}.

(** The uploaded media as a post carries it. *)
Definition uploaded_media (m : UploadedMedia) : option Media :=
  Some {| url := lit "data:" ++ mimeType m ++ lit ";base64," ++ base64 m;
          type := if startsWith (mimeType m) (lit "video") then video else image |}.

(** The posts a cycle assembles, from what the text call and the image
    calls answered: the decoded members, read as the code reads them, and
    the media of each platform. *)
Definition assembled (E : Engine) (W : World) (media : option UploadedMedia)
  (posts : list SocialPost) : Prop :=
  exists t v insta li fb tw cap tags mediaData,
    textResult W = Ok t
    /\ JSON_parse E (response_text t) = Ok v
    /\ get E v f_linkedin = Ok li
    /\ get E v f_facebook = Ok fb
    /\ get E v f_twitter = Ok tw
    /\ get E v f_instagram = Ok insta
    /\ get E insta f_caption = Ok cap
    /\ get E insta f_hashtags = Ok tags
    /\ posts =
       [ {| platform := LinkedIn; text := li; hashtags := None;
            media := nth_error mediaData 0 |};
         {| platform := Facebook; text := fb; hashtags := None;
            media := nth_error mediaData 1 |};
         {| platform := Twitter; text := tw; hashtags := None;
            media := nth_error mediaData 2 |};
         {| platform := Instagram; text := cap; hashtags := Some tags;
            media := nth_error mediaData 3 |} ]
    /\ match media with
       | Some m => map Some mediaData = repeat (uploaded_media m) 4
       | None =>
           exists urls,
             mediaData = map (fun u => {| url := u; type := image |}) urls
             /\ Forall2 (fun p u => exists g more,
                           p = Ok {| generatedImages := Some (g :: more) |}
                           /\ u = lit "data:image/jpeg;base64," ++ imageBytes g)
                  [imageResult W 0; imageResult W 1; imageResult W 2; imageResult W 3]
                  urls
       end.

Definition is_image_call (ev : Event) : bool :=
  match ev with CallGenerateImages _ _ => true | _ => false end.

(** A computation that issues no image-generation request: if the events
    so far have none, neither have the events after it. *)
Definition quiet {A} (m : M A) : Prop :=
  forall r,
    (forall ev, In ev (trace r) -> is_image_call ev = false) ->
    forall ev, In ev (trace (snd (m r))) -> is_image_call ev = false.


(** The proxy has its key: [GEMINI_API_KEY] is set and not empty. *)
Definition server_configured (W : World) : bool :=
  match env W (lit "GEMINI_API_KEY") with
  | Some (_ :: _) => true
  | _ => false
  end.

(** An image result without an image. *)
Definition no_images (x : Exc GenerateImagesResponse) : Prop :=
  x = Ok {| generatedImages := None |} \/ x = Ok {| generatedImages := Some [] |}.

(** The ideas the proxy refuses: a value that is no string, or a string
    of white space only (the empty one included). *)
Definition blank_idea (v : JSValue) : Prop :=
  match v with
  | JStr s => forallb is_white_space s = true
  | _ => True
  end.

(** The items a paste looks for. *)
Definition image_item (item : DataTransferItem) : bool :=
  str_eqb (kind item) (lit "file") && startsWith (item_type item) (lit "image/").

(** An item the loop stops at: an image item that yields a file. *)
Definition yields_image (item : DataTransferItem) : bool :=
  image_item item && match getAsFile item with Some _ => true | None => false end.

(** What a rejection leaves behind: one more alert, the media and the
    calls of [setUploadedMedia] as before. *)
Definition rejected (st st' : Form) : Prop :=
  uploadedMedia_state st' = uploadedMedia_state st
  /\ updates st' = updates st
  /\ exists msg, alerts st' = alerts st ++ [msg].

(** Sample data for the form. *)
Module FormSamples.

Definition empty_form : Form :=
  {| uploadedMedia_state := None; alerts := []; processed := []; updates := [] |}.

Definition png : File := {| size := 1000; file_type := lit "image/png" |}.
Definition gif : File := {| size := 1000; file_type := lit "image/gif" |}.
Definition huge_png : File := {| size := 100 * 1024 * 1024 + 1; file_type := lit "image/png" |}.
Definition mid_png : File := {| size := 20 * 1024 * 1024 + 1; file_type := lit "image/png" |}.

Definition item_of (f : File) : DataTransferItem :=
  {| kind := lit "file"; item_type := file_type f; getAsFile := Some f |}.

Definition text_item : DataTransferItem :=
  {| kind := lit "string"; item_type := lit "text/plain"; getAsFile := None |}.

(** A browser where every read, decoding and encoding succeeds. *)
Definition plain_browser : Browser :=
  {| readAsDataURL := fun f => Some {| mediatype := file_type f; payload := lit "AAAA" |};
     loadImage := fun _ => Some (640%N, 480%N);
     has_2d_context := true;
     toDataURL := fun _ _ => {| mediatype := lit "image/jpeg"; payload := lit "BBBB" |} |}.

End FormSamples.

(** An encoder whose output is always above the target: 14365492
    characters, whatever the quality. *)
Definition oversized_encoder (q : float) : jsstring :=
  repeat 65%N (N.to_nat 14365492).

(** The qualities binary64 arithmetic reaches from 0.9 in steps of 0.1. *)
Module Quality.
Definition q0 : float := 0.9%float.
Definition q1 : float := 0.8%float.
Definition q2 : float := 0.70000000000000007%float.
Definition q3 : float := 0.60000000000000009%float.
Definition q4 : float := 0.50000000000000011%float.
Definition q5 : float := 0.40000000000000013%float.
Definition floor : float := 0.5%float.
End Quality.

(** Sample data for the generation cycle. *)
Module Samples.

Definition quoted (s : string) : jsstring := dq ++ lit s ++ dq.

(** [{"linkedin":"L","facebook":"F","twitter":"T","instagram":{"caption":"C","hashtags":["pizza","natick"],"image_prompt":"A pizza"}}] *)
Definition full_text : jsstring :=
  lit "{" ++ quoted "linkedin" ++ lit ":" ++ quoted "L" ++ lit ","
  ++ quoted "facebook" ++ lit ":" ++ quoted "F" ++ lit ","
  ++ quoted "twitter" ++ lit ":" ++ quoted "T" ++ lit ","
  ++ quoted "instagram" ++ lit ":{" ++ quoted "caption" ++ lit ":" ++ quoted "C" ++ lit ","
  ++ quoted "hashtags" ++ lit ":[" ++ quoted "pizza" ++ lit "," ++ quoted "natick" ++ lit "],"
  ++ quoted "image_prompt" ++ lit ":" ++ quoted "A pizza" ++ lit "}}".

Definition full_value : JSValue :=
  JObj [ (lit "linkedin", JStr (lit "L"));
         (lit "facebook", JStr (lit "F"));
         (lit "twitter", JStr (lit "T"));
         (lit "instagram",
           JObj [ (lit "caption", JStr (lit "C"));
                  (lit "hashtags", JArr [JStr (lit "pizza"); JStr (lit "natick")]);
                  (lit "image_prompt", JStr (lit "A pizza")) ]) ].

Definition full_response : GeminiTextResponse.t :=
  {| GeminiTextResponse.linkedin := lit "L";
     GeminiTextResponse.facebook := lit "F";
     GeminiTextResponse.twitter := lit "T";
     GeminiTextResponse.instagram :=
       {| GeminiTextResponse.caption := lit "C";
          GeminiTextResponse.hashtags := [lit "pizza"; lit "natick"];
          GeminiTextResponse.image_prompt := lit "A pizza" |} |}.

(** [{"facebook":"F","twitter":"T","instagram":{"caption":"C"}}]: valid
    JSON without [linkedin], [hashtags] and [image_prompt]. *)
Definition partial_text : jsstring :=
  lit "{" ++ quoted "facebook" ++ lit ":" ++ quoted "F" ++ lit ","
  ++ quoted "twitter" ++ lit ":" ++ quoted "T" ++ lit ","
  ++ quoted "instagram" ++ lit ":{" ++ quoted "caption" ++ lit ":" ++ quoted "C" ++ lit "}}".

Definition partial_value : JSValue :=
  JObj [ (lit "facebook", JStr (lit "F"));
         (lit "twitter", JStr (lit "T"));
         (lit "instagram", JObj [ (lit "caption", JStr (lit "C")) ]) ].

(** The decoder on the texts of the samples; any other text is taken as
    malformed. *)
Definition decode (s : jsstring) : Exc JSValue :=
  if str_eqb s full_text then Ok full_value
  else if str_eqb s partial_text then Ok partial_value
  else if str_eqb s (lit "null") then Ok JNull
  else Throw (ErrorObj (lit "Unexpected token")).

Definition engine : Engine :=
  {| JSON_parse := decode;
     type_error_message := fun v f =>
       lit "Cannot read properties of "
       ++ match v with JNull => lit "null" | _ => lit "undefined" end
       ++ lit " (reading '" ++ field_name f ++ lit "')";
     destructure_error_message :=
       lit "Cannot destructure property 'idea' of 'req.body' as it is undefined." |}.

Definition a_picture (bytes : string) : Exc GenerateImagesResponse :=
  Ok {| generatedImages := Some [ {| imageBytes := lit bytes |} ] |}.

Definition pictures (i : nat) : Exc GenerateImagesResponse :=
  match i with
  | 0%nat => a_picture "AAAA"
  | 1%nat => a_picture "BBBB"
  | 2%nat => a_picture "CCCC"
  | _ => a_picture "DDDD"
  end.

(** Both keys are set; the text call answers [text], the image calls
    answer [images]. *)
Definition world (text : jsstring) (images : nat -> Exc GenerateImagesResponse) : World :=
  {| env := fun name =>
       if str_eqb name (lit "API_KEY") then Some (lit "local-key")
       else if str_eqb name (lit "GEMINI_API_KEY") then Some (lit "server-key")
       else None;
     textResult := Ok {| response_text := text |};
     imageResult := images |}.

Definition friday : jsstring := lit "Friday pizza special".

Definition photo : UploadedMedia :=
  {| base64 := lit "QUJD"; mimeType := lit "image/png" |}.

Definition clip : UploadedMedia :=
  {| base64 := lit "QUJD"; mimeType := lit "video/mp4" |}.

Definition post (body : Body) : Request :=
  {| method := lit "POST"; body := Some body |}.

End Samples.

(** ** Comparing the two implementations *)

(** A text without its space characters. *)
Definition squeeze (s : jsstring) : jsstring :=
  filter (fun c => negb (N.eqb c 32)) s.

Definition text_requests (tr : list Event) : list GenerateContentParameters :=
  flat_map (fun ev => match ev with CallGenerateContent _ q => [q] | _ => [] end) tr.

Definition image_requests (tr : list Event) : list GenerateImagesParameters :=
  flat_map (fun ev => match ev with CallGenerateImages _ q => [q] | _ => [] end) tr.

(** Two parts of a text request that differ at most in the spaces of the
    prompt. *)
Definition similar_part (a b : Part) : Prop :=
  match a, b with
  | TextPart x, TextPart y => squeeze x = squeeze y
  | InlineData m d, InlineData m' d' => m = m' /\ d = d'
  | _, _ => False
  end.

Definition similar_text_request (a b : GenerateContentParameters) : Prop :=
  gc_model a = gc_model b
  /\ Forall2 similar_part (gc_parts a) (gc_parts b)
  /\ gc_responseMimeType a = gc_responseMimeType b
  /\ gc_responseSchema a = gc_responseSchema b.

(** The proxy's request for a cycle. *)
Definition proxy_request (idea : jsstring) (media : option UploadedMedia) : Request :=
  {| method := lit "POST";
     body := Some {| idea := JStr idea; uploadedMedia := media |} |}.

(** The specification's sentence on the two implementations, as it is
    worded: for the same idea, media and provider answers, with a key on
    each side, the same requests go out (keys apart) and the same posts
    come back. *)
Definition same_generation_logic : Prop :=
  forall (E : Engine) (W : World) (idea : jsstring) (media : option UploadedMedia),
    configured W None = true ->
    server_configured W = true ->
    let d := GeminiService.generateSocialPosts E W idea media (start None) in
    let p := ApiGenerate.handler E W (proxy_request idea media) (start None) in
    text_requests (trace (snd d)) = text_requests (trace (snd p))
    /\ image_requests (trace (snd d)) = image_requests (trace (snd p))
    /\ forall posts,
         fst d = Ok posts <-> fst p = Ok (ApiGenerate.respond 200 (JsonPosts posts)).

(** An image request as both implementations make it, for a prompt and
    an aspect ratio: one JPEG image from the model
    [imagen-4.0-generate-001]. *)
Definition image_request_of (prompt : JSValue) (ratio : jsstring)
  : GenerateImagesParameters :=
  {| gi_model := lit "imagen-4.0-generate-001";
     gi_prompt := prompt;
     gi_numberOfImages := 1;
     gi_outputMimeType := lit "image/jpeg";
     gi_aspectRatio := ratio |}.

(** The two implementations agree on a cycle, given how each ended and
    what each left in its trace: the text requests are alike; either no
    side asks for an image, or both ask for four images, with the same
    prompt, model, count and output type, in the order LinkedIn,
    Facebook, Twitter, Instagram, at the ratios 1:1, 16:9 and 1:1 for the
    last three ([linkedin] and [linkedin'] are the ratios each side asks
    the LinkedIn image at); the posts returned are the posts sent with
    status 200, and a throw on one side is a status 500 on the other. *)
Definition agree (d : Exc (list SocialPost) * Run) (p : Exc Response * Run) : Prop :=
  Forall2 similar_text_request
    (text_requests (trace (snd d))) (text_requests (trace (snd p)))
  /\ ((image_requests (trace (snd d)) = [] /\ image_requests (trace (snd p)) = [])
      \/ (exists prompt linkedin linkedin',
            image_requests (trace (snd d))
            = [ image_request_of prompt linkedin;
                image_request_of prompt (lit "1:1");
                image_request_of prompt (lit "16:9");
                image_request_of prompt (lit "1:1") ]
            /\ image_requests (trace (snd p))
               = [ image_request_of prompt linkedin';
                   image_request_of prompt (lit "1:1");
                   image_request_of prompt (lit "16:9");
                   image_request_of prompt (lit "1:1") ]))
  /\ (forall posts,
        fst d = Ok posts <-> fst p = Ok (ApiGenerate.respond 200 (JsonPosts posts)))
  /\ ((exists e, fst d = Throw e)
      <-> (exists message, fst p = Ok (ApiGenerate.respond 500 (JsonError message)))).

(** The image prompt of a cycle, when the cycle gets as far as asking for
    images: there is no upload, the text call answered, its text was
    decoded and [instagram.image_prompt] could be read. *)
Definition image_prompt_of (E : Engine) (W : World) (idea : jsstring)
  (media : option UploadedMedia) : option JSValue :=
  match media with
  | Some _ => None
  | None =>
      match textResult W with
      | Throw _ => None
      | Ok t =>
          match JSON_parse E (response_text t) with
          | Throw _ => None
          | Ok v =>
              match get E v f_instagram with
              | Throw _ => None
              | Ok insta =>
                  match get E insta f_image_prompt with
                  | Throw _ => None
                  | Ok p => Some (or_else p (JStr (Wording.fallback_image_prompt idea)))
                  end
              end
          end
      end
  end.

(** The key the direct service calls the provider with. *)
Definition direct_key (W : World) (client : option GoogleGenAI) : jsstring :=
  match client with
  | Some c => apiKey c
  | None => match env W (lit "API_KEY") with Some k => k | None => [] end
  end.

(** The key the proxy calls the provider with. *)
Definition server_key (W : World) : jsstring :=
  match env W (lit "GEMINI_API_KEY") with Some k => k | None => [] end.

(** A computation that leaves the run as it found it. *)
Definition stateless {A} (m : M A) : Prop := forall r, snd (m r) = r.

(** The parts of a text request: the upload, if any, before the prompt. *)
Definition parts_of (prompt : jsstring) (media : option UploadedMedia) : list Part :=
  match media with
  | Some m => [InlineData (mimeType m) (base64 m); TextPart prompt]
  | None => [TextPart prompt]
  end.

(** The text request of a cycle, for a given prompt. *)
Definition text_request (prompt : jsstring) (media : option UploadedMedia)
  : GenerateContentParameters :=
  {| gc_model := lit "gemini-2.5-pro";
     gc_parts := parts_of prompt media;
     gc_responseMimeType := lit "application/json";
     gc_responseSchema := Wording.responseSchema |}.

(** The downscaling in binary64, operation by operation as the source
    performs it, and the conversion of a non-negative float to the
    integer a canvas attribute takes.  The properties are stated on the
    exact model; the two are compared on examples. *)
Module Binary64.

Definition of_Z (z : Z) : float := PrimFloat.of_uint63 (Uint63.of_Z z).

Definition scaled_size (w h : Z) : float * float :=
  let width := of_Z w in
  let height := of_Z h in
  if (PrimFloat.ltb 2048 width || PrimFloat.ltb 2048 height)%bool then
    if PrimFloat.ltb height width
    then (2048%float, (height / width * 2048)%float)
    else ((width / height * 2048)%float, 2048%float)
  else (width, height).

Definition truncate (x : float) : Z :=
  match Prim2SF x with
  | S754_finite false m e =>
      if (0 <=? e)%Z then (Zpos m * 2 ^ e)%Z else (Zpos m / 2 ^ (- e))%Z
  | _ => 0%Z
  end.

Definition canvas_size (w h : Z) : Z * Z :=
  let '(width, height) := scaled_size w h in (truncate width, truncate height).

End Binary64.

(** ** Vocabulary for the rest of the application *)

(** A list of posts as a cycle hands it over: one post per platform in
    the order LinkedIn, Facebook, Twitter, Instagram; hashtags on the
    Instagram post and on no other; every post with media, which is the
    upload when there is one and a generated JPEG image otherwise. *)
Definition well_formed (upload : option UploadedMedia) (posts : list SocialPost) : Prop :=
  map platform posts = [LinkedIn; Facebook; Twitter; Instagram]
  /\ map (fun p => match hashtags p with Some _ => true | None => false end) posts
     = [false; false; false; true]
  /\ Forall (fun p =>
               exists m,
                 media p = Some m
                 /\ match upload with
                    | Some u => Some m = uploaded_media u
                    | None =>
                        type m = image
                        /\ startsWith (url m) (lit "data:image/jpeg;base64,") = true
                    end)
            posts.

(** A provider call. *)
Definition is_provider_call (ev : Event) : bool :=
  match ev with
  | ReadEnv _ => false
  | CallGenerateContent _ _ | CallGenerateImages _ _ => true
  end.

(** The key an event shows to the provider, if it is a provider call. *)
Definition key_of (ev : Event) : option jsstring :=
  match ev with
  | ReadEnv _ => None
  | CallGenerateContent k _ | CallGenerateImages k _ => Some k
  end.

(** The proxy's answer as [fetch] hands it to the page: the status, and,
    for an answer made with [res.status(s).json({ error })], a body that
    [response.json()] decodes to an object whose [error] is that text. *)
Definition delivered (resp : Response) (got : ApiService.FetchResponse) : Prop :=
  ApiService.response_status got = status resp
  /\ forall message,
       content resp = JsonError message ->
       ApiService.response_json got = Ok (JObj [(lit "error", JStr message)]).

(** The state the generation handler ends in, by the outcome of the
    service it called. *)
Definition settled (st : App.State) (outcome : Exc App.Posts) : App.State :=
  {| App.idea := App.idea st;
     App.uploadedMedia := App.uploadedMedia st;
     App.posts := match outcome with Ok p => Some p | Throw _ => None end;
     App.isLoading := false;
     App.error := match outcome with
                  | Ok _ => None
                  | Throw (ErrorObj message) => Some message
                  | Throw (NonError _) => Some (lit "An unknown error occurred.")
                  end |}.

(** The outcome of the client of the proxy, as [setPosts] takes it. *)
Definition via_proxy (x : Exc JSValue) : Exc App.Posts :=
  match x with Ok data => Ok (App.FromProxy data) | Throw e => Throw e end.

(** The outcome of the direct service, as [setPosts] takes it. *)
Definition via_service (x : Exc (list SocialPost)) : Exc App.Posts :=
  match x with Ok posts => Ok (App.FromService posts) | Throw e => Throw e end.

(** What the user can do to the media of the form: pick files, paste,
    drop, or remove the media held. *)
Inductive FormAction : Type :=
| Pick (files : list File)
| Paste (isLoading : bool) (clipboardData : option (list DataTransferItem))
| Drop (isLoading : bool) (files : option (list File))
| Remove.

(** The form after an action, over a variant's [processFile]. *)
Definition act (processFile : option File -> Form -> Form) (a : FormAction) (st : Form)
  : Form :=
  match a with
  | Pick files => processFile (nth_error files 0) st
  | Paste isLoading clipboardData => fst (handlePaste processFile isLoading clipboardData st)
  | Drop isLoading files => fst (handleDrop processFile isLoading files st)
  | Remove => setUploadedMedia None st
  end.

(** The media held, if any, and every media [setUploadedMedia] was
    given, have a type of the list. *)
Definition holds_only (types : list jsstring) (st : Form) : Prop :=
  (forall m, uploadedMedia_state st = Some m -> In (mimeType m) types)
  /\ (forall m, In (Some m) (updates st) -> In (mimeType m) types).

(** The environment variable an event reads, if it reads one. *)
Definition variable_of (ev : Event) : option jsstring :=
  match ev with
  | ReadEnv name => Some name
  | _ => None
  end.

(** * Properties *)

(** ** Strings *)

Lemma str_eqb_refl (s : jsstring) : str_eqb s s = true.
Proof.
  induction s as [|c s IH]; simpl; [reflexivity|].
  now rewrite N.eqb_refl, IH.
Qed.

Lemma str_eqb_eq (a b : jsstring) : str_eqb a b = true <-> a = b.
Proof.
  split; [|intros ->; apply str_eqb_refl].
  revert b; induction a as [|x a IH]; destruct b as [|y b]; simpl; try discriminate; auto.
  intros H. apply andb_true_iff in H as [Hx Hr].
  apply N.eqb_eq in Hx. f_equal; auto.
Qed.

Lemma trimStart_blank (s : jsstring) :
  forallb is_white_space s = true -> trimStart s = [].
Proof.
  induction s as [|c s IH]; simpl; [reflexivity|].
  intros H. apply andb_true_iff in H as [Hc Hs]. now rewrite Hc, IH.
Qed.

Lemma trim_blank (s : jsstring) :
  forallb is_white_space s = true -> trim s = [].
Proof.
  intros H. unfold trim, trimEnd. now rewrite (trimStart_blank s H).
Qed.

(** ** Running a generation cycle *)

#[local] Arguments lit : simpl never.

(** What a computation that ends well went through. *)
Lemma bind_Ok_inv {A B} (m : M A) (k : A -> M B) (r r' : Run) (b : B) :
  bind m k r = (Ok b, r') ->
  exists a r1, m r = (Ok a, r1) /\ k a r1 = (Ok b, r').
Proof.
  unfold bind. destruct (m r) as [[a|e] r1]; intros H; [eauto|discriminate].
Qed.

Lemma lift_Ok_inv {A} (x : Exc A) (r r' : Run) (a : A) :
  lift x r = (Ok a, r') -> x = Ok a /\ r' = r.
Proof. unfold lift. intros H. injection H as -> ->. auto. Qed.

Lemma ret_Ok_inv {A} (x a : A) (r r' : Run) :
  ret x r = (Ok a, r') -> x = a /\ r' = r.
Proof. unfold ret. intros H. injection H as -> ->. auto. Qed.

Lemma emit_Ok_inv (ev : Event) (r r' : Run) (u : unit) :
  emit ev r = (Ok u, r') -> r' = {| ai := ai r; trace := trace r ++ [ev] |}.
Proof. unfold emit. intros H. now injection H as <-. Qed.

Ltac inv_run :=
  repeat match goal with
  | H : bind _ _ _ = (Ok _, _) |- _ =>
      apply bind_Ok_inv in H; destruct H as (? & ? & ? & H)
  | H : lift _ _ = (Ok _, _) |- _ =>
      apply lift_Ok_inv in H; destruct H as [? ?]; subst
  | H : ret _ _ = (Ok _, _) |- _ =>
      apply ret_Ok_inv in H; destruct H as [? ?]; subst
  | H : emit _ _ = (Ok _, _) |- _ =>
      apply emit_Ok_inv in H; subst
  | H : throw _ _ = (Ok _, _) |- _ => discriminate H
  | H : (Ok _, _) = (Ok _, _) |- _ => injection H as ? ?; subst
  | H : (Throw _, _) = (Ok _, _) |- _ => discriminate H
  end.

(** Laws used to step through a run. *)

Lemma bind_bind {A B C} (m : M A) (f : A -> M B) (g : B -> M C) (r : Run) :
  bind (bind m f) g r = bind m (fun a => bind (f a) g) r.
Proof. unfold bind. destruct (m r) as [[a|e] r1]; reflexivity. Qed.

Lemma bind_ret_l {A B} (a : A) (k : A -> M B) (r : Run) : bind (ret a) k r = k a r.
Proof. reflexivity. Qed.

Lemma bind_emit {B} (ev : Event) (k : unit -> M B) (r : Run) :
  bind (emit ev) k r = k tt {| ai := ai r; trace := trace r ++ [ev] |}.
Proof. reflexivity. Qed.

Lemma bind_lift_Ok {A B} (a : A) (k : A -> M B) (r : Run) :
  bind (lift (Ok a)) k r = k a r.
Proof. reflexivity. Qed.

Lemma bind_lift_Throw {A B} (e : Thrown) (k : A -> M B) (r : Run) :
  bind (lift (Throw e)) k r = (Throw e, r).
Proof. reflexivity. Qed.

Lemma snd_stateless {A} (m : M A) (r : Run) : stateless m -> snd (m r) = r.
Proof. intros H. apply H. Qed.

Lemma bind_known {A B} (m : M A) (k : A -> M B) (r r1 : Run) (a : A) :
  m r = (Ok a, r1) -> bind m k r = k a r1.
Proof. unfold bind. intros ->. reflexivity. Qed.

Lemma stateless_ret {A} (a : A) : stateless (ret a).
Proof. intros r. reflexivity. Qed.

Lemma stateless_throw {A} (e : Thrown) : stateless (@throw A e).
Proof. intros r. reflexivity. Qed.

Lemma stateless_lift {A} (x : Exc A) : stateless (lift x).
Proof. intros r. reflexivity. Qed.

Lemma stateless_bind {A B} (m : M A) (k : A -> M B) :
  stateless m -> (forall a, stateless (k a)) -> stateless (bind m k).
Proof.
  intros Hm Hk r. unfold bind. specialize (Hm r).
  destruct (m r) as [[a|e] r1]; cbn [snd] in *; subst; [apply Hk|reflexivity].
Qed.

Lemma snd_try_catch {A} (m : M A) (h : Thrown -> M A) (r : Run) :
  (forall e, stateless (h e)) -> snd (try_catch m h r) = snd (m r).
Proof.
  intros Hh. unfold try_catch. destruct (m r) as [[a|e] r1]; cbn [snd]; [reflexivity|apply Hh].
Qed.

Ltac stateless_tail :=
  repeat first
    [ apply stateless_ret | apply stateless_throw | apply stateless_lift
    | apply stateless_bind; [|intros]
    | match goal with |- stateless (match ?x with _ => _ end) => destruct x end ].

(** ** What a successful cycle went through *)

(** When all promises resolve and every result yields a URL, every
    outcome was a result with a first image, and the URLs are theirs. *)
Lemma image_urls_inv (ps : list (Exc GenerateImagesResponse))
  (results : list GenerateImagesResponse) (urls : list jsstring) :
  Promise_all ps = Ok results ->
  mapE image_url results = Ok urls ->
  Forall2 (fun p u => exists g more,
             p = Ok {| generatedImages := Some (g :: more) |}
             /\ u = lit "data:image/jpeg;base64," ++ imageBytes g) ps urls.
Proof.
  unfold Promise_all. revert results urls.
  induction ps as [|p ps IH]; intros results urls Hall Hurls; simpl in Hall.
  - injection Hall as <-. simpl in Hurls. injection Hurls as <-. constructor.
  - destruct p as [res|e]; [|discriminate].
    destruct (mapE (fun p => p) ps) as [rest|e] eqn:Hrest; [|discriminate].
    injection Hall as <-. simpl in Hurls.
    destruct (image_url res) as [u|e] eqn:Hu; [|discriminate].
    destruct (mapE image_url rest) as [us|e] eqn:Hus; [|discriminate].
    injection Hurls as <-. constructor; [|now apply (IH rest)].
    unfold image_url in Hu. destruct res as [[[|g more]|]]; simpl in Hu; try discriminate.
    injection Hu as <-. eauto.
Qed.

(** The throw of the direct service is always an [Error]. *)
Lemma direct_throws_errors (E : Engine) (W : World) (idea : jsstring)
  (media : option UploadedMedia) (r : Run) :
  (exists posts, fst (GeminiService.generateSocialPosts E W idea media r) = Ok posts)
  \/ (exists message,
        fst (GeminiService.generateSocialPosts E W idea media r)
        = Throw (ErrorObj message)).
Proof.
  unfold GeminiService.generateSocialPosts, try_catch.
  match goal with |- context [match ?m r with _ => _ end] => destruct (m r) as [[a|[msg|x]] r'] end;
    simpl; eauto.
Qed.

(** What a successful direct call went through. *)
Lemma direct_ok_inv (E : Engine) (W : World) (idea : jsstring)
  (media : option UploadedMedia) (r r' : Run) (posts : list SocialPost) :
  GeminiService.generateSocialPosts E W idea media r = (Ok posts, r') ->
  assembled E W media posts.
Proof.
  unfold GeminiService.generateSocialPosts, try_catch.
  match goal with
  | |- context [match ?m r with _ => _ end] =>
      destruct (m r) as [[a|[msg|x]] r1] eqn:Hrun
  end; try discriminate.
  intros Hok. injection Hok as -> ->. cbv zeta in Hrun. unfold assembled.
  unfold GeminiService.generateContent in Hrun.
  destruct media as [m|]; cbn [mediaType_of] in Hrun; inv_run.
  - match goal with
    | Hi : get _ _ f_instagram = Ok ?a, Hj : get _ _ f_instagram = Ok ?b |- _ =>
        rewrite Hi in Hj; injection Hj as <-
    end.
    do 9 eexists. repeat (split; [eassumption|]).
    split; [reflexivity|]. reflexivity.
  - unfold indexed, Constants.PLATFORMS in *. cbn [List.length seq combine mapM] in *.
    inv_run. unfold GeminiService.generateImages in *. inv_run.
    match goal with
    | Hi : get _ _ f_instagram = Ok ?a, Hj : get _ _ f_instagram = Ok ?b |- _ =>
        rewrite Hi in Hj; injection Hj as <-
    end.
    do 9 eexists. repeat (split; [eassumption|]).
    split; [reflexivity|].
    eexists. split; [reflexivity|]. eapply image_urls_inv; eassumption.
Qed.

(** How the proxy answers a POST that has a body. *)
Lemma handler_post_cases (E : Engine) (W : World) (b : Body) (r : Run) :
  let out := fst (ApiGenerate.handler E W {| method := lit "POST"; body := Some b |} r) in
  (ApiGenerate.check_idea (idea b) = None
   /\ out = Ok (ApiGenerate.respond 400 (JsonError (lit "Idea is required"))))
  \/ (exists s, ApiGenerate.check_idea (idea b) = Some s
      /\ ((server_configured W = false
           /\ out = Ok (ApiGenerate.respond 500
                          (JsonError (lit "API key not configured on server"))))
          \/ (server_configured W = true
              /\ ((exists posts,
                     out = Ok (ApiGenerate.respond 200 (JsonPosts posts))
                     /\ assembled E W (uploadedMedia b) posts)
                  \/ (exists message,
                        out = Ok (ApiGenerate.respond 500 (JsonError message))))))).
Proof.
  unfold ApiGenerate.handler. cbn [method body].
  change (str_eqb (lit "POST") (lit "OPTIONS")) with false.
  rewrite str_eqb_refl. cbn [negb]. cbv iota.
  unfold try_catch, server_configured.
  destruct (ApiGenerate.check_idea (idea b)) as [s|] eqn:Hidea.
  2:{ left. split; [reflexivity|]. cbn. now rewrite Hidea. }
  right. exists s. split; [reflexivity|].
  match goal with
  | |- context [match ?m r with _ => _ end] =>
      destruct (m r) as [[resp|[msg|x]] r1] eqn:Hrun
  end; cbn [fst].
  2,3: unfold bind at 1 in Hrun; cbn [ret] in Hrun; rewrite Hidea in Hrun;
       unfold bind at 1 in Hrun; unfold read_env, bind at 1, emit, ret in Hrun;
       destruct (env W (lit "GEMINI_API_KEY")) as [[|k0 k]|]; try discriminate;
       right; split; [reflexivity|]; right; eexists; reflexivity.
  unfold bind at 1 in Hrun; cbn [ret] in Hrun; rewrite Hidea in Hrun.
  unfold bind at 1 in Hrun; unfold read_env, bind at 1, emit, ret in Hrun.
  destruct (env W (lit "GEMINI_API_KEY")) as [[|k0 k]|].
  1,3: injection Hrun as <- _; left; split; reflexivity.
  right. split; [reflexivity|]. left.
  cbv zeta in Hrun. unfold ApiGenerate.generateContent in Hrun.
  destruct (uploadedMedia b) as [m|]; cbn [mediaType_of] in Hrun; inv_run.
  - match goal with
    | Hi : get _ _ f_instagram = Ok ?a, Hj : get _ _ f_instagram = Ok ?b |- _ =>
        rewrite Hi in Hj; injection Hj as <-
    end.
    eexists. split; [reflexivity|].
    do 8 eexists.
    exists (repeat {| url := Wording.data_url (mimeType m) (base64 m);
                      type := if startsWith (mimeType m) (lit "video")
                              then video else image |} 4).
    repeat (split; [eassumption|]).
    split; [reflexivity|]. reflexivity.
  - unfold indexed, ApiGenerate.PLATFORMS in *. cbn [List.length seq combine mapM] in *.
    inv_run. unfold ApiGenerate.generateImages in *. inv_run.
    match goal with
    | Hi : get _ _ f_instagram = Ok ?a, Hj : get _ _ f_instagram = Ok ?b |- _ =>
        rewrite Hi in Hj; injection Hj as <-
    end.
    eexists. split; [reflexivity|].
    do 9 eexists. repeat (split; [eassumption|]).
    split; [reflexivity|].
    eexists. split; [reflexivity|]. eapply image_urls_inv; eassumption.
Qed.

(** ** From the answers to the posts, and back *)

Lemma check_idea_nonblank (s : jsstring) :
  trim s <> [] -> ApiGenerate.check_idea (JStr s) = Some s.
Proof.
  intros H. unfold ApiGenerate.check_idea.
  destruct s as [|c s]; [now contradiction H|].
  cbn [truthy negb]. destruct (trim (c :: s)); [now contradiction H|reflexivity].
Qed.

Lemma map_Some_inj {A} (a b : list A) : map Some a = map Some b -> a = b.
Proof.
  revert b. induction a as [|x a IH]; intros [|y b] H; try discriminate; [reflexivity|].
  cbn in H. injection H as -> H. f_equal. now apply IH.
Qed.

(** The posts of a cycle are determined by the answers. *)
Lemma assembled_functional (E : Engine) (W : World) (media : option UploadedMedia)
  (posts posts' : list SocialPost) :
  assembled E W media posts -> assembled E W media posts' -> posts = posts'.
Proof.
  intros (t & v & insta & li & fb & tw & cap & tags & md & Ht & Hv & Hli & Hfb & Htw
          & Hin & Hcap & Htags & -> & Hmd)
         (t' & v' & insta' & li' & fb' & tw' & cap' & tags' & md' & Ht' & Hv' & Hli'
          & Hfb' & Htw' & Hin' & Hcap' & Htags' & -> & Hmd').
  rewrite Ht in Ht'. injection Ht' as <-.
  rewrite Hv in Hv'. injection Hv' as <-.
  rewrite Hli in Hli'. injection Hli' as <-.
  rewrite Hfb in Hfb'. injection Hfb' as <-.
  rewrite Htw in Htw'. injection Htw' as <-.
  rewrite Hin in Hin'. injection Hin' as <-.
  rewrite Hcap in Hcap'. injection Hcap' as <-.
  rewrite Htags in Htags'. injection Htags' as <-.
  assert (Hsame : md = md'); [|now subst].
  destruct media as [m|].
  - rewrite <- Hmd' in Hmd. now apply map_Some_inj.
  - destruct Hmd as (urls & -> & Hall). destruct Hmd' as (urls' & -> & Hall').
    f_equal. revert urls' Hall'. induction Hall as [|p u ps us (g & more & Hp & Hu) Hall IH];
      intros urls' Hall'; inversion Hall' as [|p' u' ps' us' (g' & more' & Hp' & Hu') Hall''];
      subst; [reflexivity|].
    injection Hp' as <- _. f_equal. now apply IH.
Qed.

#[local] Arguments get : simpl never.

Lemma Forall2_four {A B} (R : A -> B -> Prop) (a0 a1 a2 a3 : A) (l : list B) :
  Forall2 R [a0; a1; a2; a3] l ->
  exists b0 b1 b2 b3, l = [b0; b1; b2; b3] /\ R a0 b0 /\ R a1 b1 /\ R a2 b2 /\ R a3 b3.
Proof.
  intros H.
  inversion H as [|? b0 ? l0 R0 H0]; subst.
  inversion H0 as [|? b1 ? l1 R1 H1]; subst.
  inversion H1 as [|? b2 ? l2 R2 H2]; subst.
  inversion H2 as [|? b3 ? l3 R3 H3]; subst.
  inversion H3; subst. exists b0, b1, b2, b3. auto.
Qed.

(** When the answers assemble to posts, the direct service returns them. *)
Lemma direct_forward (E : Engine) (W : World) (client : option GoogleGenAI)
  (words : jsstring) (media : option UploadedMedia) (posts : list SocialPost) :
  configured W client = true ->
  assembled E W media posts ->
  fst (GeminiService.generateSocialPosts E W words media (start client)) = Ok posts.
Proof.
  intros Hcfg (t & v & insta & li & fb & tw & cap & tags & md & Ht & Hv & Hli & Hfb & Htw
               & Hin & Hcap & Htags & -> & Hmd).
  assert (Hip : media = None -> exists ip, get E insta f_image_prompt = Ok ip).
  { intros _. unfold get in *. destruct insta; try discriminate; eauto. }
  unfold GeminiService.generateSocialPosts, GeminiService.getAIClient,
    GeminiService.generateContent, GeminiService.generateImages,
    try_catch, bind, lift, ret, emit, read_env, get_ai, set_ai, start, configured in *.
  destruct media as [m|].
  - change (repeat (uploaded_media m) 4)
      with (map Some (repeat {| url := Wording.data_url (mimeType m) (base64 m);
                                type := if startsWith (mimeType m) (lit "video")
                                        then video else image |} 4)) in Hmd.
    apply map_Some_inj in Hmd. subst md.
    destruct client as [c|]; cbn in *.
    + rewrite Ht, Hv. cbn. rewrite Hli, Hfb, Htw, Hin. cbn. rewrite Hcap, Htags. reflexivity.
    + destruct (env W (lit "API_KEY")) as [[|k0 k]|]; try discriminate. cbn.
      rewrite Ht, Hv. cbn. rewrite Hli, Hfb, Htw, Hin. cbn. rewrite Hcap, Htags. reflexivity.
  - destruct (Hip eq_refl) as (ip & Hip'). destruct Hmd as (urls & -> & Hall).
    apply Forall2_four in Hall.
    destruct Hall as (u0 & u1 & u2 & u3 & -> & (g0 & m0 & H0 & ->) & (g1 & m1 & H1 & ->)
                      & (g2 & m2 & H2 & ->) & (g3 & m3 & H3 & ->)).
    destruct client as [c|]; cbn in *.
    + rewrite Ht, Hv. cbn. rewrite Hin. cbn. rewrite Hip'. cbn.
      rewrite H0, H1, H2, H3. cbn.
      rewrite Hli, Hfb, Htw. cbn. rewrite Hcap, Htags. reflexivity.
    + destruct (env W (lit "API_KEY")) as [[|k0 k]|]; try discriminate. cbn.
      rewrite Ht, Hv. cbn. rewrite Hin. cbn. rewrite Hip'. cbn.
      rewrite H0, H1, H2, H3. cbn.
      rewrite Hli, Hfb, Htw. cbn. rewrite Hcap, Htags. reflexivity.
Qed.

(** When the answers assemble to posts, the proxy sends them. *)
Lemma proxy_forward (E : Engine) (W : World) (words : jsstring)
  (media : option UploadedMedia) (posts : list SocialPost) (r : Run) :
  trim words <> [] ->
  server_configured W = true ->
  assembled E W media posts ->
  fst (ApiGenerate.handler E W (proxy_request words media) r)
  = Ok (ApiGenerate.respond 200 (JsonPosts posts)).
Proof.
  intros Hwords Hsrv (t & v & insta & li & fb & tw & cap & tags & md & Ht & Hv & Hli & Hfb
                      & Htw & Hin & Hcap & Htags & -> & Hmd).
  assert (Hip : media = None -> exists ip, get E insta f_image_prompt = Ok ip).
  { intros _. unfold get in *. destruct insta; try discriminate; eauto. }
  unfold ApiGenerate.handler, proxy_request. cbn [method body].
  change (str_eqb (lit "POST") (lit "OPTIONS")) with false.
  rewrite str_eqb_refl. cbn [negb]. cbv iota.
  unfold ApiGenerate.generateContent, ApiGenerate.generateImages,
    try_catch, bind, lift, ret, emit, read_env, server_configured in *.
  cbn [idea uploadedMedia]. rewrite (check_idea_nonblank words Hwords).
  destruct (env W (lit "GEMINI_API_KEY")) as [[|k0 k]|]; try discriminate.
  destruct media as [m|].
  - change (repeat (uploaded_media m) 4)
      with (map Some (repeat {| url := Wording.data_url (mimeType m) (base64 m);
                                type := if startsWith (mimeType m) (lit "video")
                                        then video else image |} 4)) in Hmd.
    apply map_Some_inj in Hmd. subst md. cbn.
    rewrite Ht, Hv. cbn. rewrite Hli, Hfb, Htw, Hin. cbn. rewrite Hcap, Htags. reflexivity.
  - destruct (Hip eq_refl) as (ip & Hip'). destruct Hmd as (urls & -> & Hall).
    apply Forall2_four in Hall.
    destruct Hall as (u0 & u1 & u2 & u3 & -> & (g0 & m0 & H0 & ->) & (g1 & m1 & H1 & ->)
                      & (g2 & m2 & H2 & ->) & (g3 & m3 & H3 & ->)).
    cbn. rewrite Ht, Hv. cbn. rewrite Hin. cbn. rewrite Hip'. cbn.
    rewrite H0, H1, H2, H3. cbn.
    rewrite Hli, Hfb, Htw. cbn. rewrite Hcap, Htags. reflexivity.
Qed.

(** The two outcomes of a cycle correspond. *)
Lemma outcomes_agree (E : Engine) (W : World) (client : option GoogleGenAI)
  (words : jsstring) (media : option UploadedMedia) (r : Run) :
  trim words <> [] ->
  configured W client = true ->
  server_configured W = true ->
  let d := GeminiService.generateSocialPosts E W words media (start client) in
  let p := ApiGenerate.handler E W (proxy_request words media) r in
  (forall posts,
     fst d = Ok posts <-> fst p = Ok (ApiGenerate.respond 200 (JsonPosts posts)))
  /\ ((exists e, fst d = Throw e)
      <-> (exists message, fst p = Ok (ApiGenerate.respond 500 (JsonError message)))).
Proof.
  intros Hwords Hcfg Hsrv d p.
  assert (Hd : forall posts, fst d = Ok posts -> assembled E W media posts).
  { intros posts H. subst d.
    destruct (GeminiService.generateSocialPosts E W words media (start client))
      as [out r'] eqn:Hrun.
    cbn [fst] in H. subst out. now apply direct_ok_inv in Hrun. }
  assert (Hp : (exists posts, fst p = Ok (ApiGenerate.respond 200 (JsonPosts posts))
                              /\ assembled E W media posts)
               \/ (exists message,
                     fst p = Ok (ApiGenerate.respond 500 (JsonError message)))).
  { pose proof (handler_post_cases E W {| idea := JStr words; uploadedMedia := media |} r)
      as Hcases.
    cbv zeta in Hcases. cbn [idea uploadedMedia] in Hcases.
    rewrite (check_idea_nonblank words Hwords) in Hcases.
    destruct Hcases as [[Habs _]|(s & _ & [[Habs _]|[_ H]])]; try discriminate.
    - rewrite Hsrv in Habs. discriminate.
    - exact H. }
  split.
  - intros posts. split; intros H.
    + apply proxy_forward; auto.
    + destruct Hp as [(posts' & Hp & Hposts)|(message & Hp)]; rewrite Hp in H;
        [|discriminate].
      injection H as <-. now apply direct_forward.
  - split.
    + intros (e & He).
      destruct Hp as [(posts & Hp & Hposts)|(message & Hp)]; [exfalso|eauto].
      rewrite (@direct_forward E W client words media posts Hcfg Hposts : fst d = Ok posts)
        in He.
      discriminate.
    + intros (message & Hm).
      destruct (direct_throws_errors E W words media (start client))
        as [(posts & Hok)|(msg & Hthrow)]; [exfalso|eauto].
      fold d in Hok. apply Hd in Hok.
      rewrite (@proxy_forward E W words media posts r Hwords Hsrv Hok : fst p = _) in Hm.
      discriminate.
Qed.

(** ** A conforming response and four images *)

(** C1.  Without uploaded media, when the text response decodes to a
    value that conforms to the schema and each of the four image results
    has an image, the direct service returns exactly four posts, in the
    order LinkedIn, Facebook, Twitter, Instagram, each with the
    platform's text and the first image of its own result; only the
    Instagram post has a [hashtags] member, which is the response's
    [instagram.hashtags].  The proxy, given a usable idea and its key,
    sends the same four posts with status 200. *)
Theorem generation_returns_four_posts (E : Engine) (W : World)
  (client : option GoogleGenAI) (words : jsstring)
  (t : GenerateContentResponse) (v : JSValue) (d : GeminiTextResponse.t)
  (g0 g1 g2 g3 : GeneratedImage) (more0 more1 more2 more3 : list GeneratedImage) :
  configured W client = true ->
  textResult W = Ok t ->
  JSON_parse E (response_text t) = Ok v ->
  conforms v d ->
  imageResult W 0 = Ok {| generatedImages := Some (g0 :: more0) |} ->
  imageResult W 1 = Ok {| generatedImages := Some (g1 :: more1) |} ->
  imageResult W 2 = Ok {| generatedImages := Some (g2 :: more2) |} ->
  imageResult W 3 = Ok {| generatedImages := Some (g3 :: more3) |} ->
  let posts :=
    [ {| platform := LinkedIn;
         text := JStr (GeminiTextResponse.linkedin d);
         hashtags := None;
         media := generated_media g0 |};
      {| platform := Facebook;
         text := JStr (GeminiTextResponse.facebook d);
         hashtags := None;
         media := generated_media g1 |};
      {| platform := Twitter;
         text := JStr (GeminiTextResponse.twitter d);
         hashtags := None;
         media := generated_media g2 |};
      {| platform := Instagram;
         text := JStr (GeminiTextResponse.caption (GeminiTextResponse.instagram d));
         hashtags :=
           Some (JArr (map JStr
             (GeminiTextResponse.hashtags (GeminiTextResponse.instagram d))));
         media := generated_media g3 |} ] in
  fst (GeminiService.generateSocialPosts E W words None (start client)) = Ok posts
  /\ (trim words <> [] ->
      server_configured W = true ->
      forall r,
        fst (ApiGenerate.handler E W (proxy_request words None) r)
        = Ok (ApiGenerate.respond 200 (JsonPosts posts))).
Proof.
  intros Hcfg Htext Hparse (props & iprops & -> & Hli & Hfb & Htw & Hin & Hcap & Htags & Hip)
    H0 H1 H2 H3 posts.
  assert (Ha : assembled E W None posts).
  { exists t, (JObj props), (JObj iprops), (JStr (GeminiTextResponse.linkedin d)),
      (JStr (GeminiTextResponse.facebook d)), (JStr (GeminiTextResponse.twitter d)),
      (JStr (GeminiTextResponse.caption (GeminiTextResponse.instagram d))),
      (JArr (map JStr (GeminiTextResponse.hashtags (GeminiTextResponse.instagram d)))),
      (map (fun u => {| url := u; type := image |})
         [lit "data:image/jpeg;base64," ++ imageBytes g0;
          lit "data:image/jpeg;base64," ++ imageBytes g1;
          lit "data:image/jpeg;base64," ++ imageBytes g2;
          lit "data:image/jpeg;base64," ++ imageBytes g3]).
    unfold get. cbv beta iota delta [field_name].
    rewrite Hli, Hfb, Htw, Hin, Hcap, Htags.
    repeat (split; [first [assumption|reflexivity]|]).
    eexists. split; [reflexivity|].
    repeat constructor; eauto. }
  split.
  - now apply direct_forward.
  - intros Hwords Hsrv r. now apply proxy_forward.
Qed.

Lemma generation_returns_four_posts_witness :
  let posts :=
    [ {| platform := LinkedIn; text := JStr (lit "L"); hashtags := None;
         media := generated_media {| imageBytes := lit "AAAA" |} |};
      {| platform := Facebook; text := JStr (lit "F"); hashtags := None;
         media := generated_media {| imageBytes := lit "BBBB" |} |};
      {| platform := Twitter; text := JStr (lit "T"); hashtags := None;
         media := generated_media {| imageBytes := lit "CCCC" |} |};
      {| platform := Instagram; text := JStr (lit "C");
         hashtags := Some (JArr [JStr (lit "pizza"); JStr (lit "natick")]);
         media := generated_media {| imageBytes := lit "DDDD" |} |} ] in
  fst (GeminiService.generateSocialPosts Samples.engine
         (Samples.world Samples.full_text Samples.pictures)
         Samples.friday None (start None))
  = Ok posts
  /\ (trim Samples.friday <> [] ->
      server_configured (Samples.world Samples.full_text Samples.pictures) = true ->
      forall r,
        fst (ApiGenerate.handler Samples.engine
               (Samples.world Samples.full_text Samples.pictures)
               (proxy_request Samples.friday None) r)
        = Ok (ApiGenerate.respond 200 (JsonPosts posts))).
Proof.
  apply (@generation_returns_four_posts Samples.engine
           (Samples.world Samples.full_text Samples.pictures) None Samples.friday
           {| response_text := Samples.full_text |} Samples.full_value
           Samples.full_response
           {| imageBytes := lit "AAAA" |} {| imageBytes := lit "BBBB" |}
           {| imageBytes := lit "CCCC" |} {| imageBytes := lit "DDDD" |}
           [] [] [] []);
    try reflexivity.
  exists [ (lit "linkedin", JStr (lit "L"));
           (lit "facebook", JStr (lit "F"));
           (lit "twitter", JStr (lit "T"));
           (lit "instagram",
             JObj [ (lit "caption", JStr (lit "C"));
                    (lit "hashtags", JArr [JStr (lit "pizza"); JStr (lit "natick")]);
                    (lit "image_prompt", JStr (lit "A pizza")) ]) ],
         [ (lit "caption", JStr (lit "C"));
           (lit "hashtags", JArr [JStr (lit "pizza"); JStr (lit "natick")]);
           (lit "image_prompt", JStr (lit "A pizza")) ].
  repeat split; reflexivity.
Defined.

(** The same cycle through the proxy, run in full. *)
Example friday_through_the_proxy :
  match fst (ApiGenerate.handler Samples.engine
               (Samples.world Samples.full_text Samples.pictures)
               (proxy_request Samples.friday None) (start None)) with
  | Ok {| status := s; content := JsonPosts posts |} =>
      s = 200%Z
      /\ map platform posts = [LinkedIn; Facebook; Twitter; Instagram]
      /\ map hashtags posts
         = [None; None; None; Some (JArr [JStr (lit "pizza"); JStr (lit "natick")])]
  | _ => False
  end.
Proof. vm_compute. repeat split. Qed.

(** ** An image result without an image *)

Lemma assembled_has_images (E : Engine) (W : World) (posts : list SocialPost) (i : nat) :
  assembled E W None posts -> (i < 4)%nat -> ~ no_images (imageResult W i).
Proof.
  intros (t & v & insta & li & fb & tw & cap & tags & mediaData & _ & _ & _ & _ & _ & _
          & _ & _ & _ & urls & _ & Hall) Hi [Hno|Hno].
  all: inversion Hall as [|p0 u0 ps0 us0 (? & ? & H0 & _) Hall0]; subst.
  all: inversion Hall0 as [|p1 u1 ps1 us1 (? & ? & H1 & _) Hall1]; subst.
  all: inversion Hall1 as [|p2 u2 ps2 us2 (? & ? & H2 & _) Hall2]; subst.
  all: inversion Hall2 as [|p3 u3 ps3 us3 (? & ? & H3 & _) Hall3]; subst.
  all: assert (Hcases : (i = 0 \/ i = 1 \/ i = 2 \/ i = 3)%nat) by lia.
  all: destruct Hcases as [-> | [-> | [-> | ->]]]; congruence.
Qed.

(** C2.  Without uploaded media, if one of the four image results has no
    image (an empty or absent [generatedImages]), the direct service
    throws an [Error] and returns no list, and the proxy answers a POST
    with an error object and a status other than 200. *)
Theorem empty_image_result_fails (E : Engine) (W : World)
  (client : option GoogleGenAI) (r : Run) (idea : jsstring) (v : JSValue) (i : nat) :
  (i < 4)%nat ->
  no_images (imageResult W i) ->
  (exists message,
     fst (GeminiService.generateSocialPosts E W idea None (start client))
     = Throw (ErrorObj message))
  /\
  (exists s message,
     fst (ApiGenerate.handler E W
            {| method := lit "POST";
               body := Some {| idea := v; uploadedMedia := None |} |} r)
     = Ok (ApiGenerate.respond s (JsonError message))
     /\ s <> 200%Z).
Proof.
  intros Hi Hno. split.
  - destruct (direct_throws_errors E W idea None (start client)) as [[posts Hok]|Hthrow];
      [exfalso|assumption].
    destruct (GeminiService.generateSocialPosts E W idea None (start client))
      as [out r'] eqn:Hrun.
    cbn [fst] in Hok. subst out.
    apply direct_ok_inv in Hrun. now apply (assembled_has_images Hrun Hi).
  - pose proof (handler_post_cases E W {| idea := v; uploadedMedia := None |} r) as Hcases.
    cbv zeta in Hcases. cbn [uploadedMedia] in Hcases.
    destruct Hcases as [[_ ->]|(s & _ & [[_ ->]|[_ [(posts & _ & Hposts)|(msg & ->)]]])].
    + do 2 eexists. split; [reflexivity|discriminate].
    + do 2 eexists. split; [reflexivity|discriminate].
    + exfalso. now apply (assembled_has_images Hposts Hi).
    + do 2 eexists. split; [reflexivity|discriminate].
Qed.

Lemma empty_image_result_fails_witness :
  (exists message,
     fst (GeminiService.generateSocialPosts Samples.engine
            (Samples.world Samples.full_text
               (fun i => match i with
                         | 2%nat => Ok {| generatedImages := Some [] |}
                         | _ => Samples.pictures i
                         end))
            Samples.friday None (start None))
     = Throw (ErrorObj message))
  /\
  (exists s message,
     fst (ApiGenerate.handler Samples.engine
            (Samples.world Samples.full_text
               (fun i => match i with
                         | 2%nat => Ok {| generatedImages := Some [] |}
                         | _ => Samples.pictures i
                         end))
            {| method := lit "POST";
               body := Some {| idea := JStr Samples.friday; uploadedMedia := None |} |}
            (start None))
     = Ok (ApiGenerate.respond s (JsonError message))
     /\ s <> 200%Z).
Proof.
  apply (@empty_image_result_fails Samples.engine _ None (start None) Samples.friday
           (JStr Samples.friday) 2).
  - lia.
  - right. reflexivity.
Defined.

(** Such a run in full: the third image result is empty and the message
    is the one of the code. *)
Example empty_third_image :
  fst (GeminiService.generateSocialPosts Samples.engine
         (Samples.world Samples.full_text
            (fun i => match i with
                      | 2%nat => Ok {| generatedImages := Some [] |}
                      | _ => Samples.pictures i
                      end))
         Samples.friday None (start None))
  = Throw (ErrorObj (lit "Failed to generate content: Image generation failed to return an image.")).
Proof. vm_compute. reflexivity. Qed.

(** ** Runs that issue no image request *)

Lemma quiet_ret {A} (a : A) : quiet (ret a).
Proof. intros r H ev. apply H. Qed.

Lemma quiet_throw {A} (e : Thrown) : quiet (@throw A e).
Proof. intros r H ev. apply H. Qed.

Lemma quiet_lift {A} (x : Exc A) : quiet (lift x).
Proof. intros r H ev. apply H. Qed.

Lemma quiet_get_ai : quiet get_ai.
Proof. intros r H ev. apply H. Qed.

Lemma quiet_set_ai (c : GoogleGenAI) : quiet (set_ai c).
Proof. intros r H ev. apply H. Qed.

Lemma quiet_emit (ev : Event) : is_image_call ev = false -> quiet (emit ev).
Proof.
  intros Hev r H ev'. cbn. rewrite in_app_iff. intros [Hin|[<-|[]]]; auto.
Qed.

Lemma quiet_bind {A B} (m : M A) (k : A -> M B) :
  quiet m -> (forall a, quiet (k a)) -> quiet (bind m k).
Proof.
  intros Hm Hk r H. unfold bind. specialize (Hm r H).
  destruct (m r) as [[a|e] r1]; cbn [snd] in *; [now apply Hk|assumption].
Qed.

Lemma quiet_try_catch {A} (m : M A) (h : Thrown -> M A) :
  quiet m -> (forall e, quiet (h e)) -> quiet (try_catch m h).
Proof.
  intros Hm Hh r H. unfold try_catch. specialize (Hm r H).
  destruct (m r) as [[a|e] r1]; cbn [snd] in *; [assumption|now apply Hh].
Qed.

Lemma quiet_read_env (W : World) (name : jsstring) : quiet (read_env W name).
Proof.
  unfold read_env. apply quiet_bind; [now apply quiet_emit|intros; apply quiet_ret].
Qed.

Ltac quiet_step :=
  first
    [ apply quiet_ret | apply quiet_throw | apply quiet_lift | apply quiet_get_ai
    | apply quiet_set_ai | apply quiet_read_env
    | apply quiet_emit; reflexivity
    | apply quiet_bind; [|intros]
    | apply quiet_try_catch; [|intros]
    | match goal with |- quiet (match ?x with _ => _ end) => destruct x end ].

Lemma direct_with_upload_is_quiet (E : Engine) (W : World) (idea : jsstring)
  (m : UploadedMedia) :
  quiet (GeminiService.generateSocialPosts E W idea (Some m)).
Proof.
  unfold GeminiService.generateSocialPosts, GeminiService.getAIClient,
    GeminiService.generateContent.
  cbv zeta. cbn [mediaType_of]. repeat quiet_step.
Qed.

(** What the direct service returns for an upload, when the text call
    answers with a text that decodes to an object whose [instagram] is an
    object: the members are read as they are, [undefined] when missing. *)
Lemma upload_forward (E : Engine) (W : World) (client : option GoogleGenAI)
  (words : jsstring) (m : UploadedMedia) (t : GenerateContentResponse)
  (props iprops : list (jsstring * JSValue)) :
  configured W client = true ->
  textResult W = Ok t ->
  JSON_parse E (response_text t) = Ok (JObj props) ->
  lookup (lit "instagram") props = JObj iprops ->
  fst (GeminiService.generateSocialPosts E W words (Some m) (start client))
  = Ok [ {| platform := LinkedIn; text := lookup (lit "linkedin") props;
            hashtags := None; media := uploaded_media m |};
         {| platform := Facebook; text := lookup (lit "facebook") props;
            hashtags := None; media := uploaded_media m |};
         {| platform := Twitter; text := lookup (lit "twitter") props;
            hashtags := None; media := uploaded_media m |};
         {| platform := Instagram; text := lookup (lit "caption") iprops;
            hashtags := Some (lookup (lit "hashtags") iprops);
            media := uploaded_media m |} ].
Proof.
  intros Hcfg Ht Hv Hin. apply direct_forward; [exact Hcfg|].
  exists t, (JObj props), (JObj iprops), (lookup (lit "linkedin") props),
    (lookup (lit "facebook") props), (lookup (lit "twitter") props),
    (lookup (lit "caption") iprops), (lookup (lit "hashtags") iprops),
    (repeat {| url := lit "data:" ++ mimeType m ++ lit ";base64," ++ base64 m;
               type := if startsWith (mimeType m) (lit "video") then video else image |} 4).
  unfold get. cbv beta iota delta [field_name]. rewrite Hin.
  repeat (split; [first [assumption|reflexivity]|]).
  reflexivity.
Qed.

(** C3.  With an uploaded media record, the direct service issues no
    image-generation request, whatever the outcome.  When the text call
    answers with a text that decodes to an object whose [instagram] is
    an object, it returns four posts, for LinkedIn, Facebook, Twitter
    and Instagram, each carrying the same media: the data URL
    [data:<mimeType>;base64,<base64>], of kind ['video'] when the MIME
    type starts with ['video'] and ['image'] otherwise.  And whenever it
    returns posts, they are four posts with that media. *)
Theorem uploaded_media_is_reused (E : Engine) (W : World)
  (client : option GoogleGenAI) (idea : jsstring) (m : UploadedMedia) :
  let out := GeminiService.generateSocialPosts E W idea (Some m) (start client) in
  let upload :=
    Some {| url := lit "data:" ++ mimeType m ++ lit ";base64," ++ base64 m;
            type := if startsWith (mimeType m) (lit "video") then video else image |} in
  (forall key req, ~ In (CallGenerateImages key req) (trace (snd out)))
  /\ (forall posts,
        fst out = Ok posts ->
        map platform posts = [LinkedIn; Facebook; Twitter; Instagram]
        /\ map media posts = repeat upload 4)
  /\ (forall t props iprops,
        configured W client = true ->
        textResult W = Ok t ->
        JSON_parse E (response_text t) = Ok (JObj props) ->
        lookup (lit "instagram") props = JObj iprops ->
        fst out
        = Ok [ {| platform := LinkedIn; text := lookup (lit "linkedin") props;
                  hashtags := None; media := upload |};
               {| platform := Facebook; text := lookup (lit "facebook") props;
                  hashtags := None; media := upload |};
               {| platform := Twitter; text := lookup (lit "twitter") props;
                  hashtags := None; media := upload |};
               {| platform := Instagram; text := lookup (lit "caption") iprops;
                  hashtags := Some (lookup (lit "hashtags") iprops);
                  media := upload |} ]).
Proof.
  intros out upload. split; [|split].
  - intros key req Hin.
    pose proof (@direct_with_upload_is_quiet E W idea m (start client)) as Hq.
    assert (Hq' : is_image_call (CallGenerateImages key req) = false).
    { apply Hq; [intros ev []|exact Hin]. }
    discriminate.
  - intros posts Hok. subst out.
    destruct (GeminiService.generateSocialPosts E W idea (Some m) (start client))
      as [res r'] eqn:Hrun.
    cbn [fst] in Hok. subst res. apply direct_ok_inv in Hrun.
    destruct Hrun as (t & v & insta & li & fb & tw & cap & tags & mediaData & _ & _ & _
                      & _ & _ & _ & _ & _ & -> & Hmedia).
    split; [reflexivity|].
    destruct mediaData as [|m0 [|m1 [|m2 [|m3 [|m4 rest]]]]]; try discriminate.
    cbn in Hmedia. unfold uploaded_media in Hmedia.
    injection Hmedia as -> -> -> ->. reflexivity.
  - intros t props iprops Hcfg Ht Hv Hin. subst out upload.
    exact (@upload_forward E W client idea m t props iprops Hcfg Ht Hv Hin).
Qed.

Lemma uploaded_media_is_reused_witness :
  let out :=
    GeminiService.generateSocialPosts Samples.engine
      (Samples.world Samples.full_text Samples.pictures)
      Samples.friday (Some Samples.clip) (start None) in
  let upload := Some {| url := lit "data:video/mp4;base64,QUJD"; type := video |} in
  fst out
  = Ok [ {| platform := LinkedIn; text := JStr (lit "L"); hashtags := None;
            media := upload |};
         {| platform := Facebook; text := JStr (lit "F"); hashtags := None;
            media := upload |};
         {| platform := Twitter; text := JStr (lit "T"); hashtags := None;
            media := upload |};
         {| platform := Instagram; text := JStr (lit "C");
            hashtags := Some (JArr [JStr (lit "pizza"); JStr (lit "natick")]);
            media := upload |} ]
  /\ forall key req, ~ In (CallGenerateImages key req) (trace (snd out)).
Proof.
  intros out upload.
  destruct (@uploaded_media_is_reused Samples.engine
              (Samples.world Samples.full_text Samples.pictures) None Samples.friday
              Samples.clip) as (Hquiet & _ & Hposts).
  split; [|exact Hquiet].
  exact (Hposts {| response_text := Samples.full_text |}
           [ (lit "linkedin", JStr (lit "L"));
             (lit "facebook", JStr (lit "F"));
             (lit "twitter", JStr (lit "T"));
             (lit "instagram",
               JObj [ (lit "caption", JStr (lit "C"));
                      (lit "hashtags", JArr [JStr (lit "pizza"); JStr (lit "natick")]);
                      (lit "image_prompt", JStr (lit "A pizza")) ]) ]
           [ (lit "caption", JStr (lit "C"));
             (lit "hashtags", JArr [JStr (lit "pizza"); JStr (lit "natick")]);
             (lit "image_prompt", JStr (lit "A pizza")) ]
           eq_refl eq_refl eq_refl eq_refl).
Defined.

(** The specification's example: an uploaded image and the idea
    "Friday pizza special". *)
Example uploaded_photo :
  let out :=
    GeminiService.generateSocialPosts Samples.engine
      (Samples.world Samples.full_text (fun _ => Throw (ErrorObj (lit "not called"))))
      Samples.friday (Some Samples.photo) (start None) in
  map media (match fst out with Ok posts => posts | Throw _ => [] end)
  = repeat (Some {| url := lit "data:image/png;base64,QUJD"; type := image |}) 4
  /\ map text (match fst out with Ok posts => posts | Throw _ => [] end)
     = [JStr (lit "L"); JStr (lit "F"); JStr (lit "T"); JStr (lit "C")]
  /\ List.length (trace (snd out)) = 2%nat.
Proof. repeat split; vm_compute; reflexivity. Qed.

Example uploaded_clip_is_a_video :
  map media
    (match fst (GeminiService.generateSocialPosts Samples.engine
                  (Samples.world Samples.full_text Samples.pictures)
                  Samples.friday (Some Samples.clip) (start None))
     with Ok posts => posts | Throw _ => [] end)
  = repeat (Some {| url := lit "data:video/mp4;base64,QUJD"; type := video |}) 4.
Proof. vm_compute. reflexivity. Qed.

(** ** The two implementations side by side *)

Lemma getAIClient_cached (W : World) (r : Run) (c : GoogleGenAI) :
  ai r = Some c -> GeminiService.getAIClient W r = (Ok c, r).
Proof.
  intros H. unfold GeminiService.getAIClient, bind, get_ai. rewrite H. reflexivity.
Qed.

Lemma getAIClient_start (W : World) (client : option GoogleGenAI) :
  configured W client = true ->
  GeminiService.getAIClient W (start client)
  = (Ok {| apiKey := direct_key W client |},
     {| ai := Some {| apiKey := direct_key W client |};
        trace := match client with
                 | Some _ => []
                 | None => [ReadEnv (lit "API_KEY")]
                 end |}).
Proof.
  unfold configured, direct_key, GeminiService.getAIClient, start, bind, get_ai, read_env,
    emit, ret, set_ai.
  destruct client as [[k]|]; cbn; [reflexivity|].
  destruct (env W (lit "API_KEY")) as [[|k0 k]|]; intros H; try discriminate. reflexivity.
Qed.

#[local] Arguments GeminiService.buildPrompt : simpl never.
#[local] Arguments ApiGenerate.buildPrompt : simpl never.
#[local] Arguments GeminiService.image_request : simpl never.
#[local] Arguments ApiGenerate.image_request : simpl never.

(** The events of a direct call. *)
Lemma direct_trace (E : Engine) (W : World) (client : option GoogleGenAI)
  (words : jsstring) (media : option UploadedMedia) :
  configured W client = true ->
  trace (snd (GeminiService.generateSocialPosts E W words media (start client)))
  = match client with Some _ => [] | None => [ReadEnv (lit "API_KEY")] end
    ++ CallGenerateContent (direct_key W client)
         (text_request (GeminiService.buildPrompt words (mediaType_of media)) media)
    :: match image_prompt_of E W words media with
       | Some q =>
           map (fun platform =>
                  CallGenerateImages (direct_key W client)
                    (GeminiService.image_request q platform))
               Constants.PLATFORMS
       | None => []
       end.
Proof.
  intros Hcfg. unfold GeminiService.generateSocialPosts.
  rewrite snd_try_catch by (intros []; apply stateless_throw).
  cbv zeta.
  erewrite bind_known by (apply getAIClient_start; exact Hcfg).
  unfold GeminiService.generateContent. rewrite bind_bind, bind_emit.
  cbn [ai trace apiKey]. unfold image_prompt_of.
  destruct (textResult W) as [t|e];
    [rewrite bind_lift_Ok|rewrite bind_lift_Throw; destruct media; reflexivity].
  destruct (JSON_parse E (response_text t)) as [v|e];
    [rewrite bind_lift_Ok|rewrite bind_lift_Throw; destruct media; reflexivity].
  destruct media as [m|]; cbn [mediaType_of].
  - rewrite bind_ret_l. rewrite snd_stateless by stateless_tail. reflexivity.
  - rewrite bind_bind.
    destruct (get E v f_instagram) as [insta|e];
      [rewrite bind_lift_Ok|rewrite bind_lift_Throw; reflexivity].
    rewrite bind_bind.
    destruct (get E insta f_image_prompt) as [ip|e];
      [rewrite bind_lift_Ok|rewrite bind_lift_Throw; reflexivity].
    unfold indexed, Constants.PLATFORMS. cbn [List.length seq combine mapM].
    unfold GeminiService.generateImages.
    do 4 (rewrite !bind_bind;
          erewrite bind_known by (apply getAIClient_cached; reflexivity);
          rewrite bind_bind, bind_emit, bind_ret_l; cbn [ai trace apiKey]).
    rewrite snd_stateless by stateless_tail. cbn [trace].
    rewrite <- !app_assoc. reflexivity.
Qed.

(** The events of the proxy answering a POST with a usable idea. *)
Lemma proxy_trace (E : Engine) (W : World) (words : jsstring)
  (media : option UploadedMedia) :
  trim words <> [] ->
  server_configured W = true ->
  trace (snd (ApiGenerate.handler E W (proxy_request words media) (start None)))
  = ReadEnv (lit "GEMINI_API_KEY")
    :: CallGenerateContent (server_key W)
         (text_request (ApiGenerate.buildPrompt words (mediaType_of media)) media)
    :: match image_prompt_of E W words media with
       | Some q =>
           map (fun platform =>
                  CallGenerateImages (server_key W)
                    (ApiGenerate.image_request q platform))
               ApiGenerate.PLATFORMS
       | None => []
       end.
Proof.
  intros Hwords Hsrv. unfold ApiGenerate.handler, proxy_request. cbn [method body].
  change (str_eqb (lit "POST") (lit "OPTIONS")) with false.
  rewrite str_eqb_refl. cbn [negb]. cbv iota.
  rewrite snd_try_catch by (intros e; apply stateless_ret).
  rewrite bind_ret_l. cbn [idea uploadedMedia].
  rewrite (check_idea_nonblank words Hwords).
  unfold read_env at 1. rewrite bind_bind, bind_emit, bind_ret_l.
  unfold server_configured, server_key in *.
  destruct (env W (lit "GEMINI_API_KEY")) as [[|k0 k]|]; try discriminate.
  cbv zeta.
  unfold ApiGenerate.generateContent. rewrite bind_bind, bind_emit.
  cbn [ai trace apiKey start]. unfold image_prompt_of.
  destruct (textResult W) as [t|e];
    [rewrite bind_lift_Ok|rewrite bind_lift_Throw; destruct media; reflexivity].
  destruct (JSON_parse E (response_text t)) as [v|e];
    [rewrite bind_lift_Ok|rewrite bind_lift_Throw; destruct media; reflexivity].
  destruct media as [m|]; cbn [mediaType_of].
  - rewrite bind_ret_l. rewrite snd_stateless by stateless_tail. reflexivity.
  - rewrite bind_bind.
    destruct (get E v f_instagram) as [insta|e];
      [rewrite bind_lift_Ok|rewrite bind_lift_Throw; reflexivity].
    rewrite bind_bind.
    destruct (get E insta f_image_prompt) as [ip|e];
      [rewrite bind_lift_Ok|rewrite bind_lift_Throw; reflexivity].
    unfold indexed, ApiGenerate.PLATFORMS. cbn [List.length seq combine mapM].
    unfold ApiGenerate.generateImages.
    do 4 (rewrite !bind_bind; rewrite bind_emit, bind_ret_l; cbn [ai trace apiKey]).
    rewrite snd_stateless by stateless_tail. cbn [trace].
    reflexivity.
Qed.

Lemma squeeze_app (a b : jsstring) : squeeze (a ++ b) = squeeze a ++ squeeze b.
Proof. apply filter_app. Qed.

(** The two prompts differ in space characters only. *)
Lemma prompts_agree_up_to_spaces (words : jsstring) (mediaType : option MediaKind) :
  squeeze (GeminiService.buildPrompt words mediaType)
  = squeeze (ApiGenerate.buildPrompt words mediaType).
Proof.
  unfold GeminiService.buildPrompt, ApiGenerate.buildPrompt. cbv zeta.
  destruct mediaType as [k|]; rewrite !squeeze_app;
    change (squeeze (lit "    ")) with (@nil N); reflexivity.
Qed.

(** C4, as the code has it.  For the same non-blank idea, the same media
    and the same provider answers, with a key on each side: the two text
    requests have the same model, inline media, response type and schema,
    and prompts that are equal up to space characters; either no side
    asks for an image, or each side asks for four, and the eight
    requests have the same prompt, the same model, the same count of one
    and the same output type, in the order LinkedIn, Facebook, Twitter,
    Instagram on both sides, at the same ratios for Facebook, Twitter and
    Instagram; the direct service returns posts exactly when the proxy
    answers 200 with the same posts, and throws exactly when the proxy
    answers 500. *)
Theorem implementations_agree (E : Engine) (W : World) (client : option GoogleGenAI)
  (words : jsstring) (media : option UploadedMedia) :
  trim words <> [] ->
  configured W client = true ->
  server_configured W = true ->
  agree (GeminiService.generateSocialPosts E W words media (start client))
        (ApiGenerate.handler E W (proxy_request words media) (start None))
  /\ (forall q platform,
        platform <> LinkedIn ->
        GeminiService.image_request q platform = ApiGenerate.image_request q platform).
Proof.
  intros Hwords Hcfg Hsrv.
  split; [|intros q [] H; try reflexivity; now contradiction H].
  unfold agree.
  rewrite (@direct_trace E W client words media Hcfg),
    (@proxy_trace E W words media Hwords Hsrv).
  destruct (@outcomes_agree E W client words media (start None) Hwords Hcfg Hsrv)
    as [Hposts Hthrow].
  split; [|split; [|split; assumption]].
  - assert (Hparts : Forall2 similar_part
                       (parts_of (GeminiService.buildPrompt words (mediaType_of media)) media)
                       (parts_of (ApiGenerate.buildPrompt words (mediaType_of media)) media)).
    { unfold parts_of. destruct media as [m|].
      - constructor; [split; reflexivity|].
        constructor; [apply prompts_agree_up_to_spaces|constructor].
      - constructor; [apply prompts_agree_up_to_spaces|constructor]. }
    destruct client; destruct (image_prompt_of E W words media);
      cbn [text_requests flat_map app map Constants.PLATFORMS ApiGenerate.PLATFORMS];
      (constructor; [|constructor]);
      (split; [reflexivity|]); (split; [exact Hparts|split; reflexivity]).
  - destruct (image_prompt_of E W words media) as [q|].
    + right. exists q, (lit "4:3"), (lit "1:1"). destruct client; split; reflexivity.
    + left. destruct client; split; reflexivity.
Qed.

Lemma implementations_agree_witness :
  agree (GeminiService.generateSocialPosts Samples.engine
           (Samples.world Samples.full_text Samples.pictures)
           Samples.friday None (start None))
        (ApiGenerate.handler Samples.engine
           (Samples.world Samples.full_text Samples.pictures)
           (proxy_request Samples.friday None) (start None))
  /\ (forall q platform,
        platform <> LinkedIn ->
        GeminiService.image_request q platform = ApiGenerate.image_request q platform).
Proof.
  apply (@implementations_agree Samples.engine
           (Samples.world Samples.full_text Samples.pictures) None Samples.friday None).
  - vm_compute. discriminate.
  - reflexivity.
  - reflexivity.
Defined.

(** C4 as the specification words it fails in three places.  For the idea
    "Friday pizza special" without media, the direct service asks for the
    LinkedIn image at 4:3 and the proxy at 1:1, and the two prompts are
    not the same text (they differ by four spaces); for the idea " " the
    direct service calls the provider and returns posts while the proxy
    answers 400 without any call. *)
Lemma implementations_differ :
  let W := Samples.world Samples.full_text Samples.pictures in
  let d := GeminiService.generateSocialPosts Samples.engine W Samples.friday None
             (start None) in
  let p := ApiGenerate.handler Samples.engine W (proxy_request Samples.friday None)
             (start None) in
  let d' := GeminiService.generateSocialPosts Samples.engine W (lit " ") None
              (start None) in
  let p' := ApiGenerate.handler Samples.engine W (proxy_request (lit " ") None)
              (start None) in
  map gi_aspectRatio (image_requests (trace (snd d)))
  = [lit "4:3"; lit "1:1"; lit "16:9"; lit "1:1"]
  /\ map gi_aspectRatio (image_requests (trace (snd p)))
     = [lit "1:1"; lit "1:1"; lit "16:9"; lit "1:1"]
  /\ text_requests (trace (snd d)) <> text_requests (trace (snd p))
  /\ (exists posts, fst d' = Ok posts /\ List.length posts = 4%nat)
  /\ List.length (text_requests (trace (snd d'))) = 1%nat
  /\ p' = (Ok (ApiGenerate.respond 400 (JsonError (lit "Idea is required"))), start None)
  /\ ~ same_generation_logic.
Proof.
  intros W d p d' p'.
  assert (Hd : map gi_aspectRatio (image_requests (trace (snd d)))
               = [lit "4:3"; lit "1:1"; lit "16:9"; lit "1:1"])
    by (vm_compute; reflexivity).
  assert (Hp : map gi_aspectRatio (image_requests (trace (snd p)))
               = [lit "1:1"; lit "1:1"; lit "16:9"; lit "1:1"])
    by (vm_compute; reflexivity).
  split; [exact Hd|]. split; [exact Hp|]. split; [|split; [|split; [|split]]].
  - intros H.
    apply (f_equal (map (fun q => map (fun part => match part with
                                                   | TextPart t => List.length t
                                                   | InlineData _ _ => 0%nat
                                                   end) (gc_parts q)))) in H.
    vm_compute in H. discriminate.
  - eexists. split; vm_compute; reflexivity.
  - vm_compute. reflexivity.
  - vm_compute. reflexivity.
  - intros H.
    destruct (H Samples.engine W Samples.friday None eq_refl eq_refl) as (_ & Himg & _).
    fold d p in Himg. rewrite Himg in Hd. rewrite Hd in Hp. vm_compute in Hp. discriminate.
Qed.
(** ** Responses that cannot be decoded *)








(** Without an upload the same text still yields posts: the missing
    [image_prompt] is replaced by the fallback prompt. *)
Example partial_response_without_upload :
  let out :=
    GeminiService.generateSocialPosts Samples.engine
      (Samples.world Samples.partial_text Samples.pictures)
      Samples.friday None (start None) in
  map text (match fst out with Ok posts => posts | Throw _ => [] end)
  = [JUndefined; JStr (lit "F"); JStr (lit "T"); JStr (lit "C")]
  /\ In (CallGenerateImages (lit "local-key")
           (GeminiService.image_request
              (JStr (lit "A visually stunning image representing: Friday pizza special."))
              Twitter))
        (trace (snd out)).
Proof. split; vm_compute; [reflexivity|tauto]. Qed.

(** ** The proxy's validation of the idea *)

Lemma check_idea_blank (v : JSValue) :
  blank_idea v -> ApiGenerate.check_idea v = None.
Proof.
  unfold ApiGenerate.check_idea.
  destruct v as [| |b|x|s|l|p]; simpl; intros H; try reflexivity.
  - now destruct b.
  - now destruct (negb _ && _).
  - destruct s as [|c s]; [reflexivity|]. simpl negb. cbv iota.
    now rewrite (trim_blank (c :: s) H).
Qed.

(** C10.  A POST whose body carries no idea, an idea that is not a string,
    or one made of white space only, is answered with status 400 and
    [{ error: 'Idea is required' }]; nothing was read from the environment
    and no provider call was made: the run is left as it was, without a new event. *)
Theorem blank_idea_is_refused (E : Engine) (W : World) (req : Request) (b : Body)
  (r : Run) :
  method req = lit "POST" ->
  body req = Some b ->
  blank_idea (idea b) ->
  ApiGenerate.handler E W req r
  = (Ok {| status := 400; headers := ApiGenerate.cors_headers;
           content := JsonError (lit "Idea is required") |},
     r).
Proof.
  intros Hm Hb Hi. unfold ApiGenerate.handler.
  rewrite Hm, Hb. change (str_eqb (lit "POST") (lit "OPTIONS")) with false.
  rewrite str_eqb_refl. cbv iota. simpl negb. cbv iota.
  unfold try_catch, bind, ret. simpl.
  now rewrite (check_idea_blank _ Hi).
Qed.

Lemma blank_idea_is_refused_witness :
  ApiGenerate.handler
    {| JSON_parse := fun _ => Ok JNull;
       type_error_message := fun _ _ => [];
       destructure_error_message := [] |}
    {| env := fun _ => None;
       textResult := Throw (ErrorObj []);
       imageResult := fun _ => Throw (ErrorObj []) |}
    {| method := lit "POST";
       body := Some {| idea := JStr (lit "   "); uploadedMedia := None |} |}
    (start None)
  = (Ok {| status := 400; headers := ApiGenerate.cors_headers;
           content := JsonError (lit "Idea is required") |},
     start None).
Proof.
  apply (@blank_idea_is_refused _ _ _
           {| idea := JStr (lit "   "); uploadedMedia := None |});
    reflexivity.
Defined.

(** ** The compression loop *)

Lemma quality_steps :
  (Quality.q0 - 0.1 = Quality.q1 /\ Quality.q1 - 0.1 = Quality.q2
   /\ Quality.q2 - 0.1 = Quality.q3 /\ Quality.q3 - 0.1 = Quality.q4
   /\ Quality.q4 - 0.1 = Quality.q5)%float.
Proof. repeat split; vm_compute; reflexivity. Qed.

Lemma quality_guards :
  PrimFloat.ltb Quality.floor Quality.q0 = true
  /\ PrimFloat.ltb Quality.floor Quality.q1 = true
  /\ PrimFloat.ltb Quality.floor Quality.q2 = true
  /\ PrimFloat.ltb Quality.floor Quality.q3 = true
  /\ PrimFloat.ltb Quality.floor Quality.q4 = true
  /\ PrimFloat.ltb Quality.floor Quality.q5 = false.
Proof. repeat split; vm_compute; reflexivity. Qed.

Lemma too_large_oversized (q : float) :
  InputSection.too_large (oversized_encoder q) = true.
Proof.
  unfold InputSection.too_large, oversized_encoder.
  rewrite repeat_length, N_nat_Z. vm_compute. reflexivity.
Qed.

(** The target sits between 14365491 and 14365492 characters. *)
Lemma too_large_threshold (c : N) :
  InputSection.too_large (repeat c (N.to_nat 14365491)) = false
  /\ InputSection.too_large (repeat c (N.to_nat 14365492)) = true.
Proof.
  unfold InputSection.too_large.
  rewrite !repeat_length, !N_nat_Z. split; vm_compute; reflexivity.
Qed.

(** One iteration of the loop, when its guard holds. *)
Lemma reduce_quality_step (fuel : nat) (encode : float -> jsstring)
  (quality : float) (base64 : jsstring) (asked : list float) :
  InputSection.too_large base64 = true ->
  PrimFloat.ltb 0.5 quality = true ->
  InputSection.reduce_quality (S fuel) encode quality base64 asked
  = InputSection.reduce_quality fuel encode (quality - 0.1)%float
      (encode (quality - 0.1)%float) (asked ++ [(quality - 0.1)%float]).
Proof. intros H1 H2. cbn [InputSection.reduce_quality]. now rewrite H1, H2. Qed.

Lemma reduce_quality_stop (fuel : nat) (encode : float -> jsstring)
  (quality : float) (base64 : jsstring) (asked : list float) :
  InputSection.too_large base64 && PrimFloat.ltb 0.5 quality = false ->
  InputSection.reduce_quality fuel encode quality base64 asked
  = Some (quality, base64, asked).
Proof. intros H. destruct fuel; cbn [InputSection.reduce_quality]; now rewrite H. Qed.

(** Closes a case of the loop once it has stopped. *)
Ltac loop_ends :=
  do 3 eexists;
  split; [reflexivity|];
  split; [reflexivity|];
  split; [simpl; lia|];
  split; [simpl; tauto|auto].

(** The loop always ends within five reductions, at one of six qualities,
    the lowest of which is below the floor. *)
Lemma compression_loop_terminates (encode : float -> jsstring) :
  exists quality base64 asked,
    InputSection.compression_loop InputSection.enough_fuel encode
    = Some (quality, base64, asked)
    /\ base64 = encode quality
    /\ (List.length asked <= 6)%nat
    /\ In quality [Quality.q0; Quality.q1; Quality.q2; Quality.q3; Quality.q4; Quality.q5]
    /\ (InputSection.too_large base64 = false \/ quality = Quality.q5).
Proof.
  destruct quality_steps as (S1 & S2 & S3 & S4 & S5).
  destruct quality_guards as (G0 & G1 & G2 & G3 & G4 & G5).
  unfold Quality.floor in *.
  unfold InputSection.compression_loop, InputSection.enough_fuel.
  fold Quality.q0.
  destruct (InputSection.too_large (encode Quality.q0)) eqn:T0;
    [rewrite (@reduce_quality_step _ encode Quality.q0 _ _ T0 G0), S1
    |rewrite reduce_quality_stop by (now rewrite T0);
     loop_ends].
  destruct (InputSection.too_large (encode Quality.q1)) eqn:T1;
    [rewrite (@reduce_quality_step _ encode Quality.q1 _ _ T1 G1), S2
    |rewrite reduce_quality_stop by (now rewrite T1);
     loop_ends].
  destruct (InputSection.too_large (encode Quality.q2)) eqn:T2;
    [rewrite (@reduce_quality_step _ encode Quality.q2 _ _ T2 G2), S3
    |rewrite reduce_quality_stop by (now rewrite T2);
     loop_ends].
  destruct (InputSection.too_large (encode Quality.q3)) eqn:T3;
    [rewrite (@reduce_quality_step _ encode Quality.q3 _ _ T3 G3), S4
    |rewrite reduce_quality_stop by (now rewrite T3);
     loop_ends].
  destruct (InputSection.too_large (encode Quality.q4)) eqn:T4;
    [rewrite (@reduce_quality_step _ encode Quality.q4 _ _ T4 G4), S5
    |rewrite reduce_quality_stop by (now rewrite T4);
     loop_ends].
  rewrite reduce_quality_stop by (now rewrite G5, andb_false_r).
  loop_ends.
Qed.

(** More fuel changes nothing. *)
Lemma compression_loop_fuel (encode : float -> jsstring) (extra : nat) :
  InputSection.compression_loop (InputSection.enough_fuel + extra) encode
  = InputSection.compression_loop InputSection.enough_fuel encode.
Proof.
  destruct quality_steps as (S1 & S2 & S3 & S4 & S5).
  destruct quality_guards as (G0 & G1 & G2 & G3 & G4 & G5).
  unfold Quality.floor in *.
  unfold InputSection.compression_loop, InputSection.enough_fuel.
  fold Quality.q0. cbn [Nat.add].
  destruct (InputSection.too_large (encode Quality.q0)) eqn:T0;
    [rewrite !(@reduce_quality_step _ encode Quality.q0 _ _ T0 G0), S1
    |now rewrite !reduce_quality_stop by (now rewrite T0)].
  destruct (InputSection.too_large (encode Quality.q1)) eqn:T1;
    [rewrite !(@reduce_quality_step _ encode Quality.q1 _ _ T1 G1), S2
    |now rewrite !reduce_quality_stop by (now rewrite T1)].
  destruct (InputSection.too_large (encode Quality.q2)) eqn:T2;
    [rewrite !(@reduce_quality_step _ encode Quality.q2 _ _ T2 G2), S3
    |now rewrite !reduce_quality_stop by (now rewrite T2)].
  destruct (InputSection.too_large (encode Quality.q3)) eqn:T3;
    [rewrite !(@reduce_quality_step _ encode Quality.q3 _ _ T3 G3), S4
    |now rewrite !reduce_quality_stop by (now rewrite T3)].
  destruct (InputSection.too_large (encode Quality.q4)) eqn:T4;
    [rewrite !(@reduce_quality_step _ encode Quality.q4 _ _ T4 G4), S5
    |now rewrite !reduce_quality_stop by (now rewrite T4)].
  now rewrite !reduce_quality_stop by (now rewrite G5, andb_false_r).
Qed.

(** C6, at the input where the code departs from it.  When every encoding
    stays above the target, the loop reduces the quality five times, not
    four, and the encoding it returns was made at quality
    0.40000000000000013, below the floor of 0.5: after four subtractions
    of 0.1 the binary64 value is 0.50000000000000011, which still passes
    the guard [quality > 0.5]. *)
Theorem quality_falls_below_floor (encode : float -> jsstring) :
  (forall q, InputSection.too_large (encode q) = true) ->
  InputSection.compression_loop InputSection.enough_fuel encode
  = Some (Quality.q5, encode Quality.q5,
          [Quality.q0; Quality.q1; Quality.q2; Quality.q3; Quality.q4; Quality.q5])
  /\ PrimFloat.ltb Quality.q5 Quality.floor = true.
Proof.
  intros Hbig.
  destruct quality_steps as (S1 & S2 & S3 & S4 & S5).
  destruct quality_guards as (G0 & G1 & G2 & G3 & G4 & G5).
  unfold Quality.floor in *.
  split; [|vm_compute; reflexivity].
  unfold InputSection.compression_loop, InputSection.enough_fuel.
  fold Quality.q0.
  rewrite (@reduce_quality_step _ encode Quality.q0 _ _ (Hbig _) G0), S1.
  rewrite (@reduce_quality_step _ encode Quality.q1 _ _ (Hbig _) G1), S2.
  rewrite (@reduce_quality_step _ encode Quality.q2 _ _ (Hbig _) G2), S3.
  rewrite (@reduce_quality_step _ encode Quality.q3 _ _ (Hbig _) G3), S4.
  rewrite (@reduce_quality_step _ encode Quality.q4 _ _ (Hbig _) G4), S5.
  rewrite reduce_quality_stop by (now rewrite G5, andb_false_r).
  reflexivity.
Qed.

Lemma quality_falls_below_floor_witness :
  InputSection.compression_loop InputSection.enough_fuel oversized_encoder
  = Some (Quality.q5, oversized_encoder Quality.q5,
          [Quality.q0; Quality.q1; Quality.q2; Quality.q3; Quality.q4; Quality.q5])
  /\ PrimFloat.ltb Quality.q5 Quality.floor = true.
Proof. apply (quality_falls_below_floor oversized_encoder too_large_oversized). Defined.

(** ** Downscaling *)

Lemma Qfloor_scaled (a b : Z) :
  Qfloor ((inject_Z a / inject_Z b) * inject_Z 2048)%Q = (a * 2048 / b)%Z.
Proof.
  rewrite Zdiv_Qdiv. apply Qfloor_comp.
  rewrite inject_Z_mult. unfold Qdiv. ring.
Qed.

(** C7.  When the width or the height exceeds 2048, the longer side
    becomes 2048 and the other one is scaled by the same factor: exactly
    so for the size the image is drawn at, and rounded down to a whole
    pixel for the size of the canvas.  An image within 2048 by 2048 keeps
    its size. *)
Theorem downscaling_keeps_shape (w h : N) :
  let W := Z.of_N w in
  let H := Z.of_N h in
  let width := fst (InputSection.scaled_size w h) in
  let height := snd (InputSection.scaled_size w h) in
  let cw := fst (InputSection.canvas_size w h) in
  let ch := snd (InputSection.canvas_size w h) in
  ((2048 < W \/ 2048 < H)%Z ->
   (((width == inject_Z 2048 /\ height <= width)
     \/ (height == inject_Z 2048 /\ width <= height))
    /\ width * inject_Z H == height * inject_Z W)%Q
   /\ Z.max cw ch = 2048%Z
   /\ (H < W -> cw = 2048 /\ ch = H * 2048 / W)%Z
   /\ (W <= H -> ch = 2048 /\ cw = W * 2048 / H)%Z
   /\ (Z.abs (cw * H - ch * W) < Z.max W H)%Z)
  /\
  ((W <= 2048 /\ H <= 2048)%Z ->
   InputSection.scaled_size w h = (inject_Z W, inject_Z H)
   /\ InputSection.canvas_size w h = (W, H)).
Proof.
  intros W H width height cw ch.
  assert (HW : (0 <= W)%Z) by apply N2Z.is_nonneg.
  assert (HH : (0 <= H)%Z) by apply N2Z.is_nonneg.
  subst width height cw ch.
  unfold InputSection.canvas_size, InputSection.scaled_size, InputSection.MAX_DIMENSION.
  fold W H. split.
  - intros Hbig.
    assert (Hcond : ((2048 <? W) || (2048 <? H))%Z = true).
    { apply orb_true_iff. destruct Hbig; [left|right]; now apply Z.ltb_lt. }
    rewrite Hcond. destruct (H <? W)%Z eqn:Hlt.
    + apply Z.ltb_lt in Hlt. cbn [fst snd].
      assert (HW0 : (0 < W)%Z) by lia.
      assert (Hq : (H * 2048 / W <= 2048)%Z).
      { apply Z.div_le_upper_bound; lia. }
      assert (Hq0 : (0 <= H * 2048 / W)%Z) by (apply Z.div_pos; lia).
      pose proof (Z.mul_div_le (H * 2048) W HW0) as Hlo.
      pose proof (Z.mul_succ_div_gt (H * 2048) W HW0) as Hhi.
      rewrite Qfloor_Z, Qfloor_scaled.
      repeat split; try lia.
      * left. split; [reflexivity|].
        setoid_replace (inject_Z H / inject_Z W * inject_Z 2048)%Q
          with (inject_Z (H * 2048) / inject_Z W)%Q
          by (rewrite inject_Z_mult; unfold Qdiv; ring).
        apply Qle_shift_div_r; [now rewrite <- (Zlt_Qlt 0)|].
        rewrite <- inject_Z_mult, <- Zle_Qle. lia.
      * field. intros Habs. apply (inject_Z_injective W 0) in Habs. lia.
    + apply Z.ltb_ge in Hlt. cbn [fst snd].
      assert (HH0 : (0 < H)%Z) by lia.
      assert (Hq : (W * 2048 / H <= 2048)%Z).
      { apply Z.div_le_upper_bound; lia. }
      assert (Hq0 : (0 <= W * 2048 / H)%Z) by (apply Z.div_pos; lia).
      pose proof (Z.mul_div_le (W * 2048) H HH0) as Hlo.
      pose proof (Z.mul_succ_div_gt (W * 2048) H HH0) as Hhi.
      rewrite Qfloor_Z, Qfloor_scaled.
      repeat split; try lia.
      * right. split; [reflexivity|].
        setoid_replace (inject_Z W / inject_Z H * inject_Z 2048)%Q
          with (inject_Z (W * 2048) / inject_Z H)%Q
          by (rewrite inject_Z_mult; unfold Qdiv; ring).
        apply Qle_shift_div_r; [now rewrite <- (Zlt_Qlt 0)|].
        rewrite <- inject_Z_mult, <- Zle_Qle. lia.
      * field. intros Habs. apply (inject_Z_injective H 0) in Habs. lia.
  - intros [Hw Hh].
    assert (Hcond : ((2048 <? W) || (2048 <? H))%Z = false).
    { apply orb_false_iff. split; now apply Z.ltb_ge. }
    rewrite Hcond. now rewrite !Qfloor_Z.
Qed.

(** On these sizes the computation in binary64 gives the same canvas. *)
Example downscaling_in_binary64 :
  forallb (fun '(w, h) =>
             let '(a, b) := InputSection.canvas_size (Z.to_N w) (Z.to_N h) in
             let '(c, d) := Binary64.canvas_size w h in
             (a =? c)%Z && (b =? d)%Z)
    [ (4096, 3072); (3000, 4000); (1000, 5000); (2048, 2048); (2049, 2048);
      (2049, 1); (1, 2049); (6000, 4000); (4032, 3024); (12345, 6789);
      (65535, 65535); (3, 8191); (8191, 3); (640, 480); (5000, 3333) ]%Z
  = true.
Proof. vm_compute. reflexivity. Qed.

Example downscaling_4096_by_3072 :
  InputSection.canvas_size 4096 3072 = (2048, 1536)%Z
  /\ InputSection.canvas_size 3000 4000 = (1536, 2048)%Z
  /\ InputSection.canvas_size 1000 5000 = (409, 2048)%Z
  /\ InputSection.canvas_size 2048 2048 = (2048, 2048)%Z.
Proof. repeat split; vm_compute; reflexivity. Qed.

(** ** Media preparation: rejected files *)

(** C8.  A file above the size ceiling (100MB in the compressing form,
    20MB in the plain one), or of a type outside the allow-list, is
    rejected with a message; [setUploadedMedia] is not called and the
    media held before, [null] included, stays. *)
Theorem oversized_or_unsupported_file_is_rejected (B : Browser) (st : Form) (f : File) :
  ((100 * 1024 * 1024 < size f)%Z
   \/ includes InputSection.acceptedTypes (file_type f) = false ->
   rejected st (InputSection.processFile B (Some f) st))
  /\
  ((20 * 1024 * 1024 < size f)%Z
   \/ includes InputSectionPlain.acceptedTypes (file_type f) = false ->
   rejected st (InputSectionPlain.processFile B (Some f) st)).
Proof.
  split; intros H.
  - unfold InputSection.processFile.
    destruct (100 * 1024 * 1024 <? size f)%Z eqn:Hsize.
    + repeat split; simpl; eauto.
    + destruct H as [H|H]; [apply Z.ltb_lt in H; congruence|].
      rewrite H. repeat split; simpl; eauto.
  - unfold InputSectionPlain.processFile.
    destruct (20 * 1024 * 1024 <? size f)%Z eqn:Hsize.
    + repeat split; simpl; eauto.
    + destruct H as [H|H]; [apply Z.ltb_lt in H; congruence|].
      rewrite H. repeat split; simpl; eauto.
Qed.

(** The message of a type rejection names the offending type. *)
Lemma unsupported_type_is_named (B : Browser) (st : Form) (f : File) :
  (size f <= 100 * 1024 * 1024)%Z ->
  includes InputSection.acceptedTypes (file_type f) = false ->
  alerts (InputSection.processFile B (Some f) st)
  = alerts st ++ [lit "Unsupported file type: " ++ file_type f
                  ++ lit ". Please use PNG, JPG, WEBP, HEIC, MP4, or WEBM."].
Proof.
  intros Hs Ht. unfold InputSection.processFile.
  apply Z.ltb_ge in Hs. rewrite Hs, Ht. reflexivity.
Qed.

Example huge_file_is_rejected :
  InputSection.processFile FormSamples.plain_browser (Some FormSamples.huge_png)
    FormSamples.empty_form
  = {| uploadedMedia_state := None;
       alerts := [lit "File is too large. Please select a file under 100MB."];
       processed := [FormSamples.huge_png];
       updates := [] |}.
Proof. vm_compute. reflexivity. Qed.

Example gif_is_rejected :
  alerts (InputSectionPlain.processFile FormSamples.plain_browser (Some FormSamples.gif)
            FormSamples.empty_form)
  = [lit "Unsupported file type: image/gif. Please use PNG, JPG, WEBP, MP4, or WEBM."].
Proof. vm_compute. reflexivity. Qed.

(** A file between the two ceilings, or a HEIC image, is where the two
    variants part. *)
Example variants_differ_on_mid_sized_file :
  updates (InputSection.processFile FormSamples.plain_browser
             (Some FormSamples.mid_png) FormSamples.empty_form)
  = [Some {| base64 := lit "BBBB"; mimeType := lit "image/jpeg" |}]
  /\ updates (InputSectionPlain.processFile FormSamples.plain_browser
                (Some FormSamples.mid_png) FormSamples.empty_form) = [].
Proof. split; vm_compute; reflexivity. Qed.

(** ** The paste listener *)

Section PasteLoop.

Variable processFile : option File -> Form -> Form.

Lemma paste_loop_skips (items : list DataTransferItem) (st : Form) :
  (forall x, In x items -> yields_image x = false) ->
  paste_loop processFile items st = (st, false).
Proof.
  induction items as [|x items IH]; intros H; cbn [paste_loop]; [reflexivity|].
  assert (Hx : yields_image x = false) by (apply H; now left).
  unfold yields_image, image_item in Hx.
  destruct (str_eqb (kind x) (lit "file") && startsWith (item_type x) (lit "image/"));
    [destruct (getAsFile x); [discriminate|]|];
    apply IH; intros y Hy; apply H; now right.
Qed.

Lemma paste_loop_first (pre post : list DataTransferItem) (item : DataTransferItem)
  (f : File) (st : Form) :
  (forall x, In x pre -> yields_image x = false) ->
  image_item item = true ->
  getAsFile item = Some f ->
  paste_loop processFile (pre ++ item :: post) st = (processFile (Some f) st, true).
Proof.
  intros Hpre Hit Hf. induction pre as [|x pre IH]; cbn [paste_loop app].
  - unfold image_item in Hit. now rewrite Hit, Hf.
  - assert (Hx : yields_image x = false) by (apply Hpre; now left).
    unfold yields_image, image_item in Hx.
    destruct (str_eqb (kind x) (lit "file") && startsWith (item_type x) (lit "image/"));
      [destruct (getAsFile x); [discriminate|]|];
      apply IH; intros y Hy; apply Hpre; now right.
Qed.

End PasteLoop.

Lemma processFile_processes_one (B : Browser) (f : File) (st : Form) :
  processed (InputSection.processFile B (Some f) st) = processed st ++ [f]
  /\ (List.length (updates (InputSection.processFile B (Some f) st))
      <= S (List.length (updates st)))%nat.
Proof.
  unfold InputSection.processFile.
  destruct (100 * 1024 * 1024 <? size f)%Z; [simpl; auto|].
  destruct (negb (includes InputSection.acceptedTypes (file_type f))); [simpl; auto|].
  destruct (startsWith (file_type f) (lit "image/")).
  - destruct (InputSection.compressImage B f); simpl; auto.
    rewrite length_app; simpl; split; [reflexivity|lia].
  - destruct (readAsDataURL B f); simpl; auto.
    rewrite length_app; simpl; split; [reflexivity|lia].
Qed.

(** C9, as the code has it.  While no generation is in progress, a paste
    with image items has exactly one file processed: the file of the first
    item, in index order, whose kind is ['file'], whose type starts with
    ['image/'] and whose [getAsFile()] is not [null]; the default action is
    prevented and [setUploadedMedia] is called at most once.  While a
    generation is in progress the listener leaves everything as it is. *)
Theorem paste_processes_first_image (B : Browser) (st : Form)
  (pre post : list DataTransferItem) (item : DataTransferItem) (f : File) :
  (forall x, In x pre -> yields_image x = false) ->
  image_item item = true ->
  getAsFile item = Some f ->
  let items := pre ++ item :: post in
  let after := InputSection.handlePaste B false (Some items) st in
  processed (fst after) = processed st ++ [f]
  /\ snd after = true
  /\ (List.length (updates (fst after)) <= S (List.length (updates st)))%nat
  /\ InputSection.handlePaste B true (Some items) st = (st, false).
Proof.
  intros Hpre Hit Hf items after. subst after items.
  unfold InputSection.handlePaste, handlePaste.
  rewrite (paste_loop_first _ pre post item st Hpre Hit Hf). simpl.
  destruct (processFile_processes_one B f st) as [Hp Hu].
  repeat split; assumption.
Qed.

Lemma paste_processes_first_image_witness :
  let items := [FormSamples.text_item; FormSamples.item_of FormSamples.gif;
                FormSamples.item_of FormSamples.png] in
  let after :=
    InputSection.handlePaste FormSamples.plain_browser false (Some items)
      FormSamples.empty_form in
  processed (fst after) = [FormSamples.gif]
  /\ snd after = true
  /\ (List.length (updates (fst after)) <= 1)%nat
  /\ InputSection.handlePaste FormSamples.plain_browser true (Some items)
       FormSamples.empty_form = (FormSamples.empty_form, false).
Proof.
  apply (@paste_processes_first_image FormSamples.plain_browser FormSamples.empty_form
           [FormSamples.text_item] [FormSamples.item_of FormSamples.png]
           (FormSamples.item_of FormSamples.gif) FormSamples.gif).
  - intros x [<-|[]]. reflexivity.
  - reflexivity.
  - reflexivity.
Defined.

(** C9 as the specification words it fails while a generation is in
    progress: a paste of two image files has no file processed.  And when
    the first image item yields no file, it is the second one that is
    processed. *)
Lemma paste_while_loading_processes_nothing :
  let items := [FormSamples.item_of FormSamples.png; FormSamples.item_of FormSamples.gif] in
  let fileless :=
    {| kind := lit "file"; item_type := lit "image/png"; getAsFile := None |} in
  List.length (filter image_item items) = 2%nat
  /\ processed (fst (InputSection.handlePaste FormSamples.plain_browser true
                       (Some items) FormSamples.empty_form)) = []
  /\ find image_item [fileless; FormSamples.item_of FormSamples.png] = Some fileless
  /\ processed (fst (InputSection.handlePaste FormSamples.plain_browser false
                       (Some [fileless; FormSamples.item_of FormSamples.png])
                       FormSamples.empty_form)) = [FormSamples.png].
Proof. repeat split; reflexivity. Qed.

(** The first image item decides even when its file is then refused: here
    a GIF comes first, is rejected by [processFile], and the PNG after it
    is never looked at. *)
Example paste_gif_then_png :
  let after :=
    fst (InputSection.handlePaste FormSamples.plain_browser false
           (Some [FormSamples.item_of FormSamples.gif; FormSamples.item_of FormSamples.png])
           FormSamples.empty_form) in
  processed after = [FormSamples.gif] /\ updates after = [].
Proof. split; vm_compute; reflexivity. Qed.

(** ** The proxy, request by request *)

(** How the proxy answers a POST that has a body, with the text of each
    error. *)
Lemma handler_post_outcomes (E : Engine) (W : World) (b : Body) (r : Run) :
  let out := fst (ApiGenerate.handler E W {| method := lit "POST"; body := Some b |} r) in
  out = Ok (ApiGenerate.respond 400 (JsonError (lit "Idea is required")))
  \/ out = Ok (ApiGenerate.respond 500 (JsonError (lit "API key not configured on server")))
  \/ (exists posts,
        out = Ok (ApiGenerate.respond 200 (JsonPosts posts))
        /\ assembled E W (uploadedMedia b) posts)
  \/ (exists message,
        out = Ok (ApiGenerate.respond 500 (JsonError (Wording.failed_prefix ++ message)))).
Proof.
  unfold ApiGenerate.handler. cbn [method body].
  change (str_eqb (lit "POST") (lit "OPTIONS")) with false.
  rewrite str_eqb_refl. cbn [negb]. cbv iota.
  unfold try_catch.
  destruct (ApiGenerate.check_idea (idea b)) as [s|] eqn:Hidea.
  2:{ left. cbn. now rewrite Hidea. }
  match goal with
  | |- context [match ?m r with _ => _ end] =>
      destruct (m r) as [[resp|[msg|x]] r1] eqn:Hrun
  end; cbn [fst].
  2,3: right; right; right; eexists; reflexivity.
  unfold bind at 1 in Hrun; cbn [ret] in Hrun; rewrite Hidea in Hrun.
  unfold bind at 1 in Hrun; unfold read_env, bind at 1, emit, ret in Hrun.
  destruct (env W (lit "GEMINI_API_KEY")) as [[|k0 k]|].
  1,3: injection Hrun as <- _; right; left; reflexivity.
  right. right. left.
  cbv zeta in Hrun. unfold ApiGenerate.generateContent in Hrun.
  destruct (uploadedMedia b) as [m|]; cbn [mediaType_of] in Hrun; inv_run.
  - match goal with
    | Hi : get _ _ f_instagram = Ok ?a, Hj : get _ _ f_instagram = Ok ?b |- _ =>
        rewrite Hi in Hj; injection Hj as <-
    end.
    eexists. split; [reflexivity|].
    do 8 eexists.
    exists (repeat {| url := Wording.data_url (mimeType m) (base64 m);
                      type := if startsWith (mimeType m) (lit "video")
                              then video else image |} 4).
    repeat (split; [eassumption|]).
    split; [reflexivity|]. reflexivity.
  - unfold indexed, ApiGenerate.PLATFORMS in *. cbn [List.length seq combine mapM] in *.
    inv_run. unfold ApiGenerate.generateImages in *. inv_run.
    match goal with
    | Hi : get _ _ f_instagram = Ok ?a, Hj : get _ _ f_instagram = Ok ?b |- _ =>
        rewrite Hi in Hj; injection Hj as <-
    end.
    eexists. split; [reflexivity|].
    do 9 eexists. repeat (split; [eassumption|]).
    split; [reflexivity|].
    eexists. split; [reflexivity|]. eapply image_urls_inv; eassumption.
Qed.

(** X1.  The proxy answers every request: whatever the method, the body,
    the environment and the provider do, the handler returns a response
    and never throws.  The response carries the four CORS headers; its
    status is 200, 400, 405 or 500; a status other than 200 comes with an
    error object, and 200 with no content (OPTIONS) or with posts.  A
    request whose method is not POST leaves the run as it was. *)
Theorem handler_always_answers (E : Engine) (W : World) (req : Request) (r : Run) :
  exists resp r',
    ApiGenerate.handler E W req r = (Ok resp, r')
    /\ headers resp = ApiGenerate.cors_headers
    /\ In (status resp) [200; 400; 405; 500]%Z
    /\ (status resp = 200%Z ->
        content resp = NoBody \/ exists posts, content resp = JsonPosts posts)
    /\ (status resp <> 200%Z -> exists message, content resp = JsonError message)
    /\ (method req <> lit "POST" -> r' = r).
Proof.
  destruct (str_eqb (method req) (lit "POST")) eqn:Hpost.
  - apply str_eqb_eq in Hpost. destruct req as [m [b|]]; cbn [method] in *; subst m.
    + pose proof (handler_post_outcomes E W b r) as H. cbv zeta in H.
      destruct (ApiGenerate.handler E W {| method := lit "POST"; body := Some b |} r)
        as [out r'].
      cbn [fst] in H. exists (match out with Ok resp => resp | Throw _ => ApiGenerate.respond 500 NoBody end), r'.
      destruct H as [->|[->|[(posts & -> & _)|(message & ->)]]];
        (split; [reflexivity|]); cbn [headers status content ApiGenerate.respond];
        repeat split; try (simpl; tauto); try discriminate; try congruence; eauto.
    + exists (ApiGenerate.respond 500
                (JsonError (Wording.failed_prefix ++ destructure_error_message E))), r.
      split.
      { unfold ApiGenerate.handler. cbn [method body].
        change (str_eqb (lit "POST") (lit "OPTIONS")) with false.
        rewrite str_eqb_refl. reflexivity. }
      cbn [headers status content ApiGenerate.respond].
      repeat split; try (simpl; tauto); try discriminate; try congruence; eauto.
  - exists (if str_eqb (method req) (lit "OPTIONS")
            then ApiGenerate.respond 200 NoBody
            else ApiGenerate.respond 405 (JsonError (lit "Method not allowed"))), r.
    split.
    { unfold ApiGenerate.handler. rewrite Hpost.
      destruct (str_eqb (method req) (lit "OPTIONS")); reflexivity. }
    destruct (str_eqb (method req) (lit "OPTIONS"));
      cbn [headers status content ApiGenerate.respond];
      repeat split; try (simpl; tauto); try discriminate; try congruence; eauto.
Qed.

(** X2.  A POST with a usable idea to a proxy that has no key
    ([GEMINI_API_KEY] unset or empty) is answered 500 with
    [{ error: 'API key not configured on server' }]; the variable was
    read, and nothing was sent to the provider. *)
Theorem missing_server_key_is_reported (E : Engine) (W : World) (b : Body)
  (words : jsstring) (r : Run) :
  ApiGenerate.check_idea (idea b) = Some words ->
  server_configured W = false ->
  ApiGenerate.handler E W {| method := lit "POST"; body := Some b |} r
  = (Ok (ApiGenerate.respond 500 (JsonError (lit "API key not configured on server"))),
     {| ai := ai r; trace := trace r ++ [ReadEnv (lit "GEMINI_API_KEY")] |}).
Proof.
  intros Hidea Hkey. unfold ApiGenerate.handler. cbn [method body].
  change (str_eqb (lit "POST") (lit "OPTIONS")) with false.
  rewrite str_eqb_refl. cbn [negb]. cbv iota.
  unfold try_catch. rewrite bind_ret_l, Hidea.
  unfold read_env at 1. rewrite bind_bind, bind_emit, bind_ret_l.
  unfold server_configured in Hkey.
  destruct (env W (lit "GEMINI_API_KEY")) as [[|k0 k]|]; try discriminate; reflexivity.
Qed.

Lemma missing_server_key_is_reported_witness :
  let W := {| env := fun _ => None;
              textResult := Ok {| response_text := Samples.full_text |};
              imageResult := Samples.pictures |} in
  ApiGenerate.handler Samples.engine W
    (Samples.post {| idea := JStr Samples.friday; uploadedMedia := None |}) (start None)
  = (Ok (ApiGenerate.respond 500 (JsonError (lit "API key not configured on server"))),
     {| ai := None; trace := [ReadEnv (lit "GEMINI_API_KEY")] |}).
Proof.
  intros W.
  apply (@missing_server_key_is_reported Samples.engine W
           {| idea := JStr Samples.friday; uploadedMedia := None |}
           Samples.friday (start None)); reflexivity.
Defined.

(** X3.  A POST without a body (or with the body [null]) is answered 500,
    not 400: the destructuring of [req.body] throws inside the [try]
    block and the engine's message is sent behind the prefix.  Nothing is
    read from the environment, with or without a key. *)
Theorem missing_body_is_a_server_error (E : Engine) (W : World) (r : Run) :
  ApiGenerate.handler E W {| method := lit "POST"; body := None |} r
  = (Ok (ApiGenerate.respond 500
           (JsonError (lit "Failed to generate content: " ++ destructure_error_message E))),
     r).
Proof.
  unfold ApiGenerate.handler. cbn [method body].
  change (str_eqb (lit "POST") (lit "OPTIONS")) with false.
  rewrite str_eqb_refl. reflexivity.
Qed.

(** ** The direct service and its client *)

Lemma getAIClient_from (W : World) (client : option GoogleGenAI) (t : list Event) :
  configured W client = true ->
  GeminiService.getAIClient W {| ai := client; trace := t |}
  = (Ok {| apiKey := direct_key W client |},
     {| ai := Some {| apiKey := direct_key W client |};
        trace := t ++ match client with
                      | Some _ => []
                      | None => [ReadEnv (lit "API_KEY")]
                      end |}).
Proof.
  unfold configured, direct_key, GeminiService.getAIClient, bind, get_ai, read_env,
    emit, ret, set_ai.
  destruct client as [[k]|]; cbn; [now rewrite app_nil_r|].
  destruct (env W (lit "API_KEY")) as [[|k0 k]|]; intros H; try discriminate. reflexivity.
Qed.

(** The run a direct call leaves behind, from any run it starts in. *)
Lemma direct_run (E : Engine) (W : World) (client : option GoogleGenAI)
  (t : list Event) (words : jsstring) (upload : option UploadedMedia) :
  configured W client = true ->
  snd (GeminiService.generateSocialPosts E W words upload {| ai := client; trace := t |})
  = {| ai := Some {| apiKey := direct_key W client |};
       trace :=
         t ++ match client with Some _ => [] | None => [ReadEnv (lit "API_KEY")] end
         ++ CallGenerateContent (direct_key W client)
              (text_request (GeminiService.buildPrompt words (mediaType_of upload)) upload)
         :: match image_prompt_of E W words upload with
            | Some q =>
                map (fun platform =>
                       CallGenerateImages (direct_key W client)
                         (GeminiService.image_request q platform))
                    Constants.PLATFORMS
            | None => []
            end |}.
Proof.
  intros Hcfg. unfold GeminiService.generateSocialPosts.
  rewrite snd_try_catch by (intros []; apply stateless_throw).
  cbv zeta.
  erewrite bind_known by (apply getAIClient_from; exact Hcfg).
  unfold GeminiService.generateContent. rewrite bind_bind, bind_emit.
  cbn [ai trace apiKey]. unfold image_prompt_of.
  destruct (textResult W) as [tr|e];
    [rewrite bind_lift_Ok
    |rewrite bind_lift_Throw; destruct upload; cbn [snd]; now rewrite <- app_assoc].
  destruct (JSON_parse E (response_text tr)) as [v|e];
    [rewrite bind_lift_Ok
    |rewrite bind_lift_Throw; destruct upload; cbn [snd]; now rewrite <- app_assoc].
  destruct upload as [m|]; cbn [mediaType_of].
  - rewrite bind_ret_l. rewrite snd_stateless by stateless_tail.
    now rewrite <- app_assoc.
  - rewrite bind_bind.
    destruct (get E v f_instagram) as [insta|e];
      [rewrite bind_lift_Ok|rewrite bind_lift_Throw; cbn [snd]; now rewrite <- app_assoc].
    rewrite bind_bind.
    destruct (get E insta f_image_prompt) as [ip|e];
      [rewrite bind_lift_Ok|rewrite bind_lift_Throw; cbn [snd]; now rewrite <- app_assoc].
    unfold indexed, Constants.PLATFORMS. cbn [List.length seq combine mapM].
    unfold GeminiService.generateImages.
    do 4 (rewrite !bind_bind;
          erewrite bind_known by (apply getAIClient_cached; reflexivity);
          rewrite bind_bind, bind_emit, bind_ret_l; cbn [ai trace apiKey]).
    rewrite snd_stateless by stateless_tail. cbn [map].
    rewrite <- !app_assoc. reflexivity.
Qed.

(** The run the proxy leaves behind when it answers a POST with a usable
    idea, from any run it starts in. *)
Lemma proxy_run (E : Engine) (W : World) (words : jsstring)
  (upload : option UploadedMedia) (r : Run) :
  trim words <> [] ->
  server_configured W = true ->
  snd (ApiGenerate.handler E W (proxy_request words upload) r)
  = {| ai := ai r;
       trace :=
         trace r
         ++ ReadEnv (lit "GEMINI_API_KEY")
         :: CallGenerateContent (server_key W)
              (text_request (ApiGenerate.buildPrompt words (mediaType_of upload)) upload)
         :: match image_prompt_of E W words upload with
            | Some q =>
                map (fun platform =>
                       CallGenerateImages (server_key W)
                         (ApiGenerate.image_request q platform))
                    ApiGenerate.PLATFORMS
            | None => []
            end |}.
Proof.
  intros Hwords Hsrv. unfold ApiGenerate.handler, proxy_request. cbn [method body].
  change (str_eqb (lit "POST") (lit "OPTIONS")) with false.
  rewrite str_eqb_refl. cbn [negb]. cbv iota.
  rewrite snd_try_catch by (intros e; apply stateless_ret).
  rewrite bind_ret_l. cbn [idea uploadedMedia].
  rewrite (check_idea_nonblank words Hwords).
  unfold read_env at 1. rewrite bind_bind, bind_emit, bind_ret_l.
  unfold server_configured, server_key in *.
  destruct (env W (lit "GEMINI_API_KEY")) as [[|k0 k]|]; try discriminate.
  cbv zeta.
  unfold ApiGenerate.generateContent. rewrite bind_bind, bind_emit.
  cbn [ai trace apiKey]. unfold image_prompt_of.
  destruct (textResult W) as [t|e];
    [rewrite bind_lift_Ok
    |rewrite bind_lift_Throw; destruct upload; cbn [snd]; now rewrite <- app_assoc].
  destruct (JSON_parse E (response_text t)) as [v|e];
    [rewrite bind_lift_Ok
    |rewrite bind_lift_Throw; destruct upload; cbn [snd]; now rewrite <- app_assoc].
  destruct upload as [m|]; cbn [mediaType_of].
  - rewrite bind_ret_l. rewrite snd_stateless by stateless_tail.
    now rewrite <- app_assoc.
  - rewrite bind_bind.
    destruct (get E v f_instagram) as [insta|e];
      [rewrite bind_lift_Ok|rewrite bind_lift_Throw; cbn [snd]; now rewrite <- app_assoc].
    rewrite bind_bind.
    destruct (get E insta f_image_prompt) as [ip|e];
      [rewrite bind_lift_Ok|rewrite bind_lift_Throw; cbn [snd]; now rewrite <- app_assoc].
    unfold indexed, ApiGenerate.PLATFORMS. cbn [List.length seq combine mapM].
    unfold ApiGenerate.generateImages.
    do 4 (rewrite !bind_bind; rewrite bind_emit, bind_ret_l; cbn [ai trace apiKey]).
    rewrite snd_stateless by stateless_tail. cbn [map].
    rewrite <- !app_assoc. reflexivity.
Qed.

(** What each implementation reports when the text call is rejected. *)
Lemma direct_text_failure (E : Engine) (W : World) (client : option GoogleGenAI)
  (t : list Event) (words : jsstring) (upload : option UploadedMedia) (e : Thrown) :
  configured W client = true ->
  textResult W = Throw e ->
  fst (GeminiService.generateSocialPosts E W words upload {| ai := client; trace := t |})
  = Throw (ErrorObj
             match e with
             | ErrorObj message => lit "Failed to generate content: " ++ message
             | NonError _ => lit "An unknown error occurred during content generation."
             end).
Proof.
  intros Hcfg He. unfold GeminiService.generateSocialPosts, try_catch. cbv zeta.
  erewrite bind_known by (apply getAIClient_from; exact Hcfg).
  unfold GeminiService.generateContent. rewrite bind_bind, bind_emit, He.
  rewrite bind_lift_Throw. destruct e; reflexivity.
Qed.

Lemma proxy_text_failure (E : Engine) (W : World) (words : jsstring)
  (upload : option UploadedMedia) (r : Run) (e : Thrown) :
  trim words <> [] ->
  server_configured W = true ->
  textResult W = Throw e ->
  fst (ApiGenerate.handler E W (proxy_request words upload) r)
  = Ok (ApiGenerate.respond 500
          (JsonError
             (lit "Failed to generate content: "
              ++ match e with
                 | ErrorObj message => message
                 | NonError _ => lit "An unknown error occurred"
                 end))).
Proof.
  intros Hwords Hsrv He. unfold ApiGenerate.handler, proxy_request. cbn [method body].
  change (str_eqb (lit "POST") (lit "OPTIONS")) with false.
  rewrite str_eqb_refl. cbn [negb]. cbv iota.
  unfold try_catch. rewrite bind_ret_l. cbn [idea uploadedMedia].
  rewrite (check_idea_nonblank words Hwords).
  unfold read_env at 1. rewrite bind_bind, bind_emit, bind_ret_l.
  unfold server_configured in Hsrv.
  destruct (env W (lit "GEMINI_API_KEY")) as [[|k0 k]|]; try discriminate.
  cbv zeta.
  unfold ApiGenerate.generateContent. rewrite bind_bind, bind_emit, He.
  rewrite bind_lift_Throw. destruct e; reflexivity.
Qed.

(** X4.  When the provider rejects the text call, the cycle ends there in
    both implementations: one text request went out and no image
    request.  The direct service throws an [Error] whose message is the
    provider's behind the prefix; the proxy answers 500 with that text.
    For a rejection that is no [Error] the two texts differ: the direct
    service says 'An unknown error occurred during content generation.',
    the proxy 'Failed to generate content: An unknown error occurred'. *)
Theorem rejected_text_call_is_reported (E : Engine) (W : World)
  (client : option GoogleGenAI) (words : jsstring) (upload : option UploadedMedia)
  (e : Thrown) :
  textResult W = Throw e ->
  (configured W client = true ->
   let d := GeminiService.generateSocialPosts E W words upload (start client) in
   fst d
   = Throw (ErrorObj
              match e with
              | ErrorObj message => lit "Failed to generate content: " ++ message
              | NonError _ => lit "An unknown error occurred during content generation."
              end)
   /\ text_requests (trace (snd d))
      = [text_request (GeminiService.buildPrompt words (mediaType_of upload)) upload]
   /\ image_requests (trace (snd d)) = [])
  /\
  (trim words <> [] ->
   server_configured W = true ->
   let p := ApiGenerate.handler E W (proxy_request words upload) (start None) in
   fst p
   = Ok (ApiGenerate.respond 500
           (JsonError
              (lit "Failed to generate content: "
               ++ match e with
                  | ErrorObj message => message
                  | NonError _ => lit "An unknown error occurred"
                  end)))
   /\ text_requests (trace (snd p))
      = [text_request (ApiGenerate.buildPrompt words (mediaType_of upload)) upload]
   /\ image_requests (trace (snd p)) = []).
Proof.
  intros He. split.
  - intros Hcfg d. subst d. unfold start.
    rewrite (@direct_text_failure E W client [] words upload e Hcfg He).
    rewrite (@direct_run E W client [] words upload Hcfg).
    unfold image_prompt_of. rewrite He. cbn [trace].
    destruct upload, client; repeat split.
  - intros Hwords Hsrv p. subst p.
    rewrite (@proxy_text_failure E W words upload (start None) e Hwords Hsrv He).
    rewrite (@proxy_run E W words upload (start None) Hwords Hsrv).
    unfold image_prompt_of. rewrite He. cbn [trace].
    destruct upload; repeat split.
Qed.

Lemma rejected_text_call_is_reported_witness :
  let W := {| env := env (Samples.world [] Samples.pictures);
              textResult := Throw (ErrorObj (lit "quota exceeded"));
              imageResult := Samples.pictures |} in
  fst (GeminiService.generateSocialPosts Samples.engine W Samples.friday None (start None))
  = Throw (ErrorObj (lit "Failed to generate content: quota exceeded"))
  /\ fst (ApiGenerate.handler Samples.engine W (proxy_request Samples.friday None)
            (start None))
     = Ok (ApiGenerate.respond 500
             (JsonError (lit "Failed to generate content: quota exceeded"))).
Proof.
  intros W.
  destruct (@rejected_text_call_is_reported Samples.engine W None Samples.friday None
              (ErrorObj (lit "quota exceeded")) eq_refl) as [Hd Hp].
  split.
  - apply Hd. reflexivity.
  - apply Hp; [discriminate|reflexivity].
Defined.

(** ** The posts a cycle hands over *)

Lemma startsWith_app (p s : jsstring) : startsWith (p ++ s) p = true.
Proof.
  induction p as [|c p IH]; [now destruct s|].
  cbn [app startsWith]. now rewrite N.eqb_refl, IH.
Qed.

Lemma assembled_well_formed (E : Engine) (W : World) (upload : option UploadedMedia)
  (posts : list SocialPost) :
  assembled E W upload posts -> well_formed upload posts.
Proof.
  intros (t & v & insta & li & fb & tw & cap & tags & md & _ & _ & _ & _ & _ & _ & _ & _
          & -> & Hmd).
  unfold well_formed. cbn [map platform hashtags].
  split; [reflexivity|]. split; [reflexivity|].
  destruct upload as [u|].
  - unfold uploaded_media in *. cbn [repeat] in Hmd.
    destruct md as [|m0 [|m1 [|m2 [|m3 [|? ?]]]]]; try discriminate.
    injection Hmd as H0 H1 H2 H3. subst.
    repeat constructor; cbn [media nth_error]; eexists; split; reflexivity.
  - destruct Hmd as (urls & -> & Hall).
    apply Forall2_four in Hall
      as (u0 & u1 & u2 & u3 & -> & (g0 & ? & _ & ->) & (g1 & ? & _ & ->)
          & (g2 & ? & _ & ->) & (g3 & ? & _ & ->)).
    repeat constructor; cbn [media nth_error map]; eexists;
      (split; [reflexivity|]); cbn [type url]; (split; [reflexivity|]);
      apply startsWith_app.
Qed.

(** X5.  Whatever the provider answers, a list of posts that either
    implementation hands over has the declared shape: exactly four
    posts, for LinkedIn, Facebook, Twitter and Instagram in this order;
    hashtags on the Instagram post only; and each post with media, the
    upload when there is one and a generated JPEG image otherwise.  The
    proxy sends posts with status 200 only, and only for a request that
    has a body. *)
Theorem returned_posts_are_well_formed (E : Engine) (W : World) :
  (forall words upload r posts r',
     GeminiService.generateSocialPosts E W words upload r = (Ok posts, r') ->
     well_formed upload posts)
  /\
  (forall req r resp r' posts,
     ApiGenerate.handler E W req r = (Ok resp, r') ->
     content resp = JsonPosts posts ->
     status resp = 200%Z
     /\ exists b, body req = Some b /\ well_formed (uploadedMedia b) posts).
Proof.
  split.
  - intros words upload r posts r' Hrun.
    eapply assembled_well_formed, direct_ok_inv, Hrun.
  - intros req r resp r' posts Hrun Hposts.
    destruct (str_eqb (method req) (lit "POST")) eqn:Hpost.
    + apply str_eqb_eq in Hpost. destruct req as [m [b|]]; cbn [method body] in *; subst m.
      * pose proof (handler_post_outcomes E W b r) as H. cbv zeta in H.
        rewrite Hrun in H. cbn [fst] in H.
        destruct H as [H|[H|[(posts' & H & Hasm)|(message & H)]]];
          injection H as ->; cbn [content ApiGenerate.respond] in Hposts;
          try discriminate.
        injection Hposts as <-. split; [reflexivity|].
        exists b. split; [reflexivity|]. eapply assembled_well_formed, Hasm.
      * unfold ApiGenerate.handler in Hrun. cbn [method body] in Hrun.
        change (str_eqb (lit "POST") (lit "OPTIONS")) with false in Hrun.
        rewrite str_eqb_refl in Hrun. cbn in Hrun. injection Hrun as <- _.
        discriminate.
    + unfold ApiGenerate.handler in Hrun. rewrite Hpost in Hrun.
      destruct (str_eqb (method req) (lit "OPTIONS")); cbn in Hrun;
        injection Hrun as <- _; discriminate.
Qed.

(** A cycle with an upload and a cycle without, run in full. *)
Example returned_posts_are_well_formed_runs :
  (exists posts,
     fst (GeminiService.generateSocialPosts Samples.engine
            (Samples.world Samples.partial_text Samples.pictures)
            Samples.friday (Some Samples.clip) (start None)) = Ok posts
     /\ well_formed (Some Samples.clip) posts)
  /\ (exists posts,
        fst (ApiGenerate.handler Samples.engine
               (Samples.world Samples.full_text Samples.pictures)
               (proxy_request Samples.friday None) (start None))
        = Ok (ApiGenerate.respond 200 (JsonPosts posts))
        /\ well_formed None posts).
Proof.
  split; eexists; (split; [vm_compute; reflexivity|]);
    unfold well_formed; (split; [reflexivity|]); (split; [reflexivity|]);
    repeat constructor; eexists; split; try reflexivity; split; reflexivity.
Qed.

(** ** The client of the direct service *)

(** X6.  Without a cached client and without [API_KEY] (unset or empty)
    the direct service fails before anything is sent to the provider: it
    has read [API_KEY], throws an [Error] with the message below (which
    names [GEMINI_API_KEY], not the variable that was read), and leaves
    the module without a client, so that the next call reads the
    variable again. *)
Theorem missing_client_key_is_reported (E : Engine) (W : World) (words : jsstring)
  (upload : option UploadedMedia) (t : list Event) :
  configured W None = false ->
  GeminiService.generateSocialPosts E W words upload {| ai := None; trace := t |}
  = (Throw (ErrorObj (lit "Failed to generate content: API key is not configured. Please set GEMINI_API_KEY in your environment.")),
     {| ai := None; trace := t ++ [ReadEnv (lit "API_KEY")] |}).
Proof.
  intros Hcfg. unfold GeminiService.generateSocialPosts, try_catch. cbv zeta.
  unfold GeminiService.getAIClient, get_ai at 1.
  rewrite bind_bind. unfold bind at 1. cbn [ai].
  unfold read_env. rewrite !bind_bind, bind_emit, bind_ret_l.
  unfold configured in Hcfg.
  destruct (env W (lit "API_KEY")) as [[|k0 k]|]; try discriminate; reflexivity.
Qed.

Lemma missing_client_key_is_reported_witness :
  let W := {| env := fun _ => None;
              textResult := Ok {| response_text := Samples.full_text |};
              imageResult := Samples.pictures |} in
  GeminiService.generateSocialPosts Samples.engine W Samples.friday None
    {| ai := None; trace := [] |}
  = (Throw (ErrorObj (lit "Failed to generate content: API key is not configured. Please set GEMINI_API_KEY in your environment.")),
     {| ai := None; trace := [] ++ [ReadEnv (lit "API_KEY")] |}).
Proof.
  intros W.
  apply (@missing_client_key_is_reported Samples.engine W Samples.friday None []).
  reflexivity.
Defined.

(** X7.  The client is created once.  After a first cycle that found
    [API_KEY], the module holds a client with that key, also when the
    cycle failed later on; a second cycle, in whatever environment (the
    variable may have changed or be gone), reads no environment variable
    and makes all its provider calls with the key of the first. *)
Theorem client_is_created_once (E : Engine) (W1 W2 : World) (words1 words2 : jsstring)
  (upload1 upload2 : option UploadedMedia) :
  configured W1 None = true ->
  let r1 := snd (GeminiService.generateSocialPosts E W1 words1 upload1 (start None)) in
  let r2 := snd (GeminiService.generateSocialPosts E W2 words2 upload2 r1) in
  ai r1 = Some {| apiKey := direct_key W1 None |}
  /\ ai r2 = ai r1
  /\ exists events,
       trace r2 = trace r1 ++ events
       /\ events <> []
       /\ Forall (fun ev => key_of ev = Some (direct_key W1 None)) events.
Proof.
  intros Hcfg r1 r2. subst r2 r1. unfold start.
  rewrite (@direct_run E W1 None [] words1 upload1 Hcfg).
  rewrite (@direct_run E W2 (Some {| apiKey := direct_key W1 None |}) _ words2 upload2
             eq_refl).
  cbn [ai trace direct_key apiKey].
  split; [reflexivity|]. split; [reflexivity|].
  eexists. split; [reflexivity|]. split; [discriminate|].
  cbn [app]. constructor; [reflexivity|].
  destruct (image_prompt_of E W2 words2 upload2); repeat constructor.
Qed.

Lemma client_is_created_once_witness :
  let W1 := Samples.world Samples.full_text Samples.pictures in
  let W2 := {| env := fun _ => None;
               textResult := Ok {| response_text := Samples.full_text |};
               imageResult := Samples.pictures |} in
  let r1 := snd (GeminiService.generateSocialPosts Samples.engine W1 Samples.friday None
                   (start None)) in
  let r2 := snd (GeminiService.generateSocialPosts Samples.engine W2 Samples.friday
                   (Some Samples.photo) r1) in
  ai r1 = Some {| apiKey := direct_key W1 None |}
  /\ ai r2 = ai r1
  /\ exists events,
       trace r2 = trace r1 ++ events
       /\ events <> []
       /\ Forall (fun ev => key_of ev = Some (direct_key W1 None)) events.
Proof.
  intros W1 W2.
  apply (@client_is_created_once Samples.engine W1 W2 Samples.friday Samples.friday
           None (Some Samples.photo)).
  reflexivity.
Defined.

(** X8.  Once the text response is decoded and [instagram.image_prompt]
    can be read, a cycle without upload asks for exactly four images,
    each a request for one JPEG image from the model
    [imagen-4.0-generate-001], all with the same prompt: the decoded
    [image_prompt] when it is truthy (whatever its type), and otherwise,
    when it is missing, empty or otherwise falsy, the sentence made from
    the idea.  The requests are those for LinkedIn, Facebook, Twitter
    and Instagram in this order: at the ratios 4:3, 1:1, 16:9 and 1:1
    from the direct service, and 1:1, 1:1, 16:9 and 1:1 from the proxy.
    All four go out whatever the image calls answer, a failing one
    included. *)
Theorem four_image_requests_with_one_prompt (E : Engine) (W : World)
  (client : option GoogleGenAI) (words : jsstring)
  (t : GenerateContentResponse) (v insta p : JSValue) :
  textResult W = Ok t ->
  JSON_parse E (response_text t) = Ok v ->
  get E v f_instagram = Ok insta ->
  get E insta f_image_prompt = Ok p ->
  let prompt :=
    if truthy p then p
    else JStr (lit "A visually stunning image representing: " ++ words ++ lit ".") in
  let request ratio :=
    {| gi_model := lit "imagen-4.0-generate-001";
       gi_prompt := prompt;
       gi_numberOfImages := 1;
       gi_outputMimeType := lit "image/jpeg";
       gi_aspectRatio := ratio |} in
  (configured W client = true ->
   image_requests
     (trace (snd (GeminiService.generateSocialPosts E W words None (start client))))
   = [request (lit "4:3"); request (lit "1:1"); request (lit "16:9"); request (lit "1:1")])
  /\
  (trim words <> [] ->
   server_configured W = true ->
   image_requests
     (trace (snd (ApiGenerate.handler E W (proxy_request words None) (start None))))
   = [request (lit "1:1"); request (lit "1:1"); request (lit "16:9"); request (lit "1:1")]).
Proof.
  intros Ht Hv Hi Hp prompt request.
  assert (Hq : image_prompt_of E W words None = Some prompt).
  { unfold image_prompt_of. now rewrite Ht, Hv, Hi, Hp. }
  split.
  - intros Hcfg. unfold start.
    rewrite (@direct_run E W client [] words None Hcfg), Hq.
    cbn [trace app]. destruct client; reflexivity.
  - intros Hwords Hsrv.
    rewrite (@proxy_run E W words None (start None) Hwords Hsrv), Hq.
    reflexivity.
Qed.

Lemma four_image_requests_with_one_prompt_witness :
  let W := Samples.world Samples.partial_text (fun _ => Throw (ErrorObj (lit "no quota"))) in
  let request ratio :=
    {| gi_model := lit "imagen-4.0-generate-001";
       gi_prompt :=
         JStr (lit "A visually stunning image representing: Friday pizza special.");
       gi_numberOfImages := 1;
       gi_outputMimeType := lit "image/jpeg";
       gi_aspectRatio := ratio |} in
  image_requests
    (trace (snd (GeminiService.generateSocialPosts Samples.engine W Samples.friday None
                   (start None))))
  = [request (lit "4:3"); request (lit "1:1"); request (lit "16:9"); request (lit "1:1")]
  /\ image_requests
       (trace (snd (ApiGenerate.handler Samples.engine W
                      (proxy_request Samples.friday None) (start None))))
     = [request (lit "1:1"); request (lit "1:1"); request (lit "16:9"); request (lit "1:1")].
Proof.
  intros W request.
  destruct (@four_image_requests_with_one_prompt Samples.engine W None Samples.friday
              {| response_text := Samples.partial_text |} Samples.partial_value
              (JObj [ (lit "caption", JStr (lit "C")) ]) JUndefined
              eq_refl eq_refl eq_refl eq_refl) as [Hd Hp].
  split.
  - apply Hd. reflexivity.
  - apply Hp; [discriminate|reflexivity].
Defined.

(** ** The client of the proxy *)

(** What the client does with a response whose status is not 2xx and
    whose body decodes to an object. *)
Lemma client_error_object (P : ApiService.Page) (W : World) (words : jsstring)
  (upload : option UploadedMedia) (response : ApiService.FetchResponse)
  (props : list (jsstring * JSValue)) :
  ApiService.fetch P (ApiService.API_ENDPOINT W) (ApiService.request words upload)
  = Ok response ->
  ApiService.response_ok response = false ->
  ApiService.response_json response = Ok (JObj props) ->
  ApiService.generateSocialPostsViaAPI P W words upload
  = Throw (ErrorObj
             (lit "Failed to generate content: "
              ++ ApiService.message_of P
                   (or_else (lookup (lit "error") props)
                      (JStr (lit "Server error: "
                             ++ ApiService.decimal (ApiService.response_status response)))))).
Proof.
  intros Hf Hok Hj. unfold ApiService.generateSocialPostsViaAPI.
  rewrite Hf, Hok, Hj. reflexivity.
Qed.

(** X9.  A response of the proxy whose status is outside 200-299 makes
    the client throw an [Error]; its message is, behind the prefix
    'Failed to generate content: ', the [error] of the body when that is
    a non-empty string; 'Server error: ' and the status when the body is
    an object without [error] or with an empty, [null] or otherwise falsy
    one; 'Unknown error' when the body is not JSON; and the engine's
    [TypeError] text when the body is the JSON [null]. *)
Theorem client_reports_the_error_of_the_proxy (P : ApiService.Page) (W : World)
  (words : jsstring) (upload : option UploadedMedia)
  (response : ApiService.FetchResponse) :
  ApiService.fetch P (ApiService.API_ENDPOINT W) (ApiService.request words upload)
  = Ok response ->
  ApiService.response_ok response = false ->
  let thrown message :=
    ApiService.generateSocialPostsViaAPI P W words upload
    = Throw (ErrorObj (lit "Failed to generate content: " ++ message)) in
  (forall props c s,
     ApiService.response_json response = Ok (JObj props) ->
     lookup (lit "error") props = JStr (c :: s) ->
     thrown (c :: s))
  /\ (forall props,
        ApiService.response_json response = Ok (JObj props) ->
        truthy (lookup (lit "error") props) = false ->
        thrown (lit "Server error: "
                ++ ApiService.decimal (ApiService.response_status response)))
  /\ (forall e, ApiService.response_json response = Throw e -> thrown (lit "Unknown error"))
  /\ (ApiService.response_json response = Ok JNull ->
      thrown (ApiService.read_error_message P JNull)).
Proof.
  intros Hf Hok thrown. subst thrown. cbv beta. repeat split.
  - intros props c s Hj He.
    rewrite (@client_error_object P W words upload response props Hf Hok Hj), He.
    reflexivity.
  - intros props Hj He.
    rewrite (@client_error_object P W words upload response props Hf Hok Hj).
    unfold or_else. rewrite He. reflexivity.
  - intros e Hj. unfold ApiService.generateSocialPostsViaAPI.
    rewrite Hf, Hok, Hj. reflexivity.
  - intros Hj. unfold ApiService.generateSocialPostsViaAPI.
    rewrite Hf, Hok, Hj. reflexivity.
Qed.

Lemma client_reports_the_error_of_the_proxy_witness :
  let P := {| ApiService.fetch := fun _ _ =>
                Ok {| ApiService.response_status := 502;
                      ApiService.response_json := Ok (JObj []) |};
              ApiService.read_error_message := fun _ => lit "Cannot read properties of null";
              ApiService.ToString := fun _ => lit "[object Object]" |} in
  ApiService.generateSocialPostsViaAPI P (Samples.world [] Samples.pictures)
    Samples.friday None
  = Throw (ErrorObj (lit "Failed to generate content: Server error: 502")).
Proof.
  intros P.
  destruct (@client_reports_the_error_of_the_proxy P (Samples.world [] Samples.pictures)
              Samples.friday None
              {| ApiService.response_status := 502;
                 ApiService.response_json := Ok (JObj []) |}
              eq_refl eq_refl) as (_ & H & _).
  apply (H []); reflexivity.
Defined.

(** X10.  The client returns exactly when [fetch] resolves with a status
    in 200-299 and a body that is JSON, and then it returns the decoded
    body as it is, whatever it is: nothing checks that it is a list of
    posts.  Every failure is an [Error]; a rejected [fetch] (the network
    is down) gives its message behind the prefix. *)
Theorem client_returns_the_body_unchecked (P : ApiService.Page) (W : World)
  (words : jsstring) (upload : option UploadedMedia) :
  let sent :=
    ApiService.fetch P (ApiService.API_ENDPOINT W) (ApiService.request words upload) in
  let out := ApiService.generateSocialPostsViaAPI P W words upload in
  (forall data,
     out = Ok data
     <-> exists response,
           sent = Ok response
           /\ ApiService.response_ok response = true
           /\ ApiService.response_json response = Ok data)
  /\ (forall e, out = Throw e -> exists message, e = ErrorObj message)
  /\ (forall message,
        sent = Throw (ErrorObj message) ->
        out = Throw (ErrorObj (lit "Failed to generate content: " ++ message))).
Proof.
  intros sent out. subst sent out. unfold ApiService.generateSocialPostsViaAPI.
  destruct (ApiService.fetch P (ApiService.API_ENDPOINT W)
              (ApiService.request words upload)) as [response|[m|x]].
  - destruct (ApiService.response_ok response) eqn:Hok; cbn [negb].
    + destruct (ApiService.response_json response) as [v|[m|x]] eqn:Hj.
      * repeat split; try discriminate.
        -- intros H. injection H as <-. eauto.
        -- intros (response' & H & _ & Hj'). injection H as <-.
           rewrite Hj in Hj'. exact Hj'.
      * repeat split; try discriminate.
        -- intros (response' & H & _ & Hj'). injection H as <-. congruence.
        -- intros e H. injection H as <-. eauto.
      * repeat split; try discriminate.
        -- intros (response' & H & _ & Hj'). injection H as <-. congruence.
        -- intros e H. injection H as <-. eauto.
    + assert (Hno : forall data,
                (exists response',
                   Ok response = Ok response'
                   /\ ApiService.response_ok response' = true
                   /\ ApiService.response_json response' = Ok data) -> False).
      { intros data (response' & H & Hok' & _). injection H as <-. congruence. }
      destruct (ApiService.get_error P
                  match ApiService.response_json response with
                  | Ok v => v
                  | Throw _ => JObj [(lit "error", JStr (lit "Unknown error"))]
                  end) as [err|[m|x]];
        repeat split; try discriminate;
        try (intros H; exfalso; eapply Hno; exact H);
        try (intros e H; injection H as <-; eauto).
  - repeat split; try discriminate.
    + intros (response' & H & _). discriminate.
    + intros e H. injection H as <-. eauto.
    + intros message H. injection H as ->. reflexivity.
  - repeat split; try discriminate.
    + intros (response' & H & _). discriminate.
    + intros e H. injection H as <-. eauto.
Qed.

(** ** From the proxy to the page *)

(** The client, given an answer of the proxy that carries an error. *)
Lemma client_of_proxy_error (P : ApiService.Page) (W : World) (words : jsstring)
  (upload : option UploadedMedia) (got : ApiService.FetchResponse)
  (s : Z) (c : N) (message : jsstring) :
  ApiService.fetch P (ApiService.API_ENDPOINT W) (ApiService.request words upload)
  = Ok got ->
  delivered (ApiGenerate.respond s (JsonError (c :: message))) got ->
  (s = 400 \/ s = 500)%Z ->
  ApiService.generateSocialPostsViaAPI P W words upload
  = Throw (ErrorObj (lit "Failed to generate content: " ++ c :: message)).
Proof.
  intros Hf [Hs Hj] Hcode. cbn [status content ApiGenerate.respond] in *.
  specialize (Hj _ eq_refl).
  assert (Hok : ApiService.response_ok got = false).
  { unfold ApiService.response_ok. rewrite Hs. now destruct Hcode as [-> | ->]. }
  rewrite (@client_error_object P W words upload got _ Hf Hok Hj).
  reflexivity.
Qed.

(** The proxy's answers to the request of the client, other than 200. *)
Lemma proxy_errors (E : Engine) (W : World) (words : jsstring)
  (upload : option UploadedMedia) (r : Run) (resp : Response) :
  fst (ApiGenerate.handler E W (proxy_request words upload) r) = Ok resp ->
  status resp <> 200%Z ->
  exists s c message,
    resp = ApiGenerate.respond s (JsonError (c :: message))
    /\ (s = 400 \/ s = 500)%Z.
Proof.
  intros Hrun Hs. unfold proxy_request in Hrun.
  pose proof (handler_post_outcomes E W {| idea := JStr words; uploadedMedia := upload |} r)
    as H.
  cbv zeta in H. rewrite Hrun in H.
  destruct H as [H|[H|[(posts & H & _)|(message & H)]]]; injection H as ->.
  - do 3 eexists. split; [reflexivity|now left].
  - do 3 eexists. split; [reflexivity|now right].
  - now contradiction Hs.
  - do 3 eexists. split; [reflexivity|now right].
Qed.

(** X11.  What the proxy refuses or fails at reaches the page as an
    [Error].  The client sends the proxy the idea and the media as they
    are; when the proxy answers anything but 200 (400 for a blank idea,
    500 without a key or after a failure), and the answer is delivered
    as sent, the client throws an [Error] whose message is the proxy's
    error text behind 'Failed to generate content: '.  After a failure
    on the proxy's side, whose text has that prefix already, the message
    carries the prefix twice. *)
Theorem proxy_error_reaches_the_page (P : ApiService.Page) (Wpage : World)
  (E : Engine) (Wserver : World) (words : jsstring) (upload : option UploadedMedia)
  (r : Run) (resp : Response) (got : ApiService.FetchResponse) :
  fst (ApiGenerate.handler E Wserver
         {| method := ApiService.init_method (ApiService.request words upload);
            body := Some (ApiService.init_body (ApiService.request words upload)) |} r)
  = Ok resp ->
  ApiService.fetch P (ApiService.API_ENDPOINT Wpage) (ApiService.request words upload)
  = Ok got ->
  delivered resp got ->
  status resp <> 200%Z ->
  (exists message,
     content resp = JsonError message
     /\ ApiService.generateSocialPostsViaAPI P Wpage words upload
        = Throw (ErrorObj (lit "Failed to generate content: " ++ message)))
  /\ (forall message,
        trim words <> [] ->
        server_configured Wserver = true ->
        textResult Wserver = Throw (ErrorObj message) ->
        ApiService.generateSocialPostsViaAPI P Wpage words upload
        = Throw (ErrorObj (lit "Failed to generate content: "
                           ++ lit "Failed to generate content: " ++ message))).
Proof.
  intros Hrun Hf Hd Hs.
  change {| method := ApiService.init_method (ApiService.request words upload);
            body := Some (ApiService.init_body (ApiService.request words upload)) |}
    with (proxy_request words upload) in Hrun.
  destruct (@proxy_errors E Wserver words upload r resp Hrun Hs)
    as (s & c & message & -> & Hcode).
  pose proof (@client_of_proxy_error P Wpage words upload got s c message Hf Hd Hcode)
    as Hout.
  split.
  - eexists. split; [reflexivity|exact Hout].
  - intros message' Hwords Hsrv Ht.
    rewrite (@proxy_text_failure E Wserver words upload r _ Hwords Hsrv Ht) in Hrun.
    unfold ApiGenerate.respond in Hrun.
    assert (Hm : c :: message = lit "Failed to generate content: " ++ message')
      by congruence.
    rewrite Hout, Hm. reflexivity.
Qed.

Lemma proxy_error_reaches_the_page_witness :
  let Wserver := {| env := env (Samples.world [] Samples.pictures);
                    textResult := Throw (ErrorObj (lit "quota exceeded"));
                    imageResult := Samples.pictures |} in
  let Wpage := {| env := fun _ => None;
                  textResult := Throw (ErrorObj (lit "not used"));
                  imageResult := Samples.pictures |} in
  let P := {| ApiService.fetch := fun _ _ =>
                Ok {| ApiService.response_status := 500;
                      ApiService.response_json :=
                        Ok (JObj [(lit "error",
                                   JStr (lit "Failed to generate content: quota exceeded"))]) |};
              ApiService.read_error_message := fun _ => lit "Cannot read properties of null";
              ApiService.ToString := fun _ => lit "[object Object]" |} in
  ApiService.generateSocialPostsViaAPI P Wpage Samples.friday None
  = Throw (ErrorObj (lit "Failed to generate content: Failed to generate content: quota exceeded")).
Proof.
  intros Wserver Wpage P.
  refine (proj2 (@proxy_error_reaches_the_page P Wpage Samples.engine Wserver
                   Samples.friday None (start None)
                   (ApiGenerate.respond 500
                      (JsonError (lit "Failed to generate content: quota exceeded")))
                   {| ApiService.response_status := 500;
                      ApiService.response_json :=
                        Ok (JObj [(lit "error",
                                   JStr (lit "Failed to generate content: quota exceeded"))]) |}
                   eq_refl eq_refl _ _) (lit "quota exceeded") _ eq_refl eq_refl).
  - split; [reflexivity|]. intros message H. injection H as <-. reflexivity.
  - discriminate.
  - discriminate.
Defined.

(** ** The generation handler of the application *)

(** The handler on an idea that is not blank: [API_KEY] is read, and the
    service it selects is run. *)
Lemma handleGenerate_run (P : ApiService.Page) (E : Engine) (W : World)
  (st : App.State) (r : Run) :
  trim (App.idea st) <> [] ->
  let r1 := {| ai := ai r; trace := trace r ++ [ReadEnv (lit "API_KEY")] |} in
  App.handleGenerate P E W st r
  = if configured W None then
      let d := GeminiService.generateSocialPosts E W (App.idea st) (App.uploadedMedia st) r1 in
      (Ok (settled st (via_service (fst d))), snd d)
    else
      (Ok (settled st
             (via_proxy (ApiService.generateSocialPostsViaAPI P W (App.idea st)
                           (App.uploadedMedia st)))), r1).
Proof.
  intros Hidea r1. unfold App.handleGenerate.
  destruct (trim (App.idea st)) as [|c s]; [now contradiction Hidea|].
  cbv zeta. unfold bind at 1, try_catch.
  unfold read_env. rewrite !bind_bind, bind_emit, bind_ret_l.
  fold r1. unfold configured.
  change (App.idea (App.setPosts None (App.setError None (App.setIsLoading true st))))
    with (App.idea st).
  change (App.uploadedMedia (App.setPosts None (App.setError None (App.setIsLoading true st))))
    with (App.uploadedMedia st).
  destruct (env W (lit "API_KEY")) as [[|k0 k]|].
  - rewrite bind_bind.
    destruct (ApiService.generateSocialPostsViaAPI P W (App.idea st) (App.uploadedMedia st))
      as [data|[m|x]];
      [rewrite bind_lift_Ok|rewrite bind_lift_Throw|rewrite bind_lift_Throw]; reflexivity.
  - unfold bind.
    destruct (GeminiService.generateSocialPosts E W (App.idea st) (App.uploadedMedia st) r1)
      as [[posts|[m|x]] r2]; reflexivity.
  - rewrite bind_bind.
    destruct (ApiService.generateSocialPostsViaAPI P W (App.idea st) (App.uploadedMedia st))
      as [data|[m|x]];
      [rewrite bind_lift_Ok|rewrite bind_lift_Throw|rewrite bind_lift_Throw]; reflexivity.
Qed.

(** X12.  A blank idea (empty, or white space only) is not generated:
    the handler sets the error 'Please enter an idea to generate
    content.' and returns; the loading flag, the media and the posts
    shown before stay as they were, no environment variable is read and
    no service is called. *)
Theorem blank_idea_is_not_generated (P : ApiService.Page) (E : Engine) (W : World)
  (st : App.State) (r : Run) :
  forallb is_white_space (App.idea st) = true ->
  App.handleGenerate P E W st r
  = (Ok {| App.idea := App.idea st;
           App.uploadedMedia := App.uploadedMedia st;
           App.posts := App.posts st;
           App.isLoading := App.isLoading st;
           App.error := Some (lit "Please enter an idea to generate content.") |}, r).
Proof.
  intros H. unfold App.handleGenerate. rewrite (trim_blank _ H). reflexivity.
Qed.

Lemma blank_idea_is_not_generated_witness :
  let st := {| App.idea := lit "   "; App.uploadedMedia := Some Samples.photo;
               App.posts := Some (App.FromProxy JNull); App.isLoading := false;
               App.error := None |} in
  App.handleGenerate
    {| ApiService.fetch := fun _ _ => Throw (ErrorObj (lit "Failed to fetch"));
       ApiService.read_error_message := fun _ => [];
       ApiService.ToString := fun _ => [] |}
    Samples.engine (Samples.world Samples.full_text Samples.pictures) st (start None)
  = (Ok {| App.idea := lit "   "; App.uploadedMedia := Some Samples.photo;
           App.posts := Some (App.FromProxy JNull); App.isLoading := false;
           App.error := Some (lit "Please enter an idea to generate content.") |},
     start None).
Proof.
  intros st.
  apply (@blank_idea_is_not_generated
           {| ApiService.fetch := fun _ _ => Throw (ErrorObj (lit "Failed to fetch"));
              ApiService.read_error_message := fun _ => [];
              ApiService.ToString := fun _ => [] |}
           Samples.engine (Samples.world Samples.full_text Samples.pictures) st
           (start None)).
  reflexivity.
Defined.

(** X13.  With an idea that is not blank the handler always settles: it
    never throws, whatever the service it calls does; afterwards the
    loading flag is off, the idea and the media are untouched, and
    either posts are held and no error, or an error and no posts. *)
Theorem generation_always_settles (P : ApiService.Page) (E : Engine) (W : World)
  (st : App.State) (r : Run) :
  trim (App.idea st) <> [] ->
  exists st' r',
    App.handleGenerate P E W st r = (Ok st', r')
    /\ App.isLoading st' = false
    /\ App.idea st' = App.idea st
    /\ App.uploadedMedia st' = App.uploadedMedia st
    /\ ((exists p, App.posts st' = Some p /\ App.error st' = None)
        \/ (exists message, App.posts st' = None /\ App.error st' = Some message)).
Proof.
  intros Hidea. rewrite (@handleGenerate_run P E W st r Hidea). cbv zeta.
  destruct (configured W None).
  - destruct (GeminiService.generateSocialPosts E W (App.idea st) (App.uploadedMedia st) _)
      as [[posts|[m|x]] r2]; do 2 eexists; (split; [reflexivity|]);
      cbn; repeat split; eauto.
  - destruct (ApiService.generateSocialPostsViaAPI P W (App.idea st) (App.uploadedMedia st))
      as [data|[m|x]]; do 2 eexists; (split; [reflexivity|]);
      cbn; repeat split; eauto.
Qed.

Lemma generation_always_settles_witness :
  let st := {| App.idea := Samples.friday; App.uploadedMedia := None;
               App.posts := None; App.isLoading := false; App.error := None |} in
  exists st' r',
    App.handleGenerate
      {| ApiService.fetch := fun _ _ => Throw (ErrorObj (lit "Failed to fetch"));
         ApiService.read_error_message := fun _ => [];
         ApiService.ToString := fun _ => [] |}
      Samples.engine (Samples.world Samples.full_text Samples.pictures) st (start None)
    = (Ok st', r')
    /\ App.isLoading st' = false
    /\ App.idea st' = App.idea st
    /\ App.uploadedMedia st' = App.uploadedMedia st
    /\ ((exists p, App.posts st' = Some p /\ App.error st' = None)
        \/ (exists message, App.posts st' = None /\ App.error st' = Some message)).
Proof.
  intros st.
  apply (@generation_always_settles
           {| ApiService.fetch := fun _ _ => Throw (ErrorObj (lit "Failed to fetch"));
              ApiService.read_error_message := fun _ => [];
              ApiService.ToString := fun _ => [] |}
           Samples.engine (Samples.world Samples.full_text Samples.pictures) st
           (start None)).
  discriminate.
Defined.

(** X14.  The mode follows [API_KEY] as the page sees it.  When it is
    unset or empty the page goes through the proxy: its run has read
    [API_KEY] and nothing else, no client is created and no provider call
    is made from the page; the posts held are the body the client
    returned, or the error is the client's message.  When it is set the
    direct service is called, and its own check of the key cannot fail:
    a text request goes out to the provider, with the cached client's key
    if there is one and the value of [API_KEY] otherwise. *)
Theorem mode_follows_the_key (P : ApiService.Page) (E : Engine) (W : World)
  (st : App.State) (r : Run) :
  trim (App.idea st) <> [] ->
  (configured W None = false ->
   App.handleGenerate P E W st r
   = (Ok (settled st
            (via_proxy (ApiService.generateSocialPostsViaAPI P W (App.idea st)
                          (App.uploadedMedia st)))),
      {| ai := ai r; trace := trace r ++ [ReadEnv (lit "API_KEY")] |}))
  /\
  (configured W None = true ->
   let r1 := {| ai := ai r; trace := trace r ++ [ReadEnv (lit "API_KEY")] |} in
   let d := GeminiService.generateSocialPosts E W (App.idea st) (App.uploadedMedia st) r1 in
   App.handleGenerate P E W st r = (Ok (settled st (via_service (fst d))), snd d)
   /\ ai (snd d) = Some {| apiKey := direct_key W (ai r) |}
   /\ text_requests (trace (snd d))
      = text_requests (trace r)
        ++ [text_request
              (GeminiService.buildPrompt (App.idea st)
                 (mediaType_of (App.uploadedMedia st)))
              (App.uploadedMedia st)]).
Proof.
  intros Hidea. split; intros Hcfg.
  - rewrite (@handleGenerate_run P E W st r Hidea). cbv zeta. now rewrite Hcfg.
  - intros r1 d. split.
    { rewrite (@handleGenerate_run P E W st r Hidea). cbv zeta. now rewrite Hcfg. }
    assert (Hcfg' : configured W (ai r) = true) by (destruct (ai r); [reflexivity|exact Hcfg]).
    subst d r1.
    rewrite (@direct_run E W (ai r) _ (App.idea st) (App.uploadedMedia st) Hcfg').
    cbn [ai trace]. split; [reflexivity|].
    unfold text_requests. rewrite !flat_map_app. cbn [flat_map].
    rewrite app_nil_l.
    assert (Hno : forall k q,
              flat_map (fun ev => match ev with CallGenerateContent _ q => [q] | _ => [] end)
                (map (fun platform => CallGenerateImages k (GeminiService.image_request q platform))
                   Constants.PLATFORMS) = []) by reflexivity.
    destruct (ai r), (image_prompt_of E W (App.idea st) (App.uploadedMedia st));
      cbn [flat_map app]; rewrite ?Hno, ?app_nil_r; reflexivity.
Qed.

Lemma mode_follows_the_key_witness :
  let P := {| ApiService.fetch := fun _ _ => Throw (ErrorObj (lit "Failed to fetch"));
              ApiService.read_error_message := fun _ => [];
              ApiService.ToString := fun _ => [] |} in
  let W := {| env := fun _ => None;
              textResult := Ok {| response_text := Samples.full_text |};
              imageResult := Samples.pictures |} in
  let st := {| App.idea := Samples.friday; App.uploadedMedia := None;
               App.posts := None; App.isLoading := false; App.error := None |} in
  App.handleGenerate P Samples.engine W st (start None)
  = (Ok (settled st
           (via_proxy (ApiService.generateSocialPostsViaAPI P W (App.idea st)
                         (App.uploadedMedia st)))),
     {| ai := None; trace := [ReadEnv (lit "API_KEY")] |}).
Proof.
  intros P W st.
  refine (proj1 (@mode_follows_the_key P Samples.engine W st (start None) _) eq_refl).
  discriminate.
Defined.

(** X15.  The same failure, two messages.  When the provider rejects the
    text call with an [Error], the page shows 'Failed to generate
    content: ' and the provider's message in direct mode; in proxied
    mode, where the proxy has added the prefix and the client adds it
    again, it shows the prefix twice.  In both modes the posts are
    cleared and the loading flag is off. *)
Theorem same_failure_two_messages (P : ApiService.Page) (E : Engine)
  (Wpage Wserver : World) (st : App.State) (r rs : Run)
  (got : ApiService.FetchResponse) (message : jsstring) :
  trim (App.idea st) <> [] ->
  (configured Wpage None = true ->
   textResult Wpage = Throw (ErrorObj message) ->
   fst (App.handleGenerate P E Wpage st r)
   = Ok {| App.idea := App.idea st;
           App.uploadedMedia := App.uploadedMedia st;
           App.posts := None;
           App.isLoading := false;
           App.error := Some (lit "Failed to generate content: " ++ message) |})
  /\
  (configured Wpage None = false ->
   server_configured Wserver = true ->
   textResult Wserver = Throw (ErrorObj message) ->
   ApiService.fetch P (ApiService.API_ENDPOINT Wpage)
     (ApiService.request (App.idea st) (App.uploadedMedia st)) = Ok got ->
   (forall resp,
      fst (ApiGenerate.handler E Wserver
             (proxy_request (App.idea st) (App.uploadedMedia st)) rs) = Ok resp ->
      delivered resp got) ->
   fst (App.handleGenerate P E Wpage st r)
   = Ok {| App.idea := App.idea st;
           App.uploadedMedia := App.uploadedMedia st;
           App.posts := None;
           App.isLoading := false;
           App.error := Some (lit "Failed to generate content: "
                              ++ lit "Failed to generate content: " ++ message) |}).
Proof.
  intros Hidea. split.
  - intros Hcfg Ht.
    rewrite (@handleGenerate_run P E Wpage st r Hidea). cbv zeta. rewrite Hcfg.
    cbn [fst].
    assert (Hcfg' : configured Wpage (ai r) = true)
      by (destruct (ai r); [reflexivity|exact Hcfg]).
    rewrite (@direct_text_failure E Wpage (ai r) _ (App.idea st) (App.uploadedMedia st)
               _ Hcfg' Ht).
    reflexivity.
  - intros Hcfg Hsrv Ht Hf Hd.
    rewrite (@handleGenerate_run P E Wpage st r Hidea). cbv zeta. rewrite Hcfg.
    cbn [fst].
    pose proof (@proxy_text_failure E Wserver (App.idea st) (App.uploadedMedia st) rs _
                  Hidea Hsrv Ht) as Hp.
    cbv beta iota in Hp. specialize (Hd _ Hp).
    assert (Hm : exists c rest,
               lit "Failed to generate content: " ++ message = c :: rest)
      by (do 2 eexists; reflexivity).
    destruct Hm as (c & rest & Hm). rewrite Hm in Hd.
    rewrite (@client_of_proxy_error P Wpage (App.idea st) (App.uploadedMedia st) got
               500 c rest Hf Hd (or_intror eq_refl)).
    rewrite <- Hm. reflexivity.
Qed.

Lemma same_failure_two_messages_witness :
  let P := {| ApiService.fetch := fun _ _ =>
                Ok {| ApiService.response_status := 500;
                      ApiService.response_json :=
                        Ok (JObj [(lit "error",
                                   JStr (lit "Failed to generate content: quota exceeded"))]) |};
              ApiService.read_error_message := fun _ => [];
              ApiService.ToString := fun _ => [] |} in
  let Wserver := {| env := env (Samples.world [] Samples.pictures);
                    textResult := Throw (ErrorObj (lit "quota exceeded"));
                    imageResult := Samples.pictures |} in
  let Wpage := {| env := fun _ => None;
                  textResult := Throw (ErrorObj (lit "quota exceeded"));
                  imageResult := Samples.pictures |} in
  let st := {| App.idea := Samples.friday; App.uploadedMedia := None;
               App.posts := None; App.isLoading := false; App.error := None |} in
  fst (App.handleGenerate P Samples.engine Wserver st (start None))
  = Ok {| App.idea := Samples.friday; App.uploadedMedia := None; App.posts := None;
          App.isLoading := false;
          App.error := Some (lit "Failed to generate content: quota exceeded") |}
  /\ fst (App.handleGenerate P Samples.engine Wpage st (start None))
     = Ok {| App.idea := Samples.friday; App.uploadedMedia := None; App.posts := None;
             App.isLoading := false;
             App.error := Some (lit "Failed to generate content: Failed to generate content: quota exceeded") |}.
Proof.
  intros P Wserver Wpage st. split.
  - refine (proj1 (@same_failure_two_messages P Samples.engine Wserver Wserver st
                     (start None) (start None)
                     {| ApiService.response_status := 500;
                        ApiService.response_json := Ok JNull |}
                     (lit "quota exceeded") _) eq_refl eq_refl).
    discriminate.
  - refine (proj2 (@same_failure_two_messages P Samples.engine Wpage Wserver st
                     (start None) (start None)
                     {| ApiService.response_status := 500;
                        ApiService.response_json :=
                          Ok (JObj [(lit "error",
                                     JStr (lit "Failed to generate content: quota exceeded"))]) |}
                     (lit "quota exceeded") _) eq_refl eq_refl eq_refl eq_refl _).
    + discriminate.
    + intros resp H. vm_compute in H. injection H as <-.
      split; [reflexivity|]. intros m Hm. injection Hm as <-. reflexivity.
Defined.

(** ** Media preparation: what is accepted *)

(** X16.  [compressImage] always settles.  It rejects with one of three
    messages, when the file cannot be read, the image cannot be decoded
    or no 2d context is available; otherwise it resolves, after at most
    five reductions of the quality, with a JPEG: the encoding of the
    canvas, sized as the downscaling says, at one of six qualities, and
    within the target size unless the lowest of them was reached. *)
Theorem compression_always_settles (B : Browser) (f : File) :
  (exists m src w h q,
     InputSection.compressImage B f = Resolved m
     /\ mimeType m = lit "image/jpeg"
     /\ readAsDataURL B f = Some src
     /\ loadImage B src = Some (w, h)
     /\ has_2d_context B = true
     /\ In q [Quality.q0; Quality.q1; Quality.q2; Quality.q3; Quality.q4; Quality.q5]
     /\ base64 m
        = payload
            (toDataURL B
               {| source := src;
                  drawn_width := fst (InputSection.scaled_size w h);
                  drawn_height := snd (InputSection.scaled_size w h);
                  canvas_width := fst (InputSection.canvas_size w h);
                  canvas_height := snd (InputSection.canvas_size w h) |} q)
     /\ (InputSection.too_large (base64 m) = false \/ q = Quality.q5))
  \/ (exists message,
        InputSection.compressImage B f = Rejected (ErrorObj message)
        /\ In message [lit "Failed to read file"; lit "Failed to load image";
                       lit "Could not get canvas context"]).
Proof.
  unfold InputSection.compressImage.
  destruct (readAsDataURL B f) as [src|] eqn:Hread; [|right; eexists; split; [reflexivity|simpl; tauto]].
  destruct (loadImage B src) as [[w h]|] eqn:Hload;
    [|right; eexists; split; [reflexivity|simpl; tauto]].
  destruct (has_2d_context B) eqn:Hctx; cbn [negb];
    [|right; eexists; split; [reflexivity|simpl; tauto]].
  left. destruct (InputSection.scaled_size w h) as [width height] eqn:Hs. cbn [fst snd].
  destruct (compression_loop_terminates
              (fun q => payload
                          (toDataURL B
                             {| source := src; drawn_width := width; drawn_height := height;
                                canvas_width := fst (InputSection.canvas_size w h);
                                canvas_height := snd (InputSection.canvas_size w h) |} q)))
    as (quality & b64 & asked & -> & Hb & _ & Hq & Hsize).
  exists {| base64 := b64; mimeType := lit "image/jpeg" |}, src, w, h, quality.
  cbn [base64 mimeType]. rewrite Hs. repeat split; auto.
Qed.

(** X17.  The canvas is never larger than the image nor than 2048 by
    2048: nothing is scaled up.  A side of the canvas is 0 exactly when
    that side of the image is 0 or is less than 1/2048 of the other
    side, in which case the scaled side rounds down to no pixel at
    all.  (On the exact model of the scaling, as for the downscaling
    above.) *)
Theorem canvas_never_exceeds_the_image (w h : N) :
  let W := Z.of_N w in
  let H := Z.of_N h in
  let cw := fst (InputSection.canvas_size w h) in
  let ch := snd (InputSection.canvas_size w h) in
  (0 <= cw <= Z.min W 2048)%Z
  /\ (0 <= ch <= Z.min H 2048)%Z
  /\ (cw = 0 <-> W = 0 \/ W * 2048 < H)%Z
  /\ (ch = 0 <-> H = 0 \/ H * 2048 < W)%Z.
Proof.
  intros W H cw ch.
  assert (HW : (0 <= W)%Z) by apply N2Z.is_nonneg.
  assert (HH : (0 <= H)%Z) by apply N2Z.is_nonneg.
  subst cw ch.
  unfold InputSection.canvas_size, InputSection.scaled_size, InputSection.MAX_DIMENSION.
  fold W H.
  destruct ((2048 <? W) || (2048 <? H))%Z eqn:Hcond.
  - apply orb_true_iff in Hcond. rewrite !Z.ltb_lt in Hcond.
    destruct (H <? W)%Z eqn:Hlt.
    + apply Z.ltb_lt in Hlt. cbn [fst snd]. rewrite Qfloor_Z, Qfloor_scaled.
      assert (HW0 : (0 < W)%Z) by lia.
      assert (Hq : (H * 2048 / W <= 2048)%Z) by (apply Z.div_le_upper_bound; lia).
      assert (Hq' : (H * 2048 / W <= H)%Z) by (apply Z.div_le_upper_bound; nia).
      assert (Hq0 : (0 <= H * 2048 / W)%Z) by (apply Z.div_pos; lia).
      assert (Hz : (H * 2048 / W = 0 <-> H * 2048 < W)%Z).
      { rewrite Z.div_small_iff by lia. lia. }
      repeat split; try lia.
    + apply Z.ltb_ge in Hlt. cbn [fst snd]. rewrite Qfloor_Z, Qfloor_scaled.
      assert (HH0 : (0 < H)%Z) by lia.
      assert (Hq : (W * 2048 / H <= 2048)%Z) by (apply Z.div_le_upper_bound; lia).
      assert (Hq' : (W * 2048 / H <= W)%Z) by (apply Z.div_le_upper_bound; nia).
      assert (Hq0 : (0 <= W * 2048 / H)%Z) by (apply Z.div_pos; lia).
      assert (Hz : (W * 2048 / H = 0 <-> W * 2048 < H)%Z).
      { rewrite Z.div_small_iff by lia. lia. }
      repeat split; try lia.
  - apply orb_false_iff in Hcond. rewrite !Z.ltb_ge in Hcond.
    cbn [fst snd]. rewrite !Qfloor_Z. repeat split; try lia.
Qed.

(** An image of 4096 by 1 gets a canvas of height 0. *)
Example canvas_of_a_thin_image :
  InputSection.canvas_size 4096 1 = (2048, 0)%Z.
Proof. vm_compute. reflexivity. Qed.

(** ** The media the form holds *)

Lemma includes_In (xs : list jsstring) (s : jsstring) :
  includes xs s = true -> In s xs.
Proof.
  unfold includes. intros H. apply existsb_exists in H as (x & Hx & Heq).
  apply str_eqb_eq in Heq. now subst x.
Qed.

Lemma holds_only_alert (types : list jsstring) (msg : jsstring) (st : Form) :
  holds_only types st -> holds_only types (alert msg st).
Proof. intros H. exact H. Qed.

Lemma holds_only_set (types : list jsstring) (m : UploadedMedia) (st : Form) :
  In (mimeType m) types ->
  holds_only types st -> holds_only types (setUploadedMedia (Some m) st).
Proof.
  intros Hm [H1 H2]. split; cbn [setUploadedMedia uploadedMedia_state updates].
  - intros m' H. now injection H as <-.
  - intros m' H. apply in_app_or in H as [H|[H|[]]]; [now apply H2|].
    now injection H as <-.
Qed.

Lemma holds_only_remove (types : list jsstring) (st : Form) :
  holds_only types st -> holds_only types (setUploadedMedia None st).
Proof.
  intros [H1 H2]. split; cbn [setUploadedMedia uploadedMedia_state updates].
  - discriminate.
  - intros m' H. apply in_app_or in H as [H|[H|[]]]; [now apply H2|discriminate].
Qed.

(** The types the compressing form can come to hold. *)
Lemma processFile_holds_only (B : Browser) (file : option File) (st : Form) :
  holds_only [lit "image/jpeg"; lit "video/mp4"; lit "video/webm"] st ->
  holds_only [lit "image/jpeg"; lit "video/mp4"; lit "video/webm"]
    (InputSection.processFile B file st).
Proof.
  intros Hst. unfold InputSection.processFile. destruct file as [f|]; [|exact Hst].
  cbv zeta.
  destruct (100 * 1024 * 1024 <? size f)%Z; [exact Hst|].
  destruct (includes InputSection.acceptedTypes (file_type f)) eqn:Hacc; cbn [negb];
    [|exact Hst].
  destruct (startsWith (file_type f) (lit "image/")) eqn:Himg.
  - assert (Hc : forall m, InputSection.compressImage B f = Resolved m ->
                           mimeType m = lit "image/jpeg").
    { unfold InputSection.compressImage. intros m.
      destruct (readAsDataURL B f); [|discriminate].
      destruct (loadImage B d) as [[w h]|]; [|discriminate].
      destruct (negb (has_2d_context B)); [discriminate|].
      destruct (InputSection.scaled_size w h).
      destruct (InputSection.compression_loop _ _) as [[[? ?] ?]|]; [|discriminate].
      intros H. now injection H as <-. }
    destruct (InputSection.compressImage B f) as [m| |]; try exact Hst.
    apply holds_only_set; [|exact Hst]. rewrite (Hc m eq_refl). now left.
  - destruct (readAsDataURL B f) as [d|]; [|exact Hst].
    apply holds_only_set; [|exact Hst]. cbn [mimeType].
    apply includes_In in Hacc. unfold InputSection.acceptedTypes in Hacc.
    destruct Hacc as [H|[H|[H|[H|[H|[H|[H|[]]]]]]]]; rewrite <- H in *;
      try discriminate; simpl; tauto.
Qed.

Lemma processFile_plain_holds_only (B : Browser) (file : option File) (st : Form) :
  holds_only InputSectionPlain.acceptedTypes st ->
  holds_only InputSectionPlain.acceptedTypes (InputSectionPlain.processFile B file st).
Proof.
  intros Hst. unfold InputSectionPlain.processFile. destruct file as [f|]; [|exact Hst].
  cbv zeta.
  destruct (20 * 1024 * 1024 <? size f)%Z; [exact Hst|].
  destruct (includes InputSectionPlain.acceptedTypes (file_type f)) eqn:Hacc; cbn [negb];
    [|exact Hst].
  destruct (readAsDataURL B f) as [d|]; [|exact Hst].
  apply holds_only_set; [|exact Hst]. cbn [mimeType]. now apply includes_In.
Qed.

Lemma paste_loop_holds_only (types : list jsstring)
  (processFile : option File -> Form -> Form) (items : list DataTransferItem)
  (st : Form) :
  (forall file st, holds_only types st -> holds_only types (processFile file st)) ->
  holds_only types st ->
  holds_only types (fst (paste_loop processFile items st)).
Proof.
  intros Hp Hst. induction items as [|item items IH]; cbn [paste_loop]; [exact Hst|].
  destruct (str_eqb (kind item) (lit "file") && startsWith (item_type item) (lit "image/"));
    [destruct (getAsFile item)|]; cbn [fst]; auto.
Qed.

Lemma act_holds_only (types : list jsstring)
  (processFile : option File -> Form -> Form) (a : FormAction) (st : Form) :
  (forall file st, holds_only types st -> holds_only types (processFile file st)) ->
  holds_only types st ->
  holds_only types (act processFile a st).
Proof.
  intros Hp Hst. destruct a as [files|loading clip|loading files|]; cbn [act].
  - now apply Hp.
  - unfold handlePaste. destruct loading; [exact Hst|].
    destruct clip as [items|]; [|exact Hst]. now apply paste_loop_holds_only.
  - unfold handleDrop. destruct loading; [exact Hst|].
    destruct files as [[|file rest]|]; cbn [fst]; auto.
  - now apply holds_only_remove.
Qed.

(** X18.  Whatever the user does to the form, in whatever order (picking
    files, pasting, dropping, removing), the media it holds and every
    media it hands to the application has a type of a fixed list: in the
    compressing form [image/jpeg], [video/mp4] or [video/webm], since
    every accepted image is re-encoded as JPEG; in the plain form one of
    the five accepted types.  For such media the kind sent along with a
    generation request is ['video'] exactly for the two video types. *)
Theorem form_holds_only_allowed_types (B : Browser) (actions : list FormAction) :
  let compressing :=
    fold_left (fun st a => act (InputSection.processFile B) a st) actions
      FormSamples.empty_form in
  let plain :=
    fold_left (fun st a => act (InputSectionPlain.processFile B) a st) actions
      FormSamples.empty_form in
  holds_only [lit "image/jpeg"; lit "video/mp4"; lit "video/webm"] compressing
  /\ holds_only [lit "image/png"; lit "image/jpeg"; lit "image/webp"; lit "video/mp4";
                 lit "video/webm"] plain
  /\ forall m,
       uploadedMedia_state compressing = Some m \/ uploadedMedia_state plain = Some m ->
       mediaType_of (Some m)
       = Some (if str_eqb (mimeType m) (lit "video/mp4")
                  || str_eqb (mimeType m) (lit "video/webm")
               then video else image).
Proof.
  assert (Hfold : forall types processFile,
            (forall file st, holds_only types st -> holds_only types (processFile file st)) ->
            forall st, holds_only types st ->
            holds_only types (fold_left (fun st a => act processFile a st) actions st)).
  { intros types processFile Hp. induction actions as [|a rest IH]; intros st Hst;
      cbn [fold_left]; [exact Hst|].
    apply IH. now apply act_holds_only. }
  assert (Hempty : forall types, holds_only types FormSamples.empty_form).
  { intros types. split; [discriminate|intros m []]. }
  intros compressing plain.
  assert (Hc : holds_only [lit "image/jpeg"; lit "video/mp4"; lit "video/webm"] compressing).
  { apply Hfold; [apply processFile_holds_only|apply Hempty]. }
  assert (Hp : holds_only InputSectionPlain.acceptedTypes plain).
  { apply Hfold; [apply processFile_plain_holds_only|apply Hempty]. }
  split; [exact Hc|]. split; [exact Hp|].
  intros m [Hm|Hm].
  - apply (proj1 Hc) in Hm. cbn [mediaType_of].
    destruct Hm as [H|[H|[H|[]]]]; rewrite <- H; reflexivity.
  - apply (proj1 Hp) in Hm. cbn [mediaType_of]. unfold InputSectionPlain.acceptedTypes in Hm.
    destruct Hm as [H|[H|[H|[H|[H|[]]]]]]; rewrite <- H; reflexivity.
Qed.

(** X19.  The three ways in lead to the same place.  Dropping files, or
    pasting a clipboard in which some item is an image file item that
    yields a file and no item before it is (a text item, say, or an
    image item without a file), does to the form what picking that file
    does: [processFile] on one file, the first.  While a generation is
    in progress a drop and a paste change nothing; an empty drop, a
    drop without files and an empty pick change nothing; and every
    drop, whatever is dropped, and loading or not, leaves the drop zone
    not highlighted. *)
Theorem drop_and_paste_are_the_picker (B : Browser) (f : File) (more : list File)
  (pre post : list DataTransferItem) (item : DataTransferItem) (st : Form) :
  (forall x, In x pre -> yields_image x = false) ->
  image_item item = true ->
  getAsFile item = Some f ->
  let picked := InputSection.handleMediaUpload B (f :: more) st in
  handleDrop (InputSection.processFile B) false (Some (f :: more)) st = (picked, false)
  /\ InputSection.handlePaste B false (Some (pre ++ item :: post)) st = (picked, true)
  /\ handleDrop (InputSection.processFile B) true (Some (f :: more)) st = (st, false)
  /\ InputSection.handlePaste B true (Some (pre ++ item :: post)) st = (st, false)
  /\ handleDrop (InputSection.processFile B) false (Some []) st = (st, false)
  /\ handleDrop (InputSection.processFile B) false None st = (st, false)
  /\ InputSection.handleMediaUpload B [] st = st
  /\ (forall isLoading files st',
        snd (handleDrop (InputSection.processFile B) isLoading files st') = false).
Proof.
  intros Hpre Hitem Hfile picked. subst picked.
  unfold InputSection.handlePaste, handlePaste.
  rewrite (@paste_loop_first (InputSection.processFile B) pre post item f st Hpre Hitem Hfile).
  unfold handleDrop, InputSection.handleMediaUpload. cbn [nth_error].
  repeat split.
  intros isLoading files st'.
  destruct isLoading; [reflexivity|]. destruct files as [[|file rest]|]; reflexivity.
Qed.

Lemma drop_and_paste_are_the_picker_witness :
  let B := FormSamples.plain_browser in
  let st := FormSamples.empty_form in
  let clipboard :=
    [FormSamples.text_item;
     {| kind := lit "file"; item_type := lit "image/png"; getAsFile := None |};
     FormSamples.item_of FormSamples.png;
     FormSamples.item_of FormSamples.gif] in
  let picked := InputSection.handleMediaUpload B [FormSamples.png; FormSamples.gif] st in
  handleDrop (InputSection.processFile B) false (Some [FormSamples.png; FormSamples.gif]) st
  = (picked, false)
  /\ InputSection.handlePaste B false (Some clipboard) st = (picked, true)
  /\ handleDrop (InputSection.processFile B) true (Some [FormSamples.png; FormSamples.gif]) st
     = (st, false)
  /\ InputSection.handlePaste B true (Some clipboard) st = (st, false)
  /\ handleDrop (InputSection.processFile B) false (Some []) st = (st, false)
  /\ handleDrop (InputSection.processFile B) false None st = (st, false)
  /\ InputSection.handleMediaUpload B [] st = st
  /\ (forall isLoading files st',
        snd (handleDrop (InputSection.processFile B) isLoading files st') = false).
Proof.
  intros B st clipboard.
  apply (@drop_and_paste_are_the_picker B FormSamples.png [FormSamples.gif]
           [FormSamples.text_item;
            {| kind := lit "file"; item_type := lit "image/png"; getAsFile := None |}]
           [FormSamples.item_of FormSamples.gif]
           (FormSamples.item_of FormSamples.png) st).
  - intros x [<-|[<-|[]]]; reflexivity.
  - reflexivity.
  - reflexivity.
Defined.

(** X20.  An accepted file that cannot be read leaves the media held as
    it was, and [setUploadedMedia] is not called.  For an image the
    user is told ('Failed to process image. Please try a different
    file.'); for a video nothing at all is shown. *)
Theorem unreadable_file_keeps_the_media (B : Browser) (f : File) (st : Form) :
  (size f <= 100 * 1024 * 1024)%Z ->
  includes InputSection.acceptedTypes (file_type f) = true ->
  readAsDataURL B f = None ->
  let st' := InputSection.processFile B (Some f) st in
  uploadedMedia_state st' = uploadedMedia_state st
  /\ updates st' = updates st
  /\ alerts st'
     = alerts st
       ++ if startsWith (file_type f) (lit "image/")
          then [lit "Failed to process image. Please try a different file."]
          else [].
Proof.
  intros Hsize Hacc Hread st'. subst st'. unfold InputSection.processFile.
  apply Z.ltb_ge in Hsize. rewrite Hsize, Hacc. cbn [negb].
  unfold InputSection.compressImage. rewrite Hread.
  destruct (startsWith (file_type f) (lit "image/"));
    cbn [uploadedMedia_state updates alerts alert enter_processFile];
    rewrite ?app_nil_r; repeat split.
Qed.

Lemma unreadable_file_keeps_the_media_witness :
  let B := {| readAsDataURL := fun _ => None;
              loadImage := fun _ => None;
              has_2d_context := true;
              toDataURL := fun _ _ => {| mediatype := []; payload := [] |} |} in
  let clip := {| size := 1000; file_type := lit "video/mp4" |} in
  let st' := InputSection.processFile B (Some clip) FormSamples.empty_form in
  uploadedMedia_state st' = None /\ updates st' = [] /\ alerts st' = [].
Proof.
  intros B clip.
  apply (@unreadable_file_keeps_the_media B clip FormSamples.empty_form);
    [vm_compute; discriminate|reflexivity|reflexivity].
Defined.

(** ** Voice capture *)

Lemma app_one_neq {A} (l : list A) (x : A) : l ++ [x] <> l.
Proof.
  intros H. apply (f_equal (@List.length A)) in H.
  rewrite length_app in H. simpl in H. lia.
Qed.

(** X21.  Pressing the microphone button while recording stops the
    current session and nothing else: no recognition object is created,
    nothing is started, and the recorder's flags, error and reference
    stay.  Pressing it while not recording never turns the recording
    flag on by itself (that is left to [onstart]); it starts a session,
    on a newly created object that becomes the current one, only when
    the page is online, speech recognition is there, and neither the
    constructor nor [start()] throws; in every other case nothing is
    started and an error message is set. *)
Theorem toggle_stops_or_starts (nav : Voice.Navigator) (st : Voice.Recorder) :
  let st' := Voice.handleToggleRecording nav st in
  (Voice.isRecording st = true ->
   Voice.isRecording st' = true
   /\ Voice.speechError st' = Voice.speechError st
   /\ Voice.recognitionRef st' = Voice.recognitionRef st
   /\ Voice.created st' = Voice.created st
   /\ Voice.calls st'
      = Voice.calls st
        ++ match Voice.recognitionRef st with
           | Some current => [Voice.call_stop current]
           | None => []
           end)
  /\
  (Voice.isRecording st = false ->
   Voice.isRecording st' = false
   /\ (Voice.calls st' <> Voice.calls st
       <-> (Voice.onLine nav && Voice.SpeechRecognitionImpl nav
            && Voice.constructs nav && Voice.starts nav = true))
   /\ (Voice.calls st' <> Voice.calls st ->
       Voice.calls st' = Voice.calls st ++ [Voice.call_start (Voice.created st)]
       /\ Voice.recognitionRef st' = Some (Voice.created st)
       /\ Voice.created st' = S (Voice.created st)
       /\ Voice.speechError st' = None)
   /\ (Voice.calls st' = Voice.calls st ->
       exists message, Voice.speechError st' = Some message)).
Proof.
  intros st'. subst st'. unfold Voice.handleToggleRecording. split; intros Hrec; rewrite Hrec.
  - destruct (Voice.recognitionRef st) as [current|] eqn:Href; cbn; rewrite ?app_nil_r;
      repeat split; auto.
  - cbv zeta.
    destruct (Voice.onLine nav), (Voice.SpeechRecognitionImpl nav), (Voice.constructs nav),
      (Voice.starts nav); cbn;
      repeat split; try reflexivity; try discriminate; try congruence; eauto;
      try (intros H; exfalso; now apply H);
      try (intros _; apply app_one_neq);
      try (intros H; exfalso; now apply (@app_one_neq _ _ _ H)).
Qed.

(** White space at the ends of a text. *)

Lemma trimStart_app_blank (a b : jsstring) :
  forallb is_white_space a = true -> trimStart (a ++ b) = trimStart b.
Proof.
  induction a as [|c a IH]; [reflexivity|].
  cbn [forallb app trimStart]. intros H. apply andb_true_iff in H as [Hc Ha].
  rewrite Hc. now apply IH.
Qed.

Lemma trimStart_app_nonblank (a b : jsstring) :
  forallb is_white_space a = false -> trimStart (a ++ b) = trimStart a ++ b.
Proof.
  induction a as [|c a IH]; [discriminate|].
  cbn [forallb app trimStart]. destruct (is_white_space c); cbn [andb]; [exact IH|reflexivity].
Qed.

Lemma forallb_rev_eq {A} (f : A -> bool) (l : list A) : forallb f (rev l) = forallb f l.
Proof.
  induction l as [|x l IH]; [reflexivity|].
  cbn [rev forallb]. rewrite forallb_app, IH. cbn [forallb].
  rewrite andb_true_r. apply andb_comm.
Qed.

Lemma trimStart_idem (s : jsstring) : trimStart (trimStart s) = trimStart s.
Proof.
  induction s as [|c s IH]; [reflexivity|].
  cbn [trimStart]. destruct (is_white_space c) eqn:Hc; [exact IH|].
  cbn [trimStart]. now rewrite Hc.
Qed.

Lemma trimStart_head (s : jsstring) :
  forallb is_white_space s = false ->
  exists c r, trimStart s = c :: r /\ is_white_space c = false.
Proof.
  induction s as [|c s IH]; [discriminate|].
  cbn [forallb trimStart]. destruct (is_white_space c) eqn:Hc; cbn [andb]; [exact IH|].
  intros _. now exists c, s.
Qed.

Lemma trimStart_last (x : jsstring) (c : N) :
  is_white_space c = false -> exists y, trimStart (x ++ [c]) = y ++ [c].
Proof.
  intros Hc. induction x as [|d x IH]; cbn [app trimStart].
  - rewrite Hc. now exists [].
  - destruct (is_white_space d); [exact IH|]. now exists (d :: x).
Qed.

Lemma trimEnd_idem (s : jsstring) : trimEnd (trimEnd s) = trimEnd s.
Proof. unfold trimEnd. now rewrite rev_involutive, trimStart_idem. Qed.

(** A text that is not blank, trimmed: it starts with a character that is
    no white space, and trimming its end again changes nothing. *)
Lemma trim_nonblank (s : jsstring) :
  forallb is_white_space s = false ->
  (exists c r, trim s = c :: r /\ is_white_space c = false)
  /\ trimEnd (trim s) = trim s.
Proof.
  intros H. split; [|apply trimEnd_idem].
  destruct (@trimStart_head s H) as (c & r & Hs & Hc).
  unfold trim, trimEnd. rewrite Hs. cbn [rev].
  destruct (@trimStart_last (rev r) c Hc) as (y & ->).
  rewrite rev_app_distr. cbn [rev app]. now exists c, (rev y).
Qed.

Lemma trimStart_fixed (p b : jsstring) :
  (exists c r, p = c :: r /\ is_white_space c = false) ->
  trimStart (p ++ b) = p ++ b.
Proof. intros (c & r & -> & Hc). cbn [app trimStart]. now rewrite Hc. Qed.

(** X22.  What a recognised transcript does to the idea.  An empty idea
    becomes the transcript as it is, untrimmed.  An idea of white space
    only becomes the trimmed transcript.  Otherwise the idea is trimmed
    and the transcript, without its trailing white space, is put behind
    it after exactly one space; a transcript of white space only leaves
    the trimmed idea. *)
Theorem transcript_is_appended (transcript prevIdea : jsstring) :
  let idea := Voice.append_transcript transcript prevIdea in
  (prevIdea = [] -> idea = transcript)
  /\ (prevIdea <> [] -> forallb is_white_space prevIdea = true ->
      idea = trim transcript)
  /\ (forallb is_white_space prevIdea = false ->
      forallb is_white_space transcript = true ->
      idea = trim prevIdea)
  /\ (forallb is_white_space prevIdea = false ->
      forallb is_white_space transcript = false ->
      idea = trim prevIdea ++ lit " " ++ trimEnd transcript).
Proof.
  intros idea. subst idea. unfold Voice.append_transcript. repeat split.
  - now intros ->.
  - intros Hne Hblank. destruct prevIdea as [|c s]; [now contradiction Hne|].
    rewrite (@trim_blank _ Hblank). reflexivity.
  - intros Hprev Hblank. destruct prevIdea as [|c0 s0]; [discriminate|].
    destruct (@trim_nonblank _ Hprev) as (Hhead & Hidem).
    unfold trim at 1. rewrite (@trimStart_fixed _ _ Hhead).
    unfold trimEnd at 1.
    rewrite !rev_app_distr, <- app_assoc.
    rewrite trimStart_app_blank by (now rewrite forallb_rev_eq).
    rewrite trimStart_app_blank by reflexivity.
    exact Hidem.
  - intros Hprev Htr. destruct prevIdea as [|c0 s0]; [discriminate|].
    destruct (@trim_nonblank _ Hprev) as (Hhead & Hidem).
    unfold trim at 1. rewrite (@trimStart_fixed _ _ Hhead).
    unfold trimEnd at 1.
    rewrite !rev_app_distr, <- app_assoc.
    rewrite trimStart_app_nonblank by (now rewrite forallb_rev_eq).
    rewrite !rev_app_distr, !rev_involutive, <- app_assoc. reflexivity.
Qed.

(** Dictating twice. *)
Example transcript_is_appended_twice :
  Voice.append_transcript (lit "with extra cheese ")
    (Voice.append_transcript (lit "Friday special") (lit "  "))
  = lit "Friday special with extra cheese".
Proof. vm_compute. reflexivity. Qed.

(** ** What goes out to the provider *)

Lemma text_requests_of_cycle (pre : list Event) (k : jsstring)
  (q : GenerateContentParameters) (images : option JSValue)
  (f : JSValue -> Platform -> GenerateImagesParameters) :
  (forall ev, In ev pre -> is_provider_call ev = false) ->
  text_requests
    (pre ++ CallGenerateContent k q
         :: match images with
            | Some p => map (fun platform => CallGenerateImages k (f p platform))
                          [LinkedIn; Facebook; Twitter; Instagram]
            | None => []
            end)
  = [q].
Proof.
  intros Hpre. unfold text_requests. rewrite flat_map_app.
  assert (H0 : flat_map (fun ev => match ev with CallGenerateContent _ q => [q] | _ => [] end)
                 pre = []).
  { induction pre as [|ev pre IH]; [reflexivity|]. cbn [flat_map].
    rewrite IH by (intros x Hx; apply Hpre; now right).
    specialize (Hpre ev (or_introl eq_refl)). destruct ev; try discriminate. reflexivity. }
  rewrite H0. destruct images; reflexivity.
Qed.

(** X23.  A cycle that has its key sends the provider exactly one text
    request, whatever happens afterwards: to the model [gemini-2.5-pro],
    asking for JSON under the response schema, with the upload, if
    there is one, as inline data (type and base64 as they are) before
    the prompt, and the prompt made for the idea and the kind of the
    upload.  This holds for the direct service and for the proxy, each
    with its own prompt. *)
Theorem one_text_request_per_cycle (E : Engine) (W : World)
  (client : option GoogleGenAI) (words : jsstring) (upload : option UploadedMedia) :
  let request prompt :=
    {| gc_model := lit "gemini-2.5-pro";
       gc_parts :=
         match upload with
         | Some m => [InlineData (mimeType m) (base64 m); TextPart prompt]
         | None => [TextPart prompt]
         end;
       gc_responseMimeType := lit "application/json";
       gc_responseSchema := Wording.responseSchema |} in
  (configured W client = true ->
   text_requests
     (trace (snd (GeminiService.generateSocialPosts E W words upload (start client))))
   = [request (GeminiService.buildPrompt words (mediaType_of upload))])
  /\
  (trim words <> [] ->
   server_configured W = true ->
   text_requests
     (trace (snd (ApiGenerate.handler E W (proxy_request words upload) (start None))))
   = [request (ApiGenerate.buildPrompt words (mediaType_of upload))]).
Proof.
  intros request. subst request. split.
  - intros Hcfg. unfold start.
    rewrite (@direct_run E W client [] words upload Hcfg). cbn [trace app].
    unfold Constants.PLATFORMS.
    rewrite (@text_requests_of_cycle _ _ _ (image_prompt_of E W words upload)
               GeminiService.image_request);
      [reflexivity|].
    destruct client; [intros ev []|intros ev [<-|[]]; reflexivity].
  - intros Hwords Hsrv.
    rewrite (@proxy_run E W words upload (start None) Hwords Hsrv). cbn [trace start app].
    unfold ApiGenerate.PLATFORMS.
    match goal with
    | |- text_requests (?a :: ?l) = _ => change (a :: l) with ([a] ++ l)
    end.
    rewrite (@text_requests_of_cycle [ReadEnv (lit "GEMINI_API_KEY")] _ _
               (image_prompt_of E W words upload) ApiGenerate.image_request);
      [reflexivity|].
    intros ev [<-|[]]; reflexivity.
Qed.

(** X24.  Each side has its own key.  The direct service reads no
    variable but [API_KEY], and only when it has no client yet; the
    proxy reads no variable but [GEMINI_API_KEY].  Every provider call
    of a cycle is made with the key of its side: the cached client's or
    the value of [API_KEY] for the direct service, the value of
    [GEMINI_API_KEY] for the proxy. *)
Theorem each_side_has_its_own_key (E : Engine) (W : World)
  (client : option GoogleGenAI) (words : jsstring) (upload : option UploadedMedia) :
  (configured W client = true ->
   Forall (fun ev =>
             match ev with
             | ReadEnv name => name = lit "API_KEY" /\ client = None
             | CallGenerateContent k _ | CallGenerateImages k _ =>
                 k = match client with
                     | Some c => apiKey c
                     | None => match env W (lit "API_KEY") with
                               | Some key => key
                               | None => []
                               end
                     end
             end)
     (trace (snd (GeminiService.generateSocialPosts E W words upload (start client)))))
  /\
  (trim words <> [] ->
   server_configured W = true ->
   Forall (fun ev =>
             match ev with
             | ReadEnv name => name = lit "GEMINI_API_KEY"
             | CallGenerateContent k _ | CallGenerateImages k _ =>
                 env W (lit "GEMINI_API_KEY") = Some k
             end)
     (trace (snd (ApiGenerate.handler E W (proxy_request words upload) (start None))))).
Proof.
  split.
  - intros Hcfg. unfold start.
    rewrite (@direct_run E W client [] words upload Hcfg). cbn [trace app].
    unfold direct_key.
    destruct client as [c|], (image_prompt_of E W words upload);
      repeat constructor.
  - intros Hwords Hsrv.
    rewrite (@proxy_run E W words upload (start None) Hwords Hsrv). cbn [trace start app].
    unfold server_configured, server_key in *.
    destruct (env W (lit "GEMINI_API_KEY")) as [[|k0 k]|]; try discriminate.
    destruct (image_prompt_of E W words upload); repeat constructor.
Qed.

(** ** A recognition session from start to end *)

(** X25.  A session, once started, ends idle.  From a recorder that is
    not recording, on a page that is online and can recognise speech, a
    press of the button and the browser's [onstart] give a recording
    recorder whose current object is the new one.  After a result and
    [onend] the recorder is idle, without reference and without error,
    and the idea has taken the transcript; after an error and [onend]
    it is idle with one of four messages, the same for ['not-allowed']
    and ['service-not-allowed'].  The only call made was the one
    [start()], and the next press creates the next object. *)
Theorem session_ends_idle (nav : Voice.Navigator) (st : Voice.Recorder) :
  Voice.isRecording st = false ->
  Voice.onLine nav && Voice.SpeechRecognitionImpl nav
  && Voice.constructs nav && Voice.starts nav = true ->
  let started := Voice.onstart (Voice.handleToggleRecording nav st) in
  Voice.isRecording started = true
  /\ Voice.recognitionRef started = Some (Voice.created st)
  /\ (forall transcript idea,
        let ended := Voice.onend (fst (Voice.onresult transcript started idea)) in
        snd (Voice.onresult transcript started idea)
        = Voice.append_transcript transcript idea
        /\ Voice.isRecording ended = false
        /\ Voice.recognitionRef ended = None
        /\ Voice.speechError ended = None
        /\ Voice.calls ended = Voice.calls st ++ [Voice.call_start (Voice.created st)]
        /\ Voice.recognitionRef (Voice.handleToggleRecording nav ended)
           = Some (S (Voice.created st)))
  /\ (forall error,
        let ended := Voice.onend (Voice.onerror error started) in
        Voice.isRecording ended = false
        /\ Voice.recognitionRef ended = None
        /\ Voice.calls ended = Voice.calls st ++ [Voice.call_start (Voice.created st)]
        /\ exists message,
             Voice.speechError ended = Some message
             /\ In message
                  [lit "Network error. Please check your connection and try again.";
                   lit "No speech was detected. Please try again.";
                   lit "Microphone access denied. Please allow access in your browser settings.";
                   lit "An error occurred during speech recognition. Please try again."])
  /\ Voice.onerror (lit "not-allowed") started
     = Voice.onerror (lit "service-not-allowed") started.
Proof.
  intros Hrec Hnav started. subst started.
  apply andb_true_iff in Hnav as [Hnav Hstarts].
  apply andb_true_iff in Hnav as [Hnav Hcons].
  apply andb_true_iff in Hnav as [Hon Himpl].
  unfold Voice.handleToggleRecording. rewrite Hrec, Hon, Himpl, Hcons, Hstarts.
  cbn [negb]. cbv zeta.
  split; [reflexivity|]. split; [reflexivity|]. split; [|split].
  - intros transcript idea.
    cbn [Voice.onresult Voice.onend Voice.onstart Voice.create Voice.call
         Voice.setSpeechError Voice.setIsRecording fst snd Voice.isRecording
         Voice.recognitionRef Voice.speechError Voice.calls Voice.created negb].
    repeat split.
  - intros error.
    unfold Voice.onerror.
    cbn [Voice.onend Voice.onstart Voice.create Voice.call
         Voice.setSpeechError Voice.setIsRecording Voice.isRecording
         Voice.recognitionRef Voice.speechError Voice.calls Voice.created].
    split; [reflexivity|]. split; [reflexivity|]. split; [reflexivity|].
    eexists. split; [reflexivity|].
    destruct (str_eqb error (lit "network")); [simpl; tauto|].
    destruct (str_eqb error (lit "no-speech")); [simpl; tauto|].
    destruct (str_eqb error (lit "not-allowed") || str_eqb error (lit "service-not-allowed"));
      simpl; tauto.
  - reflexivity.
Qed.

Lemma session_ends_idle_witness :
  let nav := {| Voice.onLine := true; Voice.SpeechRecognitionImpl := true;
                Voice.constructs := true; Voice.starts := true |} in
  let st := {| Voice.isRecording := false; Voice.speechError := None;
               Voice.recognitionRef := None; Voice.created := 0; Voice.calls := [] |} in
  let started := Voice.onstart (Voice.handleToggleRecording nav st) in
  let ended := Voice.onend (fst (Voice.onresult (lit "margherita") started (lit "Friday "))) in
  snd (Voice.onresult (lit "margherita") started (lit "Friday ")) = lit "Friday margherita"
  /\ Voice.isRecording ended = false
  /\ Voice.recognitionRef ended = None
  /\ Voice.speechError ended = None
  /\ Voice.calls ended = [Voice.call_start 0]
  /\ Voice.recognitionRef (Voice.handleToggleRecording nav ended) = Some 1%nat.
Proof.
  intros nav st started ended.
  destruct (@session_ends_idle nav st eq_refl eq_refl) as (_ & _ & H & _).
  exact (H (lit "margherita") (lit "Friday ")).
Defined.

(** ** The prompt *)

(** X26.  The idea goes into the prompt verbatim, once, between double
    quotes: the prompt is a text fixed by the kind of the upload, then
    the idea, unescaped whatever it contains, then another such text.
    Hence two ideas never share a prompt.  This holds for the prompts
    of both implementations. *)
Theorem idea_is_inserted_verbatim (mediaType : option MediaKind) :
  (exists before after,
     forall words,
       GeminiService.buildPrompt words mediaType = before ++ dq ++ words ++ dq ++ after)
  /\ (exists before after,
        forall words,
          ApiGenerate.buildPrompt words mediaType = before ++ dq ++ words ++ dq ++ after)
  /\ (forall words words',
        GeminiService.buildPrompt words mediaType
        = GeminiService.buildPrompt words' mediaType ->
        words = words')
  /\ (forall words words',
        ApiGenerate.buildPrompt words mediaType
        = ApiGenerate.buildPrompt words' mediaType ->
        words = words').
Proof.
  assert (Hd : exists before after,
            forall words,
              GeminiService.buildPrompt words mediaType
              = before ++ dq ++ words ++ dq ++ after).
  { unfold GeminiService.buildPrompt. cbv zeta. destruct mediaType as [k|].
    - exists (Wording.opening ++ Wording.media_included (kind_name k)
              ++ nl ++ lit "    " ++ nl ++ lit "    Idea: "),
             (nl ++ lit "    " ++ Wording.brand_voice_block Wording.PNP_PIZZA_BRAND_VOICE
              ++ Wording.describe_media (kind_name k) ++ Wording.closing).
      intros words. rewrite <- !app_assoc. reflexivity.
    - exists (Wording.opening ++ nl ++ lit "    " ++ nl ++ lit "    Idea: "),
             (nl ++ lit "    " ++ Wording.brand_voice_block Wording.PNP_PIZZA_BRAND_VOICE
              ++ Wording.invent_image ++ Wording.closing).
      intros words. rewrite <- !app_assoc. reflexivity. }
  assert (Hp : exists before after,
            forall words,
              ApiGenerate.buildPrompt words mediaType
              = before ++ dq ++ words ++ dq ++ after).
  { unfold ApiGenerate.buildPrompt. cbv zeta. destruct mediaType as [k|].
    - exists (Wording.opening ++ Wording.media_included (kind_name k)
              ++ nl ++ nl ++ lit "    Idea: "),
             (nl ++ lit "    " ++ Wording.brand_voice_block Wording.PNP_PIZZA_BRAND_VOICE
              ++ Wording.describe_media (kind_name k) ++ Wording.closing).
      intros words. rewrite <- !app_assoc. reflexivity.
    - exists (Wording.opening ++ nl ++ nl ++ lit "    Idea: "),
             (nl ++ lit "    " ++ Wording.brand_voice_block Wording.PNP_PIZZA_BRAND_VOICE
              ++ Wording.invent_image ++ Wording.closing).
      intros words. rewrite <- !app_assoc. reflexivity. }
  split; [exact Hd|]. split; [exact Hp|]. split.
  - destruct Hd as (before & after & Hd). intros words words' H.
    rewrite !Hd in H. apply app_inv_head in H. apply app_inv_head in H.
    rewrite !(app_assoc _ dq after) in H. apply app_inv_tail in H.
    now apply app_inv_tail in H.
  - destruct Hp as (before & after & Hp). intros words words' H.
    rewrite !Hp in H. apply app_inv_head in H. apply app_inv_head in H.
    rewrite !(app_assoc _ dq after) in H. apply app_inv_tail in H.
    now apply app_inv_tail in H.
Qed.
